(** * ktel: a managed Kafka consumer -- verification of its lifecycle core

    The development embeds the Go packages [health], [kgo] (option
    construction), [telemetry], [processor], [consumer] and [ktel] (the
    application's [New] and [Start]) and proves properties of the readiness
    tracker, the instrumenting decorator, the poll loop and the shutdown
    sequence.

    Conventions.
    - A Go [string] is a byte string: [String.string].
    - A Go [error] value is its message ([err.Error()]); a possibly-nil
      error is an [option error], [None] standing for [nil].
    - A Go [map] is a [gmap]; iterating one with [range] visits the entries
      in an order the language leaves unspecified, so such a loop takes the
      visiting order as an argument.
    - Functions of other libraries (net/http, zap, franz-go, crypto/tls, the
      strings package, OpenTelemetry) are modelled by what the calls made
      here rely on, or taken as parameters.
    - Panics are not modelled. *)

From Stdlib Require Import ZArith String Ascii List Bool Lia Permutation.
From stdpp Require Import base option list gmap strings.
Import ListNotations.
Local Open Scope string_scope.
Local Open Scope list_scope.

Definition error := string.

(** The line feed that [fmt.Fprintln] appends. *)
Definition LF : string := String "010"%char EmptyString.

(* ===================================================================== *)
(** * zap: structured log entries *)
(* ===================================================================== *)

Module zap.

Inductive Level := DebugLevel | InfoLevel | WarnLevel | ErrorLevel | FatalLevel.

Inductive Field :=
| FString (s : string)
| FInt (z : Z)
| FError (e : error)
| FPartitions (m : gmap string (list Z)).

Record Entry := mkEntry {
  level : Level;
  message : string;
  fields : list (string * Field)
}.

Definition Info (msg : string) : Entry := mkEntry InfoLevel msg [].
Definition Debug (msg : string) : Entry := mkEntry DebugLevel msg [].
Definition Infow (msg : string) (kv : list (string * Field)) : Entry := mkEntry InfoLevel msg kv.
Definition Warnw (msg : string) (kv : list (string * Field)) : Entry := mkEntry WarnLevel msg kv.
Definition Errorw (msg : string) (kv : list (string * Field)) : Entry := mkEntry ErrorLevel msg kv.
Definition Debugw (msg : string) (kv : list (string * Field)) : Entry := mkEntry DebugLevel msg kv.
Definition Warnf (msg : string) : Entry := mkEntry WarnLevel msg [].
Definition Errorf (msg : string) : Entry := mkEntry ErrorLevel msg [].
Definition Fatalf (msg : string) : Entry := mkEntry FatalLevel msg [].

Definition is_level (l : Level) (e : Entry) : bool :=
  match l, level e with
  | DebugLevel, DebugLevel | InfoLevel, InfoLevel | WarnLevel, WarnLevel
  | ErrorLevel, ErrorLevel | FatalLevel, FatalLevel => true
  | _, _ => false
  end.

End zap.

(* ===================================================================== *)
(** * net/http: the part of a ResponseWriter the probe handlers use *)
(* ===================================================================== *)

Module http.

Definition StatusOK : Z := 200.
Definition StatusServiceUnavailable : Z := 503.

Record Request := mkRequest { Method : string; Path : string }.

(** A response under construction: [status] is [None] until the header has
    been written. *)
Record ResponseWriter := mkResponseWriter {
  status : option Z;
  header : gmap string string;
  body : string
}.

(** A fresh writer, as the server hands one to a handler. *)
Definition NewRecorder : ResponseWriter := mkResponseWriter None ∅ "".

(** [w.WriteHeader(code)]: only the first call counts. *)
Definition WriteHeader (code : Z) (w : ResponseWriter) : ResponseWriter :=
  match status w with
  | Some _ => w
  | None => mkResponseWriter (Some code) (header w) (body w)
  end.

(** [w.Write(b)]: writes the header with 200 first when none was written. *)
Definition Write (b : string) (w : ResponseWriter) : ResponseWriter :=
  let w := WriteHeader StatusOK w in
  mkResponseWriter (status w) (header w) (body w +:+ b).

(** [http.Error(w, msg, code)]: plain-text headers, the status code, then
    the message and a line feed. *)
Definition Error (msg : string) (code : Z) (w : ResponseWriter) : ResponseWriter :=
  let h := <["X-Content-Type-Options" := "nosniff"]>
           (<["Content-Type" := "text/plain; charset=utf-8"]>
            (delete "Content-Length" (header w))) in
  Write (msg +:+ LF) (WriteHeader code (mkResponseWriter (status w) h (body w))).

End http.

(* ===================================================================== *)
(** * package health *)
(* ===================================================================== *)

Module health.

(** [type Check func() error] *)
Definition Check := unit -> option error.

(** [type Checker struct]. Every method takes the struct's lock for its
    whole body, so each method is one atomic transformation of the state. *)
Record Checker := mkChecker {
  ready : bool;
  readinessChecks : gmap string Check
}.

Definition NewChecker : Checker := mkChecker false ∅.

Definition AddReadinessCheck (name : string) (check : Check) (c : Checker) : Checker :=
  mkChecker (ready c) (<[name := check]> (readinessChecks c)).

Definition LivenessProbe (c : Checker) (r : http.Request) (w : http.ResponseWriter)
  : http.ResponseWriter :=
  http.Write "ok" (http.WriteHeader http.StatusOK w).

(** The body of [for name, check := range c.readinessChecks]: the first
    check, in visiting order, that returns an error. *)
Fixpoint first_failing (visit : list (string * Check)) : option (string * error) :=
  match visit with
  | [] => None
  | (name, check) :: rest =>
      match check tt with
      | Some err => Some (name, err)
      | None => first_failing rest
      end
  end.

(** [visit] is the order in which [range] walks the map. *)
Definition ReadinessProbe (visit : list (string * Check)) (c : Checker)
  (r : http.Request) (w : http.ResponseWriter) : http.ResponseWriter :=
  if negb (ready c) then
    http.Error "consumer not ready (no partitions assigned)" http.StatusServiceUnavailable w
  else
    match first_failing visit with
    | Some (name, err) =>
        http.Error (name +:+ " is not ready: " +:+ err) http.StatusServiceUnavailable w
    | None => http.Write "ok" (http.WriteHeader http.StatusOK w)
    end.

(** The visiting orders [range] may choose for a checker's map. *)
Definition range_order (c : Checker) (visit : list (string * Check)) : Prop :=
  visit ≡ₚ map_to_list (readinessChecks c).

Definition IsReady (c : Checker) : bool := ready c.

Definition SetReady (b : bool) (c : Checker) : Checker :=
  mkChecker b (readinessChecks c).

(** The mutating methods, as data: a history of calls made on a checker. *)
Inductive Call :=
| CallAddReadinessCheck (name : string) (check : Check)
| CallSetReady (b : bool).

Definition call (c : Checker) (op : Call) : Checker :=
  match op with
  | CallAddReadinessCheck name check => AddReadinessCheck name check c
  | CallSetReady b => SetReady b c
  end.

Definition calls (ops : list Call) (c : Checker) : Checker := fold_left call ops c.

Definition is_SetReady_true (op : Call) : bool :=
  match op with CallSetReady true => true | _ => false end.

(** The call registers a check under [name]. *)
Definition registers (name : string) (op : Call) : bool :=
  match op with
  | CallAddReadinessCheck n _ => String.eqb n name
  | CallSetReady _ => false
  end.

(** A fresh writer after the handler has run. *)
Definition probe (visit : list (string * Check)) (c : Checker) (r : http.Request)
  : http.ResponseWriter :=
  ReadinessProbe visit c r http.NewRecorder.

End health.

(* ===================================================================== *)
(** * package config *)
(* ===================================================================== *)

Module config.

Record TLS := mkTLS {
  TLS_Enabled : bool;
  CAFile : string;
  CertFile : string;
  KeyFile : string
}.

Record SASL := mkSASL {
  SASL_Enabled : bool;
  Mechanism : string;
  Username : string;
  Password : string
}.

Record Kafka := mkKafka {
  Brokers : string;
  Topic : string;
  GroupID : string;
  RebalanceStrategy : string;
  Kafka_TLS : TLS;
  Kafka_SASL : SASL
}.

Record Config := mkConfig {
  AppName : string;
  Config_Kafka : Kafka;
  Server_Port : string;
  Otel_Enabled : bool;
  Otel_Endpoint : string
}.

End config.

(* ===================================================================== *)
(** * Process-level effects: the global logger, the shared checker, exit *)
(* ===================================================================== *)

(** What the main goroutine of a process does, in program order. *)
Inductive Event :=
| Logged (e : zap.Entry)
| NotifyContext                     (* signal.NotifyContext(...) *)
| GoHealthServer (addr : string)    (* wg.Add(1); go server.ListenAndServe() *)
| GoConsumerRun                     (* wg.Add(1); go appConsumer.Run(ctx) *)
| ContextDone                       (* <-ctx.Done() has returned *)
| ServerShutdown                    (* server.Shutdown(shutdownCtx) *)
| TracerProviderShutdown
| MeterProviderShutdown
| KafkaClientClose                  (* a.KafkaClient.Close() *)
| CleanupFn (i : nat)               (* the i-th cleanup function is called *)
| WaitGroupWait                     (* wg.Wait() has returned *)
| StopNotify.                       (* the deferred stop() *)

(** What a running process has done so far, as far as this development
    observes it. [checker] is the one [*health.Checker] the application
    creates; closures that captured the pointer act on this field. *)
Record Process := mkProcess {
  trace : list Event;
  checker : health.Checker
}.

Definition act (e : Event) (p : Process) : Process :=
  mkProcess (trace p ++ [e]) (checker p).

Definition log (e : zap.Entry) (p : Process) : Process := act (Logged e) p.

Definition logged (p : Process) : list zap.Entry :=
  omap (fun e => match e with Logged l => Some l | _ => None end) (trace p).

Definition with_checker (f : health.Checker -> health.Checker) (p : Process) : Process :=
  mkProcess (trace p) (f (checker p)).

(** A computation either returns or ends the process ([os.Exit], which zap's
    [Fatalf] calls after writing the entry). *)
Inductive Outcome (A : Type) :=
| Exit (code : Z)
| Return (a : A).
Arguments Exit {A} code.
Arguments Return {A} a.

Definition M (A : Type) : Type := Process -> Process * Outcome A.

Definition ret {A} (a : A) : M A := fun p => (p, Return a).

Definition bind {A B} (m : M A) (k : A -> M B) : M B :=
  fun p =>
    match m p with
    | (p', Exit code) => (p', Exit code)
    | (p', Return a) => k a p'
    end.

Notation "'let*' x ':=' m 'in' k" := (bind m (fun x => k))
  (at level 10, x name, m at level 100, k at level 200).
Notation "'do' m 'then' k" := (bind m (fun _ => k))
  (at level 10, m at level 100, k at level 200).

Definition emit (e : zap.Entry) : M unit := fun p => (log e p, Return tt).

Definition perform (e : Event) : M unit := fun p => (act e p, Return tt).

(** [healthChecker := health.NewChecker()] *)
Definition with_new_checker : M unit :=
  fun p => (with_checker (fun _ => health.NewChecker) p, Return tt).

Definition Fatalf {A} (msg : string) : M A :=
  fun p => (log (zap.Fatalf msg) p, Exit 1).

Definition exited {A} (r : Process * Outcome A) : bool :=
  match snd r with Exit _ => true | Return _ => false end.

(* ===================================================================== *)
(** * package kgo: client options *)
(* ===================================================================== *)

Module kgo.

(** What this package takes from the Go runtime and its libraries:
    [strings.ToLower], [strings.ToUpper], [tls.LoadX509KeyPair] and
    [os.ReadFile]. *)
Record Platform := mkPlatform {
  ToLower : string -> string;
  ToUpper : string -> string;
  LoadX509KeyPair : string -> string -> error + string;
  ReadFile : string -> error + string
}.

Record tlsConfig := mkTlsConfig {
  Certificates : list string;
  RootCAs : option string
}.

Inductive Balancer := RoundRobinBalancer | RangeBalancer | StickyBalancer.

Inductive Mechanism :=
| PlainMechanism (user pass : string)
| Sha256Mechanism (user pass : string)
| Sha512Mechanism (user pass : string).

(** A rebalance callback: it receives the partitions of the event and acts
    on the process (the logger and the captured checker). *)
Definition Callback := gmap string (list Z) -> Process -> Process.

Inductive Opt :=
| RequiredAcksAllISR
| SeedBrokers (addrs : list string)
| ConsumerGroup (group : string)
| ConsumeTopics (topic : string)
| OnPartitionsAssigned (cb : Callback)
| OnPartitionsRevoked (cb : Callback)
| OnPartitionsLost (cb : Callback)
| FetchMaxBytes (n : Z)
| WithHooks (tracerProvider : option string)
| Balancers (b : Balancer)
| DialTLSConfig (c : tlsConfig)
| SASL (m : Mechanism).

(** [strings.Split(s, ",")] *)
Fixpoint split_comma (cur s : string) : list string :=
  match s with
  | EmptyString => [cur]
  | String c s' =>
      if Ascii.eqb c ","%char then cur :: split_comma EmptyString s'
      else split_comma (cur +:+ String c EmptyString) s'
  end.

(** The three closures of lines 29-40. *)
Definition onAssigned : Callback := fun assigned p =>
  with_checker (health.SetReady true)
    (log (zap.Infow "Partitions assigned" [("partitions", zap.FPartitions assigned)]) p).

Definition onRevoked : Callback := fun revoked p =>
  with_checker (health.SetReady false)
    (log (zap.Infow "Partitions revoked" [("partitions", zap.FPartitions revoked)]) p).

Definition onLost : Callback := fun lost p =>
  with_checker (health.SetReady false)
    (log (zap.Warnw "Partitions lost" [("partitions", zap.FPartitions lost)]) p).

Definition createTLSConfig (P : Platform) (certFile keyFile caFile : string)
  : error + tlsConfig :=
  let step1 :=
    if negb (String.eqb certFile "") && negb (String.eqb keyFile "") then
      match LoadX509KeyPair P certFile keyFile with
      | inl err => inl ("could not load client key pair: " +:+ err)
      | inr cert => inr (mkTlsConfig [cert] None)
      end
    else inr (mkTlsConfig [] None) in
  match step1 with
  | inl err => inl err
  | inr tlsCfg =>
      if negb (String.eqb caFile "") then
        match ReadFile P caFile with
        | inl err => inl ("could not read CA certificate: " +:+ err)
        | inr caCert => inr (mkTlsConfig (Certificates tlsCfg) (Some caCert))
        end
      else inr tlsCfg
  end.

Definition rebalance_step (P : Platform) (strategy : string) (opts : list Opt) : M (list Opt) :=
  let s := ToLower P strategy in
  if String.eqb s "roundrobin" then ret (opts ++ [Balancers RoundRobinBalancer])
  else if String.eqb s "range" then ret (opts ++ [Balancers RangeBalancer])
  else if String.eqb s "sticky" then ret (opts ++ [Balancers StickyBalancer])
  else
    do emit (zap.Warnf ("Unknown or empty rebalance strategy '" +:+ strategy +:+ "', using default."))
    then ret opts.

Definition tls_step (P : Platform) (t : config.TLS) (opts : list Opt) : M (list Opt) :=
  if config.TLS_Enabled t then
    match createTLSConfig P (config.CertFile t) (config.KeyFile t) (config.CAFile t) with
    | inl err => Fatalf ("Failed to create TLS config: " +:+ err)
    | inr tlsCfg => ret (opts ++ [DialTLSConfig tlsCfg])
    end
  else ret opts.

Definition sasl_step (P : Platform) (s : config.SASL) (opts : list Opt) : M (list Opt) :=
  if config.SASL_Enabled s then
    let m := ToUpper P (config.Mechanism s) in
    if String.eqb m "PLAIN" then
      ret (opts ++ [SASL (PlainMechanism (config.Username s) (config.Password s))])
    else if String.eqb m "SCRAM-SHA-256" then
      ret (opts ++ [SASL (Sha256Mechanism (config.Username s) (config.Password s))])
    else if String.eqb m "SCRAM-SHA-512" then
      ret (opts ++ [SASL (Sha512Mechanism (config.Username s) (config.Password s))])
    else Fatalf ("Unsupported SASL mechanism: " +:+ config.Mechanism s)
  else ret opts.

(** [BuildKgoOptions(cfg, tp, checker)]; [checker] is the process's. *)
Definition BuildKgoOptions (P : Platform) (cfg : config.Config) (tp : option string)
  : M (list Opt) :=
  let k := config.Config_Kafka cfg in
  let opts :=
    [ RequiredAcksAllISR;
      SeedBrokers (split_comma EmptyString (config.Brokers k));
      ConsumerGroup (config.GroupID k);
      ConsumeTopics (config.Topic k);
      OnPartitionsAssigned onAssigned;
      OnPartitionsRevoked onRevoked;
      OnPartitionsLost onLost;
      FetchMaxBytes (1024 * 1024 * 5) ] in
  let opts := if config.Otel_Enabled cfg then opts ++ [WithHooks tp] else opts in
  let* opts := rebalance_step P (config.RebalanceStrategy k) opts in
  let* opts := tls_step P (config.Kafka_TLS k) opts in
  let* opts := sasl_step P (config.Kafka_SASL k) opts in
  ret opts.

(** The group-coordination events the client turns into callback calls. *)
Inductive RebalanceEvent :=
| Assigned (partitions : gmap string (list Z))
| Revoked (partitions : gmap string (list Z))
| Lost (partitions : gmap string (list Z)).

(** The client calls every callback registered for the event's kind. *)
Definition fire (ev : RebalanceEvent) (o : Opt) (p : Process) : Process :=
  match ev, o with
  | Assigned m, OnPartitionsAssigned cb => cb m p
  | Revoked m, OnPartitionsRevoked cb => cb m p
  | Lost m, OnPartitionsLost cb => cb m p
  | _, _ => p
  end.

Definition deliver (opts : list Opt) (p : Process) (ev : RebalanceEvent) : Process :=
  fold_left (fun p o => fire ev o p) opts p.

Definition deliver_all (opts : list Opt) (evs : list RebalanceEvent) (p : Process) : Process :=
  fold_left (deliver opts) evs p.

(** Options that hold no rebalance callback. *)
Definition passive (o : Opt) : Prop :=
  match o with
  | OnPartitionsAssigned _ | OnPartitionsRevoked _ | OnPartitionsLost _ => False
  | _ => True
  end.

Definition extends_passively (opts opts' : list Opt) : Prop :=
  exists extra, opts' = opts ++ extra /\ Forall passive extra.

(** What a rebalance event does once the three closures are registered. *)
Definition on_event (ev : RebalanceEvent) (p : Process) : Process :=
  match ev with
  | Assigned m => onAssigned m p
  | Revoked m => onRevoked m p
  | Lost m => onLost m p
  end.

(** How the configuration's strings are read. *)
Definition strategy_balancer (P : Platform) (strategy : string) : option Balancer :=
  let s := ToLower P strategy in
  if String.eqb s "roundrobin" then Some RoundRobinBalancer
  else if String.eqb s "range" then Some RangeBalancer
  else if String.eqb s "sticky" then Some StickyBalancer
  else None.

Definition supported_mechanism (P : Platform) (mechanism : string) : bool :=
  let m := ToUpper P mechanism in
  String.eqb m "PLAIN" || String.eqb m "SCRAM-SHA-256" || String.eqb m "SCRAM-SHA-512".

Definition sasl_fails (P : Platform) (s : config.SASL) : bool :=
  config.SASL_Enabled s && negb (supported_mechanism P (config.Mechanism s)).

Definition tls_fails (P : Platform) (t : config.TLS) : bool :=
  config.TLS_Enabled t &&
  match createTLSConfig P (config.CertFile t) (config.KeyFile t) (config.CAFile t) with
  | inl _ => true
  | inr _ => false
  end.

Definition unknown_strategy_warning (strategy : string) : Event :=
  Logged (zap.Warnf ("Unknown or empty rebalance strategy '" +:+ strategy
                       +:+ "', using default.")).

Definition is_fatal_entry (e : option Event) : bool :=
  match e with
  | Some (Logged l) => zap.is_level zap.FatalLevel l
  | _ => false
  end.

(** The options that select a balancer. *)
Definition balancers (opts : list Opt) : list Balancer :=
  omap (fun o => match o with Balancers b => Some b | _ => None end) opts.

(** An ASCII-only instance of the platform, with no files on disk. *)
Definition ascii_lower (c : ascii) : ascii :=
  let n := nat_of_ascii c in
  if (65 <=? n)%nat && (n <=? 90)%nat then ascii_of_nat (n + 32) else c.

Definition ascii_upper (c : ascii) : ascii :=
  let n := nat_of_ascii c in
  if (97 <=? n)%nat && (n <=? 122)%nat then ascii_of_nat (n - 32) else c.

Fixpoint map_string (f : ascii -> ascii) (s : string) : string :=
  match s with
  | EmptyString => EmptyString
  | String c s' => String (f c) (map_string f s')
  end.

Definition bare_platform : Platform :=
  mkPlatform (map_string ascii_lower) (map_string ascii_upper)
    (fun _ _ => inl "open: no such file or directory")
    (fun _ => inl "open: no such file or directory").

(** A configuration with which option construction returns. *)
Definition sample_config : config.Config :=
  config.mkConfig "kafka-consumer"
    (config.mkKafka "localhost:29092,localhost:29093" "kafka.topic" "kafka-consumer-group"
       "roundrobin" (config.mkTLS false "" "" "") (config.mkSASL false "SCRAM-SHA-512" "" ""))
    "1323" false "localhost:4317".

(** The parts an option list is made of. *)
Definition base_opts (cfg : config.Config) : list Opt :=
  let k := config.Config_Kafka cfg in
  [ RequiredAcksAllISR;
    SeedBrokers (split_comma EmptyString (config.Brokers k));
    ConsumerGroup (config.GroupID k);
    ConsumeTopics (config.Topic k);
    OnPartitionsAssigned onAssigned;
    OnPartitionsRevoked onRevoked;
    OnPartitionsLost onLost;
    FetchMaxBytes (1024 * 1024 * 5) ].

Definition mechanism_of (P : Platform) (s : config.SASL) : option Mechanism :=
  let m := ToUpper P (config.Mechanism s) in
  if String.eqb m "PLAIN" then
    Some (PlainMechanism (config.Username s) (config.Password s))
  else if String.eqb m "SCRAM-SHA-256" then
    Some (Sha256Mechanism (config.Username s) (config.Password s))
  else if String.eqb m "SCRAM-SHA-512" then
    Some (Sha512Mechanism (config.Username s) (config.Password s))
  else None.

Definition is_hooks (o : Opt) : bool := match o with WithHooks _ => true | _ => false end.
Definition is_tls (o : Opt) : bool := match o with DialTLSConfig _ => true | _ => false end.
Definition is_sasl (o : Opt) : bool := match o with SASL _ => true | _ => false end.

Definition count_opts (f : Opt -> bool) (opts : list Opt) : nat :=
  length (List.filter f opts).

Definition seed_brokers (opts : list Opt) : list (list string) :=
  omap (fun o => match o with SeedBrokers l => Some l | _ => None end) opts.

Fixpoint has_comma (s : string) : bool :=
  match s with
  | EmptyString => false
  | String c s' => Ascii.eqb c ","%char || has_comma s'
  end.

Fixpoint commas (s : string) : nat :=
  match s with
  | EmptyString => 0
  | String c s' => (if Ascii.eqb c ","%char then 1 else 0) + commas s'
  end.

(** The events a computation adds to the trace of the process it runs in. *)
Definition added {A} (m : M A) (p : Process) : list Event :=
  drop (length (trace p)) (trace (fst (m p))).

Definition tls_fatal (err : error) : Event :=
  Logged (zap.Fatalf ("Failed to create TLS config: " +:+ err)).

Definition sasl_fatal (mechanism : string) : Event :=
  Logged (zap.Fatalf ("Unsupported SASL mechanism: " +:+ mechanism)).

Definition partitions_of (ev : RebalanceEvent) : gmap string (list Z) :=
  match ev with Assigned m | Revoked m | Lost m => m end.

(** What [BuildKgoOptions] comes to, read off its three switches. *)
Definition strategy_log (P : Platform) (cfg : config.Config) : list Event :=
  match strategy_balancer P (config.RebalanceStrategy (config.Config_Kafka cfg)) with
  | Some _ => []
  | None => [unknown_strategy_warning (config.RebalanceStrategy (config.Config_Kafka cfg))]
  end.

Definition optional_opts (P : Platform) (cfg : config.Config) (tp : option string)
  : list Opt :=
  let k := config.Config_Kafka cfg in
  (if config.Otel_Enabled cfg then [WithHooks tp] else [])
  ++ match strategy_balancer P (config.RebalanceStrategy k) with
     | Some b => [Balancers b]
     | None => []
     end
  ++ (if config.TLS_Enabled (config.Kafka_TLS k) then
        match createTLSConfig P (config.CertFile (config.Kafka_TLS k))
                (config.KeyFile (config.Kafka_TLS k)) (config.CAFile (config.Kafka_TLS k)) with
        | inr c => [DialTLSConfig c]
        | inl _ => []
        end
      else [])
  ++ (if config.SASL_Enabled (config.Kafka_SASL k) then
        match mechanism_of P (config.Kafka_SASL k) with
        | Some m => [SASL m]
        | None => []
        end
      else []).

Definition closed_form (P : Platform) (cfg : config.Config) (tp : option string)
  (p : Process) : Process * Outcome (list Opt) :=
  let k := config.Config_Kafka cfg in
  let t := config.Kafka_TLS k in
  let dies (e : Event) := (mkProcess (trace p ++ strategy_log P cfg ++ [e]) (checker p), Exit 1%Z) in
  let after_tls :=
    if sasl_fails P (config.Kafka_SASL k)
    then dies (sasl_fatal (config.Mechanism (config.Kafka_SASL k)))
    else (mkProcess (trace p ++ strategy_log P cfg) (checker p),
          Return (base_opts cfg ++ optional_opts P cfg tp)) in
  if config.TLS_Enabled t then
    match createTLSConfig P (config.CertFile t) (config.KeyFile t) (config.CAFile t) with
    | inl err => dies (tls_fatal err)
    | inr _ => after_tls
    end
  else after_tls.

(** A platform on which one key pair and one CA file can be read. *)
Definition disk_platform : Platform :=
  mkPlatform (map_string ascii_lower) (map_string ascii_upper)
    (fun cert key =>
       if String.eqb cert "/etc/ssl/client.pem" && String.eqb key "/etc/ssl/client.key"
       then inr "client-certificate" else inl "open: no such file or directory")
    (fun path =>
       if String.eqb path "/etc/ssl/ca.pem" then inr "ca-pem-bytes"
       else inl "open: no such file or directory").

(** TLS and SASL switched on and in order, the strategy in mixed case. *)
Definition secure_config : config.Config :=
  config.mkConfig "kafka-consumer"
    (config.mkKafka "broker-1:9093, broker-2:9093" "kafka.topic" "kafka-consumer-group"
       "RoundRobin"
       (config.mkTLS true "/etc/ssl/ca.pem" "/etc/ssl/client.pem" "/etc/ssl/client.key")
       (config.mkSASL true "scram-sha-256" "user" "secret"))
    "1323" true "localhost:4317".

(** TLS and SASL both switched on and both broken. *)
Definition broken_config : config.Config :=
  config.mkConfig "kafka-consumer"
    (config.mkKafka "localhost:29092" "kafka.topic" "kafka-consumer-group" ""
       (config.mkTLS true "" "/missing/client.pem" "/missing/client.key")
       (config.mkSASL true "GSSAPI" "user" "secret"))
    "1323" false "localhost:4317".

(** SASL switched on with a mechanism the code does not know, and a
    rebalance strategy it does not know either. *)
Definition gssapi_config : config.Config :=
  config.mkConfig "kafka-consumer"
    (config.mkKafka "localhost:29092" "kafka.topic" "kafka-consumer-group"
       "cooperative-sticky" (config.mkTLS false "" "" "")
       (config.mkSASL true "GSSAPI" "user" "secret"))
    "1323" false "localhost:4317".

Definition fresh_process : Process := mkProcess [] health.NewChecker.

Definition sample_opts : list Opt :=
  match snd (BuildKgoOptions bare_platform sample_config None fresh_process) with
  | Return opts => opts
  | Exit _ => []
  end.

Definition sample_built : Process :=
  fst (BuildKgoOptions bare_platform sample_config None fresh_process).

End kgo.

(* ===================================================================== *)
(** * context and franz-go: the data the consumer handles *)
(* ===================================================================== *)

Module context.

(** A [context.Context], as far as this code reads it: an identity and the
    span it carries, if any. *)
Record Context := mkContext { id : nat; span : option string }.

Definition WithSpan (ctx : Context) (name : string) : Context :=
  mkContext (id ctx) (Some name).

End context.

Module franz.

(** [kgo.Record] of franz-go. *)
Record Record := mkRecord {
  Topic : string;
  Partition : Z;
  Offset : Z;
  Key : string;
  Value : string;
  Headers : list (string * string);
  Context : context.Context
}.

(** [kgo.FetchError] of franz-go. *)
Record FetchError := mkFetchError {
  ErrTopic : string;
  ErrPartition : Z;
  Err : error
}.

End franz.

(* ===================================================================== *)
(** * packages telemetry and processor *)
(* ===================================================================== *)

Module processor.

(** What reaches the telemetry sink. A span is identified by its name; a
    histogram observation is kept as the whole number of microseconds
    [time.Since(startTime).Microseconds()], which the code then divides by
    1000.0 as a float. *)
Inductive Signal :=
| SpanStart (name : string)
| SpanEnd (name : string)
| SpanSetAttributes (name topic : string) (partition : Z)
| CounterAdd (n : Z) (topic : string) (success : bool)
| HistogramRecord (micros : Z) (topic : string) (success : bool).

Section WithInner.

(** The world of the wrapped processor: its own state together with the
    clock, which it advances by running. [now] reads the clock, in
    nanoseconds. *)
Variable E : Type.
Variable now : E -> Z.

(** [type Processor interface { ProcessRecord(ctx, record) error }] *)
Definition Processor := context.Context -> franz.Record -> E -> option error * E.

Record World := mkWorld {
  sink : list Signal;                                   (* telemetry, in order *)
  invocations : list (context.Context * franz.Record);  (* calls of the inner processor *)
  env : E
}.

Definition T (A : Type) : Type := World -> A * World.

Definition tret {A} (a : A) : T A := fun w => (a, w).

Definition tbind {A B} (m : T A) (k : A -> T B) : T B :=
  fun w => let (a, w') := m w in k a w'.

Local Notation "'let!' x ':=' m 'in' k" := (tbind m (fun x => k))
  (at level 10, x name, m at level 100, k at level 200).

Definition signal (s : Signal) : T unit :=
  fun w => (tt, mkWorld (sink w ++ [s]) (invocations w) (env w)).

(** [defer d; body]: [d] runs when [body] has returned, and sees the value
    being returned (the named result [err]). *)
Definition defer {A} (d : A -> T unit) (body : T A) : T A :=
  let! a := body in
  let! _ := d a in
  tret a.

(** [p.tracer.Start(ctx, spanName)] *)
Definition tracer_Start (ctx : context.Context) (spanName : string)
  : T (context.Context * string) :=
  let! _ := signal (SpanStart spanName) in
  tret (context.WithSpan ctx spanName, spanName).

(** [span.End()] *)
Definition span_End (span : string) : T unit := signal (SpanEnd span).

(** [time.Now()] *)
Definition time_Now : T Z := fun w => (now (env w), w).

(** [p.processor.ProcessRecord(ctx, record)] *)
Definition invoke (p : Processor) (ctx : context.Context) (record : franz.Record)
  : T (option error) :=
  fun w =>
    let (err, e') := p ctx record (env w) in
    (err, mkWorld (sink w) (invocations w ++ [(ctx, record)]) e').

Definition is_nil (err : option error) : bool :=
  match err with None => true | Some _ => false end.

(** The largest [time.Duration], in nanoseconds. *)
Definition max_Duration : Z := 9223372036854775807.

(** [telemetry.Instrumentor.InstrumentMessage]. [time.Since(startTime)] is
    taken as the exact difference of the two clock readings; the code's
    [Duration] is the same number whenever the difference lies within
    [-max_Duration - 1, max_Duration], and saturates outside. *)
Definition InstrumentMessage (ctx : context.Context) (record : franz.Record)
  (success : bool) (startTime : Z) : T unit :=
  let! t := time_Now in
  let micros := Z.quot (t - startTime) 1000 in
  let! _ := signal (CounterAdd 1 (franz.Topic record) success) in
  let! _ := signal (HistogramRecord micros (franz.Topic record) success) in
  match context.span ctx with
  | Some span => signal (SpanSetAttributes span (franz.Topic record) (franz.Partition record))
  | None => tret tt
  end.

(** [InstrumentingProcessor.ProcessRecord] *)
Definition ProcessRecord (p : Processor) (ctx : context.Context) (record : franz.Record)
  : T (option error) :=
  let spanName := franz.Topic record +:+ " process" in
  let! started := tracer_Start ctx spanName in
  let ctx := fst started in
  let span := snd started in
  defer (fun _ => span_End span)
    (let! startTime := time_Now in
     defer (fun err => InstrumentMessage ctx record (is_nil err) startTime)
       (invoke p ctx record)).

(** Reading the sink. *)
Definition is_SpanStart (s : Signal) : bool :=
  match s with SpanStart _ => true | _ => false end.
Definition is_SpanEnd (s : Signal) : bool :=
  match s with SpanEnd _ => true | _ => false end.
Definition is_CounterAdd (s : Signal) : bool :=
  match s with CounterAdd _ _ _ => true | _ => false end.
Definition is_HistogramRecord (s : Signal) : bool :=
  match s with HistogramRecord _ _ _ => true | _ => false end.

Definition count (f : Signal -> bool) (l : list Signal) : nat :=
  length (filter (fun s => f s = true) l).

(** The signals added between two worlds. *)
Definition added (w w' : World) : list Signal := drop (length (sink w)) (sink w').

End WithInner.

Arguments mkWorld {E} _ _ _.
Arguments sink {E} _.
Arguments invocations {E} _.
Arguments env {E} _.
Arguments ProcessRecord {E} now p ctx record _.
Arguments added {E} w w'.

End processor.

(* ===================================================================== *)
(** * package telemetry: the header carrier *)
(* ===================================================================== *)

Module telemetry.

(** [type HeaderCarrier []kgo.RecordHeader]: the headers of a record, each a
    key and a value, in the order of the record. *)
Definition HeaderCarrier := list (string * string).

(** [Get]: the value of the first header whose key is [key], exactly. *)
Fixpoint Get (hc : HeaderCarrier) (key : string) : string :=
  match hc with
  | [] => ""
  | h :: rest => if String.eqb (fst h) key then snd h else Get rest key
  end.

(** [Set] has an empty body; the carrier after the call is the carrier
    before it. *)
Definition Set_ (hc : HeaderCarrier) (key value : string) : HeaderCarrier := hc.

(** [Keys]: the loop appends one key per header. *)
Definition Keys (hc : HeaderCarrier) : list string :=
  fold_left (fun keys h => keys ++ [fst h]) hc [].

(** What a propagator does with a carrier: [Inject] writes its fields with
    [Set], [Extract] reads them back with [Get]. *)
Definition inject (fields : list (string * string)) (hc : HeaderCarrier) : HeaderCarrier :=
  fold_left (fun c kv => Set_ c (fst kv) (snd kv)) fields hc.

Definition sample_headers : HeaderCarrier :=
  [("traceparent", "00-aa-bb-01"); ("tenant", "t1"); ("traceparent", "00-cc-dd-00")].

End telemetry.

(* ===================================================================== *)
(** * package consumer: the poll loop *)
(* ===================================================================== *)

Module consumer.

(** The [Fetches] interface: [Errors()] and the records that [EachRecord]
    hands to its callback, in delivery order. *)
Record Fetches := mkFetches {
  Errors : list franz.FetchError;
  Records : list franz.Record
}.

(** [Run] and the goroutines it starts, as a transition system. One
    goroutine executes [Run]; every record of a batch gets a goroutine of
    its own, numbered by its position in the batch. The scheduler, the
    messaging client, the processor and the signal handler are the
    environment: each step of the system is one [Choice] of theirs. *)

(** Where the [Run] goroutine stands. *)
Inductive PC :=
| LoopHead                                  (* line 54, before [ctx.Err()] *)
| Checked                                   (* line 59, before the call *)
| InPoll                                    (* line 59, inside [PollFetches] *)
| InEachRecord (pending : list franz.Record)  (* line 68, records still to hand over *)
| InWait                                    (* line 77, inside [wg.Wait()] *)
| Returned.                                 (* line 56 *)

(** Where a per-record goroutine (lines 70-75) stands. *)
Inductive Stage :=
| Spawned                        (* created, not yet running *)
| InCall                         (* inside [c.processor.ProcessRecord] *)
| Finished (err : option error)  (* the call has returned [err] *)
| Exited.                        (* logged if needed; [wg.Done()] has run *)

Record Task := mkTask { rec : franz.Record; stage : Stage }.

(** What is observed, newest event first. *)
Inductive Event :=
| Cancel                                              (* the context is cancelled *)
| Log (e : zap.Entry)
| PollFetches                                         (* line 59, the call *)
| Fetched (f : Fetches)                               (* line 59, the result *)
| Go (i : nat) (r : franz.Record)                     (* lines 69-70 *)
| ProcessRecord (i : nat) (ctx : context.Context) (r : franz.Record)   (* line 72, the call *)
| ProcessRecordReturned (i : nat) (r : franz.Record) (err : option error)
| Done (i : nat)                                      (* line 71, deferred *)
| WaitReturned.                                       (* line 77 *)

Record State := mkState {
  pc : PC;
  cancelled : bool;        (* [ctx.Err() != nil] *)
  wg : nat;                (* the counter of [var wg sync.WaitGroup] *)
  tasks : list Task;       (* the goroutines of the current batch *)
  history : list Event
}.

Definition init (cancelled : bool) : State := mkState LoopHead cancelled 0 [] [].

(** Log entries of lines 55, 62 and 73. *)
Definition stop_entry : zap.Entry :=
  zap.Info "Context cancelled, stopping consumer poll loop.".

Definition fetch_error_entry (e : franz.FetchError) : zap.Entry :=
  zap.Errorw "Kafka fetch error"
    [ ("topic", zap.FString (franz.ErrTopic e));
      ("partition", zap.FInt (franz.ErrPartition e));
      ("error", zap.FError (franz.Err e)) ].

Definition process_error_entry (r : franz.Record) (err : error) : zap.Entry :=
  zap.Errorw "Failed to process record"
    [ ("error", zap.FError err);
      ("topic", zap.FString (franz.Topic r));
      ("partition", zap.FInt (franz.Partition r));
      ("offset", zap.FInt (franz.Offset r)) ].

Inductive Choice :=
| SignalCancel                                 (* SIGINT or SIGTERM arrives *)
| RunStep                                      (* the [Run] goroutine moves on *)
| PollReturn (f : Fetches)                     (* the client answers the poll *)
| TaskStep (i : nat)                           (* per-record goroutine [i] moves on *)
| ProcessorReturn (i : nat) (err : option error).  (* the processor answers goroutine [i] *)

Definition run_step (s : State) : option State :=
  match pc s with
  | LoopHead =>
      if cancelled s then
        Some (mkState Returned (cancelled s) (wg s) (tasks s) (Log stop_entry :: history s))
      else
        Some (mkState Checked (cancelled s) (wg s) (tasks s) (history s))
  | Checked =>
      Some (mkState InPoll (cancelled s) (wg s) (tasks s) (PollFetches :: history s))
  | InPoll => None
  | InEachRecord [] =>
      Some (mkState InWait (cancelled s) (wg s) (tasks s) (history s))
  | InEachRecord (r :: pending) =>
      Some (mkState (InEachRecord pending) (cancelled s) (S (wg s))
              (tasks s ++ [mkTask r Spawned])
              (Go (length (tasks s)) r :: history s))
  | InWait =>
      match wg s with
      | O => Some (mkState LoopHead (cancelled s) 0 [] (WaitReturned :: history s))
      | S _ => None
      end
  | Returned => None
  end.

Definition poll_return (f : Fetches) (s : State) : option State :=
  match pc s with
  | InPoll =>
      match Errors f with
      | [] =>
          Some (mkState (InEachRecord (Records f)) (cancelled s) 0 []
                  (Fetched f :: history s))
      | _ :: _ =>
          Some (mkState LoopHead (cancelled s) (wg s) (tasks s)
                  (rev (map (fun e => Log (fetch_error_entry e)) (Errors f))
                     ++ Fetched f :: history s))
      end
  | _ => None
  end.

Definition task_step (i : nat) (s : State) : option State :=
  match tasks s !! i with
  | Some (mkTask r Spawned) =>
      Some (mkState (pc s) (cancelled s) (wg s) (<[i := mkTask r InCall]> (tasks s))
              (ProcessRecord i (franz.Context r) r :: history s))
  | Some (mkTask r (Finished err)) =>
      Some (mkState (pc s) (cancelled s) (pred (wg s)) (<[i := mkTask r Exited]> (tasks s))
              (Done i ::
               match err with
               | Some e => [Log (process_error_entry r e)]
               | None => []
               end ++ history s))
  | _ => None
  end.

Definition processor_return (i : nat) (err : option error) (s : State) : option State :=
  match tasks s !! i with
  | Some (mkTask r InCall) =>
      Some (mkState (pc s) (cancelled s) (wg s) (<[i := mkTask r (Finished err)]> (tasks s))
              (ProcessRecordReturned i r err :: history s))
  | _ => None
  end.

Definition step (c : Choice) (s : State) : option State :=
  match c with
  | SignalCancel =>
      if cancelled s then None
      else Some (mkState (pc s) true (wg s) (tasks s) (Cancel :: history s))
  | RunStep => run_step s
  | PollReturn f => poll_return f s
  | TaskStep i => task_step i s
  | ProcessorReturn i err => processor_return i err s
  end.

Fixpoint exec (cs : list Choice) (s : State) : option State :=
  match cs with
  | [] => Some s
  | c :: cs' =>
      match step c s with
      | Some s' => exec cs' s'
      | None => None
      end
  end.

(** Reading a history. *)

(** The events of the current iteration: those after the latest poll call. *)
Fixpoint since_poll (h : list Event) : list Event :=
  match h with
  | [] => []
  | PollFetches :: _ => []
  | e :: h' => e :: since_poll h'
  end.

Definition fetched (h : list Event) : option Fetches :=
  head (omap (fun e => match e with Fetched f => Some f | _ => None end) h).

Definition calls (h : list Event) : list (context.Context * franz.Record) :=
  omap (fun e => match e with ProcessRecord _ ctx r => Some (ctx, r) | _ => None end) h.

Definition returned (h : list Event) : list (franz.Record * option error) :=
  omap (fun e => match e with ProcessRecordReturned _ r err => Some (r, err) | _ => None end) h.

Definition spawned (h : list Event) : list franz.Record :=
  omap (fun e => match e with Go _ r => Some r | _ => None end) h.


(** The call the loop owes a record: the record with its own context. *)
Definition call_of (r : franz.Record) : context.Context * franz.Record :=
  (franz.Context r, r).

(** Every record of the batch [f] has been handed to the processor once,
    and every one of these calls has returned. *)
Definition complete (f : Fetches) (h : list Event) : Prop :=
  calls h ≡ₚ map call_of (Records f) /\
  map fst (returned h) ≡ₚ Records f /\
  length (calls h) = length (Records f).

(** The records of the goroutines whose stage satisfies [q]. *)
Definition select (q : Stage -> bool) (ts : list Task) : list franz.Record :=
  omap (fun t => if q (stage t) then Some (rec t) else None) ts.

Definition started (st : Stage) : bool :=
  match st with Spawned => false | _ => true end.

Definition finished (st : Stage) : bool :=
  match st with Finished _ | Exited => true | _ => false end.

Definition running (st : Stage) : bool :=
  match st with Exited => false | _ => true end.

(** Events that neither start an iteration nor deliver its batch. *)
Definition inert (e : Event) : bool :=
  match e with
  | PollFetches | Fetched _ => false
  | _ => true
  end.








(** [Run] has returned only if the context is cancelled. *)
Definition stopped_by_cancel (s : State) : Prop := pc s = Returned -> cancelled s = true.

(** Events that none of the readers above looks at. *)
Definition neutral (e : Event) : bool :=
  match e with
  | Cancel | Log _ | Done _ | WaitReturned => true
  | _ => false
  end.

Definition quiet (it : list Event) : Prop :=
  calls it = [] /\ returned it = [] /\ spawned it = [].

(** The bookkeeping of a batch in flight: the wait-group counts the
    goroutines that have not exited, and the calls made and returned so far
    are those of the goroutines that have got that far. *)
Definition live (s : State) (it : list Event) : Prop :=
  wg s = length (select running (tasks s)) /\
  calls it ≡ₚ map call_of (select started (tasks s)) /\
  map fst (returned it) ≡ₚ select finished (tasks s) /\
  spawned it ≡ₚ map rec (tasks s).

(** An iteration that is over. *)
Definition settled (it : list Event) : Prop :=
  match fetched it with
  | None => quiet it
  | Some f =>
      match Errors f with
      | [] => complete f it /\ spawned it ≡ₚ Records f
      | _ :: _ => quiet it
      end
  end.

Definition Inv (s : State) : Prop :=
  let it := since_poll (history s) in
  match pc s with
  | InPoll => tasks s = [] /\ fetched it = None /\ quiet it
  | InEachRecord pending =>
      exists f, fetched it = Some f /\ Errors f = [] /\
                Records f = map rec (tasks s) ++ pending /\ live s it
  | InWait =>
      exists f, fetched it = Some f /\ Errors f = [] /\
                Records f = map rec (tasks s) /\ live s it
  | LoopHead | Checked | Returned => tasks s = [] /\ settled it
  end.

(** A small batch, and a batch that carries a partition error. *)
Definition order1 : franz.Record :=
  franz.mkRecord "orders" 0 41 "k1" "v1" [] (context.mkContext 1 None).

Definition order2 : franz.Record :=
  franz.mkRecord "orders" 1 7 "k2" "v2" [] (context.mkContext 2 None).

Definition good_batch : Fetches := mkFetches [] [order1; order2].

Definition bad_batch : Fetches :=
  mkFetches [franz.mkFetchError "orders" 1 "NOT_LEADER_FOR_PARTITION"] [order1].

(** What franz-go's [PollFetches] answers once its context is cancelled: no
    records, and one error that belongs to no partition. *)
Definition cancelled_fetch : Fetches :=
  mkFetches [franz.mkFetchError "" (-1) "context canceled"] [].

(** One complete iteration over [good_batch], the second call failing. *)
Definition good_iteration : list Choice :=
  [ RunStep; RunStep; PollReturn good_batch;
    RunStep; TaskStep 0; RunStep; RunStep;
    TaskStep 1; ProcessorReturn 1 (Some "unmarshal: bad json"); TaskStep 1;
    ProcessorReturn 0 None; TaskStep 0;
    RunStep ].

Definition after_good_iteration : State :=
  default (init false) (exec good_iteration (init false)).









(** No batch is in flight: [Run] is outside lines 68-77. *)
Definition idle (s : State) : bool :=
  match pc s with
  | InEachRecord _ | InWait => false
  | _ => true
  end.

(** A step of [Run], of a goroutine or of their environment other than the
    arrival of the signal. *)
Definition is_move (c : Choice) : bool :=
  match c with SignalCancel => false | _ => true end.

(** The schedule that answers the poll with [f], lets [EachRecord] start
    every goroutine, and then lets the goroutines make their calls in the
    order [order]. *)
Definition dispatch_in_order (f : Fetches) (order : list nat) : list Choice :=
  PollReturn f :: repeat RunStep (S (length (Records f))) ++ map TaskStep order.

(** The call that goroutine [i] of a batch with records [rs] makes. *)
Definition call_event (rs : list franz.Record) (i : nat) : option Event :=
  (fun r => ProcessRecord i (franz.Context r) r) <$> rs !! i.

(** [Run] inside its first poll. *)
Definition first_poll : State := mkState InPoll false 0 [] [PollFetches].

(** Both goroutines of [good_batch] inside the processor. *)
Definition both_in_call : State :=
  default (init false)
    (exec ([RunStep; RunStep] ++ dispatch_in_order good_batch [1; 0]) (init false)).

End consumer.

(* ===================================================================== *)
(** * package otel: provider construction *)
(* ===================================================================== *)

Module otel.

(** The constructors of the OpenTelemetry SDK used here; each may fail. *)
Record Sdk := mkSdk {
  resource_Merge : string -> option error;
  otlptracegrpc_New : string -> option error;
  otlpmetricgrpc_New : string -> option error
}.

(** A provider is identified by the endpoint it exports to. The function
    also registers the providers and the propagator as globals (lines 41,
    50 and 53); these registrations are not observed here. *)
Definition TracerProvider := string.
Definition MeterProvider := string.

Definition InitOtelProviders (sdk : Sdk) (cfg : config.Config)
  : M (option TracerProvider * option MeterProvider * option error) :=
  if negb (config.Otel_Enabled cfg) then
    do emit (zap.Info "OpenTelemetry is disabled.")
    then ret (None, None, None)
  else
    do emit (zap.Info "OpenTelemetry is enabled. Initializing providers...") then
    match resource_Merge sdk (config.AppName cfg) with
    | Some err => ret (None, None, Some ("failed to create resource: " +:+ err))
    | None =>
      match otlptracegrpc_New sdk (config.Otel_Endpoint cfg) with
      | Some err => ret (None, None, Some ("failed to create OTLP trace exporter: " +:+ err))
      | None =>
        do emit (zap.Info "OpenTelemetry tracer provider initialized.") then
        match otlpmetricgrpc_New sdk (config.Otel_Endpoint cfg) with
        | Some err => ret (None, None, Some ("failed to create OTLP metric exporter: " +:+ err))
        | None =>
          do emit (zap.Info "OpenTelemetry meter provider initialized.") then
          ret (Some (config.Otel_Endpoint cfg), Some (config.Otel_Endpoint cfg), None)
        end
      end
    end.

End otel.

(* ===================================================================== *)
(** * package ktel: the application, [New] and [Start] *)
(* ===================================================================== *)

Module ktel.

(** Everything outside the repository that [New] and [Start] call, with the
    result each call gives in the run under study. *)
Record World := mkWorld {
  platform : kgo.Platform;
  sdk : otel.Sdk;
  config_New : error + config.Config;
  logger_New : string -> option error;
  kgo_NewClient : list kgo.Opt -> option error;
  telemetry_NewInstrumentor : option error;
  server_Shutdown : option error;
  tracerProvider_Shutdown : option error;
  meterProvider_Shutdown : option error
}.

Record app := mkApp {
  cfg : config.Config;
  KafkaClient : list kgo.Opt;
  tracerProvider : option otel.TracerProvider;
  meterProvider : option otel.MeterProvider
}.

Definition New (W : World) : M (error + app) :=
  match config_New W with
  | inl err => ret (inl ("failed to load configuration: " +:+ err))
  | inr cfg =>
    match logger_New W (config.AppName cfg) with
    | Some err => ret (inl ("failed to initialize logger: " +:+ err))
    | None =>
      let* r := otel.InitOtelProviders (sdk W) cfg in
      match r with
      | (_, _, Some err) =>
          ret (inl ("failed to initialize OpenTelemetry providers: " +:+ err))
      | (tp, mp, None) =>
        do with_new_checker then
        let* kgoOptions := kgo.BuildKgoOptions (platform W) cfg tp in
        match kgo_NewClient W kgoOptions with
        | Some err => ret (inl ("failed to create Kafka client: " +:+ err))
        | None => ret (inr (mkApp cfg kgoOptions tp mp))
        end
      end
    end
  end.

Definition startHealthCheckServer (a : app) : M unit :=
  perform (GoHealthServer (":" +:+ config.Server_Port (cfg a))).

(** A call that may panic: [inl v] is the panic value on its way up the
    stack, [inr x] the value returned. *)
Definition Panics (A : Type) : Type := string + A.

(** The panic of a method call that reads a field through a nil receiver. *)
Definition nil_dereference : string :=
  "runtime error: invalid memory address or nil pointer dereference".

(** A panic that nothing recovers: once the deferred calls have run, the
    runtime ends the process with status 2. *)
Definition crash {A} (v : string) : M A := fun p => (p, Exit 2).

(** The adapter, the instrumenting processor and the consumer are built
    here; none of that is an event of the main goroutine. Line 189 calls
    [a.tracerProvider.Tracer(a.cfg.AppName)]: with a nil provider the
    method reads a field through the nil receiver and panics. *)
Definition startConsumer (W : World) (a : app) : M (Panics (option error)) :=
  match telemetry_NewInstrumentor W with
  | Some err => ret (inr (Some ("failed to create telemetry instrumentor: " +:+ err)))
  | None =>
    match tracerProvider a with
    | None => ret (inl nil_dereference)
    | Some _ =>
      do emit (zap.Debug "Kafka consumer started...") then
      do perform GoConsumerRun then
      ret (inr None)
    end
  end.

Definition shutdownHTTPServer (W : World) : M unit :=
  do perform ServerShutdown then
  match server_Shutdown W with
  | Some err => emit (zap.Warnw "HTTP server shutdown error" [("error", zap.FError err)])
  | None => emit (zap.Debug "HTTP server shutdown complete.")
  end.

Definition shutdown_provider (p : option string) (ev : Event) (result : option error)
  (what : string) : M unit :=
  match p with
  | None => ret tt
  | Some _ =>
    do perform ev then
    match result with
    | Some err => emit (zap.Errorf ("Error shutting down " +:+ what +:+ ": " +:+ err))
    | None => ret tt
    end
  end.

Definition shutdownOtelProviders (W : World) (a : app) : M unit :=
  do shutdown_provider (tracerProvider a) TracerProviderShutdown
       (tracerProvider_Shutdown W) "tracer provider" then
  shutdown_provider (meterProvider a) MeterProviderShutdown
    (meterProvider_Shutdown W) "meter provider".

(** [for _, fn := range cleanupFns { fn() }], the functions numbered from [i]. *)
Fixpoint run_cleanups (i n : nat) : M unit :=
  match n with
  | O => ret tt
  | S n' => do perform (CleanupFn i) then run_cleanups (S i) n'
  end.

(** [Start(proc, cleanupFns...)], for the run in which the termination
    signal arrives; [cleanupFns] is the number of cleanup functions. The
    deferred [stop()] runs on every way out, a panic included. *)
Definition Start (W : World) (a : app) (cleanupFns : nat) : M (option error) :=
  do perform NotifyContext then
  do startHealthCheckServer a then
  let* err := startConsumer W a in
  match err with
  | inl v => do perform StopNotify then crash v
  | inr (Some e) => do perform StopNotify then ret (Some e)
  | inr None =>
    do perform ContextDone then
    do emit (zap.Info "Termination signal received, initiating graceful shutdown...") then
    do shutdownHTTPServer W then
    do shutdownOtelProviders W a then
    do perform KafkaClientClose then
    do run_cleanups 0 cleanupFns then
    do emit (zap.Info "Cleanup tasks completed.") then
    do perform WaitGroupWait then
    do emit (zap.Debug "All services shut down gracefully.") then
    do perform StopNotify then
    ret None
  end.

(** [run] of the example program: [New], then [Start]. *)
Definition run (W : World) : M (option error) :=
  let* r := New W in
  match r with
  | inl err => ret (Some ("failed to create application: " +:+ err))
  | inr a => Start W a 0
  end.

(** Reading a trace. *)
Definition is_close (e : Event) : bool :=
  match e with KafkaClientClose => true | _ => false end.

Definition is_join (e : Event) : bool :=
  match e with WaitGroupWait => true | _ => false end.

Definition is_goroutine_start (e : Event) : bool :=
  match e with GoHealthServer _ | GoConsumerRun => true | _ => false end.

Definition is_consumer_start (e : Event) : bool :=
  match e with GoConsumerRun => true | _ => false end.

Fixpoint position (f : Event -> bool) (t : list Event) : option nat :=
  match t with
  | [] => None
  | e :: t' => if f e then Some O else option_map S (position f t')
  end.

(** Both kinds of event occur, and the first [f] comes before the first [g]. *)
Definition precedes (f g : Event -> bool) (t : list Event) : bool :=
  match position f t, position g t with
  | Some i, Some j => (i <? j)%nat
  | _, _ => false
  end.

Definition occurrences (f : Event -> bool) (t : list Event) : nat :=
  length (filter (fun e => f e = true) t).

(** Neither a close nor a join. *)
Definition other (e : Event) : Prop := is_close e = false /\ is_join e = false.

(** The events a computation adds to the trace of the process it runs in. *)
Definition events_of {A} (m : M A) (p : Process) : list Event :=
  drop (length (trace p)) (trace (fst (m p))).

(** [m] returns [a] after adding exactly [evs] to the trace, leaving the
    checker alone. *)
Definition emits {A} (m : M A) (evs : list Event) (a : A) : Prop :=
  forall p, m p = (mkProcess (trace p ++ evs) (checker p), Return a).

(** The shutdown path of [Start], cut at the two events of interest. *)
Definition shutdownHTTP_events (W : World) : list Event :=
  [ ServerShutdown;
    Logged (match server_Shutdown W with
            | Some err => zap.Warnw "HTTP server shutdown error" [("error", zap.FError err)]
            | None => zap.Debug "HTTP server shutdown complete."
            end) ].

Definition provider_events (p : option string) (ev : Event) (result : option error)
  (what : string) : list Event :=
  match p with
  | None => []
  | Some _ =>
      ev :: match result with
            | Some err => [Logged (zap.Errorf ("Error shutting down " +:+ what +:+ ": " +:+ err))]
            | None => []
            end
  end.

Definition before_close (W : World) (a : app) : list Event :=
  [ NotifyContext;
    GoHealthServer (":" +:+ config.Server_Port (cfg a));
    Logged (zap.Debug "Kafka consumer started...");
    GoConsumerRun;
    ContextDone;
    Logged (zap.Info "Termination signal received, initiating graceful shutdown...") ]
  ++ shutdownHTTP_events W
  ++ provider_events (tracerProvider a) TracerProviderShutdown
       (tracerProvider_Shutdown W) "tracer provider"
  ++ provider_events (meterProvider a) MeterProviderShutdown
       (meterProvider_Shutdown W) "meter provider".

Definition between_close_and_join (cleanupFns : nat) : list Event :=
  map CleanupFn (seq 0 cleanupFns) ++ [Logged (zap.Info "Cleanup tasks completed.")].

Definition after_join : list Event :=
  [Logged (zap.Debug "All services shut down gracefully."); StopNotify].

(** A world in which every external call succeeds. *)
Definition calm_world (c : error + config.Config) : World :=
  mkWorld kgo.bare_platform
    (otel.mkSdk (fun _ => None) (fun _ => None) (fun _ => None))
    c (fun _ => None) (fun _ => None) None None None None.

Definition sample_app : app :=
  mkApp kgo.sample_config kgo.sample_opts (Some "localhost:4317") (Some "localhost:4317").

(** The sample configuration with telemetry switched on, a world in which
    every external call succeeds, and the application [New] builds there. *)
Definition traced_config : config.Config :=
  config.mkConfig "kafka-consumer" (config.Config_Kafka kgo.sample_config)
    "1323" true "localhost:4317".

Definition traced_world : World := calm_world (inr traced_config).

Definition traced_app : app :=
  match snd (New traced_world kgo.fresh_process) with
  | Return (inr a) => a
  | _ => sample_app
  end.

Definition traced_process : Process := fst (New traced_world kgo.fresh_process).

(** More ways of reading a trace. *)
Definition is_logged (e : Event) : bool :=
  match e with Logged _ => true | _ => false end.



Definition is_shutdown (e : Event) : bool :=
  match e with
  | ServerShutdown | TracerProviderShutdown | MeterProviderShutdown
  | KafkaClientClose | CleanupFn _ | WaitGroupWait => true
  | _ => false
  end.


Definition no_instrumentor_world : World :=
  mkWorld kgo.bare_platform
    (otel.mkSdk (fun _ => None) (fun _ => None) (fun _ => None))
    (inr kgo.sample_config) (fun _ => None) (fun _ => None)
    (Some "duplicate instrument") None None None.

End ktel.

(* ===================================================================== *)
(** * package main: the example processor *)
(* ===================================================================== *)

Module example.

Record ResultMessage := mkResultMessage {
  TransactionRef : string;
  Code : string
}.

(** [ResultMessage{}] *)
Definition zero : ResultMessage := mkResultMessage "" "".

(** [codes.Code] of OpenTelemetry. *)
Inductive StatusCode := Unset | Error | Ok.

(** The calls the processor makes on the span of its context. *)
Inductive SpanCall :=
| RecordError (err : error)
| SetStatus (code : StatusCode) (description : string)
| SetAttributes (attrs : list (string * string)).

(** What the processor calls outside the repository. [json_Unmarshal] is
    given the bytes and the struct to fill, as it stands, and answers with
    the struct as it leaves it; [ProduceSync] is given the context, the
    topic and the value of the record, and answers with [FirstErr()]. *)
Record World := mkWorld {
  json_Unmarshal : string -> ResultMessage -> option error * ResultMessage;
  ProduceSync : context.Context -> string -> string -> option error
}.

Record State := mkState {
  trxPool : list ResultMessage;                 (* the structs held by the [sync.Pool] *)
  spans : list (string * SpanCall);             (* calls on spans, by span name *)
  logs : list zap.Entry;
  produced : list (context.Context * string * string)  (* [ProduceSync] calls *)
}.

(** [p.trxPool.Get()]: the pool hands out one of its structs, [pick] says
    which, or ignores what it holds and calls [New]. *)
Definition pool_Get (pick : option nat) (pool : list ResultMessage)
  : ResultMessage * list ResultMessage :=
  match pick with
  | Some i =>
      match pool !! i with
      | Some m => (m, delete i pool)
      | None => (zero, pool)
      end
  | None => (zero, pool)
  end.

(** [p.trxPool.Put(msg)] *)
Definition pool_Put (m : ResultMessage) (pool : list ResultMessage) : list ResultMessage :=
  pool ++ [m].

(** A call on [trace.SpanFromContext(ctx)]: lost when the context carries
    no span. *)
Definition span_call (ctx : context.Context) (c : SpanCall)
  (sp : list (string * SpanCall)) : list (string * SpanCall) :=
  match context.span ctx with
  | Some name => sp ++ [(name, c)]
  | None => sp
  end.

Definition unmarshalMessage (W : World) (record : franz.Record) (msg : ResultMessage)
  (lg : list zap.Entry) : option error * ResultMessage * list zap.Entry :=
  match json_Unmarshal W (franz.Value record) msg with
  | (Some err, msg') =>
      (Some err, msg',
       lg ++ [zap.Errorw "Failed to unmarshal message"
                [("error", zap.FError err); ("message", zap.FString (franz.Value record))]])
  | (None, msg') => (None, msg', lg)
  end.

Definition logMessage (msg : ResultMessage) (lg : list zap.Entry) : list zap.Entry :=
  lg ++ [zap.Debugw "Consumed message successfully"
           [("transactionRef", zap.FString (TransactionRef msg));
            ("status", zap.FString (Code msg))]].

(** [ExampleProcessor.ProcessRecord]. The deferred function resets the
    struct and puts it back on every path. *)
Definition ProcessRecord (W : World) (pick : option nat) (ctx : context.Context)
  (record : franz.Record) (st : State) : option error * State :=
  let (msg, pool) := pool_Get pick (trxPool st) in
  let deferred (msg : ResultMessage) := let msg := zero in pool_Put msg pool in
  match unmarshalMessage W record msg (logs st) with
  | (Some err, msg, lg) =>
      let sp := span_call ctx (RecordError err) (spans st) in
      let sp := span_call ctx (SetStatus Error "failed to unmarshal message") sp in
      (Some err, mkState (deferred msg) sp lg (produced st))
  | (None, msg, lg) =>
      let sp := span_call ctx
                  (SetAttributes [("transaction.ref", TransactionRef msg);
                                  ("ddp.result.code", Code msg)]) (spans st) in
      let lg := logMessage msg lg in
      let pr := produced st ++ [(ctx, "result.topic", "value")] in
      match ProduceSync W ctx "result.topic" "value" with
      | Some err => (Some err, mkState (deferred msg) sp lg pr)
      | None =>
          let sp := span_call ctx (SetStatus Ok "message processed successfully") sp in
          (None, mkState (deferred msg) sp lg pr)
      end
  end.

(** The calls [calls] as they reach the span of [ctx], if it has one. *)
Definition on_span (ctx : context.Context) (calls : list SpanCall)
  : list (string * SpanCall) :=
  match context.span ctx with
  | Some name => map (pair name) calls
  | None => []
  end.

(** Every struct in the pool is zeroed. *)
Definition clean (st : State) : Prop := Forall (fun m => m = zero) (trxPool st).

(** The span calls, log entries and produce calls added between two
    states. *)
Definition new_spans (st st' : State) : list (string * SpanCall) :=
  drop (length (spans st)) (spans st').

Definition new_logs (st st' : State) : list zap.Entry :=
  drop (length (logs st)) (logs st').

Definition new_produced (st st' : State) : list (context.Context * string * string) :=
  drop (length (produced st)) (produced st').

(** The processor as the consumer's decorator sees it: its state together
    with a clock that the call advances by [elapsed] nanoseconds. *)
Definition timed (elapsed : Z)
  (P : context.Context -> franz.Record -> State -> option error * State)
  : processor.Processor (State * Z) :=
  fun ctx record e =>
    let (err, st) := P ctx record (fst e) in (err, (st, (snd e + elapsed)%Z)).

(** A decoder that keeps the fields the bytes do not mention: "ref=" sets
    the reference only, anything else is rejected. *)
Definition sample_world : World :=
  mkWorld
    (fun bytes msg =>
       if String.prefix "ref=" bytes
       then (None, mkResultMessage (String.substring 4 (String.length bytes - 4) bytes) (Code msg))
       else (Some "invalid character", msg))
    (fun _ _ _ => None).

Definition sample_state : State := mkState [zero; zero] [] [] [].

Definition sample_record : franz.Record :=
  franz.mkRecord "orders" 0 41 "k1" "ref=T-1" [] (context.mkContext 1 None).

End example.

(* ===================================================================== *)
(** * package config: loading and validating *)
(* ===================================================================== *)

Module configload.

(** What [v.ReadInConfig()] can answer. *)
Inductive ReadResult :=
| ReadOk
| ConfigFileNotFoundError (msg : error)
| ReadFailed (msg : error).

Definition file_loaded (r : ReadResult) : bool :=
  match r with ReadOk => true | _ => false end.

(** The configuration sources: the outcome of reading the file; what
    [v.Unmarshal(&cfg)] makes of the defaults, the environment and, when
    one was read, the file; and the text the validator gives for a struct
    it rejects. *)
Record Sources := mkSources {
  ReadInConfig : ReadResult;
  Unmarshal : bool -> error + config.Config;
  validation_error : config.Config -> error
}.

(** [validate:"required"] on a string field. *)
Definition required (s : string) : bool := negb (String.eqb s "").

(** [validate.Struct(&cfg)]: the five fields tagged [required]. *)
Definition validate_Struct (v : Sources) (cfg : config.Config) : option error :=
  if required (config.AppName cfg)
     && required (config.Brokers (config.Config_Kafka cfg))
     && required (config.Topic (config.Config_Kafka cfg))
     && required (config.GroupID (config.Config_Kafka cfg))
     && required (config.Server_Port cfg)
  then None
  else Some (validation_error v cfg).

(** [config.New] *)
Definition New (v : Sources) : error + config.Config :=
  match ReadInConfig v with
  | ReadFailed err => inl ("failed to read config file: " +:+ err)
  | (ReadOk | ConfigFileNotFoundError _) as r =>
    match Unmarshal v (file_loaded r) with
    | inl err => inl ("failed to unmarshal config: " +:+ err)
    | inr cfg =>
      match validate_Struct v cfg with
      | Some err => inl ("invalid configuration: " +:+ err)
      | None => inr cfg
      end
    end
  end.

(** A configuration file that sets application name, brokers, topic, group
    and port; without the file brokers and topic stay empty. *)
Definition from_file : Sources :=
  mkSources ReadOk
    (fun loaded =>
       inr (config.mkConfig "kafka-consumer"
              (config.mkKafka (if loaded then "localhost:9092" else "")
                 (if loaded then "orders" else "") "kafka-consumer-group" "sticky"
                 (config.mkTLS false "" "" "") (config.mkSASL false "" "" ""))
              "8080" false ""))
    (fun _ => "validation failed").

End configload.

(* ##################################################################### *)
(** * Properties *)
(* ##################################################################### *)

(* ===================================================================== *)
(** ** The readiness tracker and its probes *)
(* ===================================================================== *)

Section HealthFacts.

Import health.

Lemma first_failing_Some visit name err :
  first_failing visit = Some (name, err) ->
  exists check, (name, check) ∈ visit /\ check tt = Some err.
Proof.
  induction visit as [|[n ch] rest IH]; simpl; [discriminate|].
  destruct (ch tt) as [e|] eqn:Hch.
  - intros [= <- <-]. exists ch. split; [left | exact Hch].
  - intros H. destruct (IH H) as (check & Hin & Herr).
    exists check. split; [right; exact Hin | exact Herr].
Qed.

Lemma first_failing_None visit :
  first_failing visit = None ->
  forall name check, (name, check) ∈ visit -> check tt = None.
Proof.
  induction visit as [|[n ch] rest IH]; simpl; intros H name check Hin.
  - inversion Hin.
  - destruct (ch tt) eqn:Hch; [discriminate|].
    apply elem_of_cons in Hin as [[= -> ->] | Hin]; [exact Hch | eauto].
Qed.

Lemma status_Error msg code : http.status (http.Error msg code http.NewRecorder) = Some code.
Proof. reflexivity. Qed.

Lemma body_Error msg code : http.body (http.Error msg code http.NewRecorder) = msg +:+ LF.
Proof. reflexivity. Qed.

Lemma ready_calls_no_SetReady_true ops c :
  forallb (fun op => negb (is_SetReady_true op)) ops = true ->
  ready c = false ->
  ready (calls ops c) = false.
Proof.
  revert c. induction ops as [|op ops IH]; intros c Hops Hc; [exact Hc|].
  simpl in Hops. apply andb_true_iff in Hops as [Hop Hops].
  apply (IH (call c op) Hops).
  destruct op as [name check|[|]]; simpl in *; [exact Hc|discriminate|reflexivity].
Qed.

(** C6. The readiness probe answers 503 exactly when the readiness flag is
    false or some registered check returns an error, whatever order [range]
    visits the checks in; the body then states that no partitions are
    assigned (flag false) or names a failing check. Otherwise it answers 200
    with body "ok". The liveness probe answers 200 "ok" for every checker
    and request. *)
Theorem readiness_probe_503_iff (c : Checker) (visit : list (string * Check))
  (r : http.Request) :
  range_order c visit ->
  let w := ReadinessProbe visit c r http.NewRecorder in
  (http.status w = Some 503%Z <->
     ready c = false \/
     exists name check, readinessChecks c !! name = Some check /\ check tt <> None)
  /\ (ready c = false ->
        http.body w = "consumer not ready (no partitions assigned)" +:+ LF)
  /\ (ready c = true -> http.status w = Some 503%Z ->
        exists name check err,
          readinessChecks c !! name = Some check /\ check tt = Some err /\
          http.body w = (name +:+ " is not ready: " +:+ err) +:+ LF)
  /\ (http.status w <> Some 503%Z ->
        http.status w = Some 200%Z /\ http.body w = "ok")
  /\ (forall c' r',
        http.status (LivenessProbe c' r' http.NewRecorder) = Some 200%Z /\
        http.body (LivenessProbe c' r' http.NewRecorder) = "ok").
Proof.
  intros Hord w. subst w. unfold range_order in Hord.
  assert (Hlive : forall c' r',
            http.status (LivenessProbe c' r' http.NewRecorder) = Some 200%Z /\
            http.body (LivenessProbe c' r' http.NewRecorder) = "ok").
  { intros c' r'. split; reflexivity. }
  unfold ReadinessProbe.
  destruct (ready c) eqn:Hready; cbn [negb].
  - destruct (first_failing visit) as [[name err]|] eqn:Hff.
    + destruct (first_failing_Some _ _ _ Hff) as (check & Hin & Herr).
      assert (Hlk : readinessChecks c !! name = Some check).
      { apply elem_of_map_to_list. rewrite <- Hord. exact Hin. }
      rewrite status_Error, body_Error.
      split; [|split; [|split; [|split]]].
      * split; [|reflexivity]. intros _. right. exists name, check.
        split; [exact Hlk | congruence].
      * discriminate.
      * intros _ _. exists name, check, err. auto.
      * intros Hne. exfalso. apply Hne. reflexivity.
      * exact Hlive.
    + pose proof (first_failing_None _ Hff) as Hnone.
      split; [|split; [|split; [|split]]].
      * split; [discriminate|].
        intros [Hf | (name & check & Hlk & Hne)]; [discriminate|].
        exfalso. apply Hne. apply (Hnone name).
        rewrite Hord. apply elem_of_map_to_list. exact Hlk.
      * discriminate.
      * intros _ H. discriminate H.
      * intros _. split; reflexivity.
      * exact Hlive.
  - rewrite status_Error, body_Error.
    split; [|split; [|split; [|split]]].
    + split; [intros _; left; reflexivity | reflexivity].
    + reflexivity.
    + discriminate.
    + intros Hne. exfalso. apply Hne. reflexivity.
    + exact Hlive.
Qed.

(** A checker with one failing check, probed while ready. *)
Lemma readiness_probe_503_iff_witness :
  let c := AddReadinessCheck "db" (fun _ => Some "down") (SetReady true NewChecker) in
  let w := ReadinessProbe (map_to_list (readinessChecks c)) c
             (http.mkRequest "GET" "/ready") http.NewRecorder in
  http.status w = Some 503%Z /\
  (ready c = false \/
   exists name check, readinessChecks c !! name = Some check /\ check tt <> None).
Proof.
  intros c w.
  pose proof (readiness_probe_503_iff c (map_to_list (readinessChecks c))
                (http.mkRequest "GET" "/ready")) as H.
  assert (Hord : range_order c (map_to_list (readinessChecks c))) by (unfold range_order; reflexivity).
  destruct (H Hord) as (Hiff & _).
  assert (Hs : http.status w = Some 503%Z) by (vm_compute; reflexivity).
  split; [exact Hs | apply Hiff; exact Hs].
Defined.

(** C9. A checker made by [NewChecker] is not ready, and stays so under any
    history of calls that contains no [SetReady(true)]: [IsReady] is false
    and the readiness probe answers 503, stating that no partitions are
    assigned, for every request and visiting order. *)
Theorem new_checker_not_ready (ops : list Call) (visit : list (string * Check))
  (r : http.Request) :
  forallb (fun op => negb (is_SetReady_true op)) ops = true ->
  let c := calls ops NewChecker in
  IsReady NewChecker = false /\
  IsReady c = false /\
  http.status (ReadinessProbe visit c r http.NewRecorder) = Some 503%Z /\
  http.body (ReadinessProbe visit c r http.NewRecorder) =
    "consumer not ready (no partitions assigned)" +:+ LF.
Proof.
  intros Hops c.
  assert (Hc : ready c = false).
  { apply ready_calls_no_SetReady_true; [exact Hops | reflexivity]. }
  unfold IsReady, ReadinessProbe. rewrite Hc. cbn [negb].
  rewrite status_Error, body_Error. auto.
Qed.

Lemma new_checker_not_ready_witness :
  let ops := [CallAddReadinessCheck "db" (fun _ => None); CallSetReady false] in
  IsReady (calls ops NewChecker) = false.
Proof.
  intros ops.
  refine (proj1 (proj2 (new_checker_not_ready ops []
                          (http.mkRequest "GET" "/ready") _))).
  reflexivity.
Defined.

End HealthFacts.

(* ===================================================================== *)
(** ** Client options and the rebalance callbacks *)
(* ===================================================================== *)

Section KgoFacts.

Import kgo.

Variable P : Platform.

Lemma extends_passively_refl opts : extends_passively opts opts.
Proof. exists []. split; [symmetry; apply app_nil_r | constructor]. Qed.

Lemma extends_passively_snoc opts o : passive o -> extends_passively opts (opts ++ [o]).
Proof. intros Ho. exists [o]. split; [reflexivity | repeat constructor; exact Ho]. Qed.

Lemma extends_passively_trans a b c :
  extends_passively a b -> extends_passively b c -> extends_passively a c.
Proof.
  intros (x & -> & Hx) (y & -> & Hy). exists (x ++ y).
  split; [symmetry; apply app_assoc | apply Forall_app; split; assumption].
Qed.

Lemma rebalance_step_passive strategy opts p p' opts' :
  rebalance_step P strategy opts p = (p', Return opts') ->
  extends_passively opts opts'.
Proof.
  unfold rebalance_step.
  repeat match goal with
         | |- context [if ?b then _ else _] => destruct b
         end; intros [= _ <-];
    first [apply extends_passively_snoc; exact I | apply extends_passively_refl].
Qed.

Lemma tls_step_passive t opts p p' opts' :
  tls_step P t opts p = (p', Return opts') ->
  extends_passively opts opts'.
Proof.
  unfold tls_step. destruct (config.TLS_Enabled t).
  - destruct (createTLSConfig _ _ _ _); [discriminate|].
    intros [= _ <-]. apply extends_passively_snoc; exact I.
  - intros [= _ <-]. apply extends_passively_refl.
Qed.

Lemma sasl_step_passive s opts p p' opts' :
  sasl_step P s opts p = (p', Return opts') ->
  extends_passively opts opts'.
Proof.
  unfold sasl_step.
  repeat match goal with
         | |- context [if ?b then _ else _] => destruct b
         end; try discriminate; intros [= _ <-];
    first [apply extends_passively_snoc; exact I | apply extends_passively_refl].
Qed.

Lemma fire_passive ev o p : passive o -> fire ev o p = p.
Proof. destruct ev, o; simpl; intros H; try reflexivity; destruct H. Qed.

Lemma deliver_passive ev extra p : Forall passive extra -> deliver extra p ev = p.
Proof.
  unfold deliver. intros H. revert p.
  induction H as [|o extra Ho _ IH]; intros p; simpl; [reflexivity|].
  rewrite fire_passive by exact Ho. apply IH.
Qed.

Lemma deliver_built cfg tp p0 p1 opts :
  BuildKgoOptions P cfg tp p0 = (p1, Return opts) ->
  forall ev p, deliver opts p ev = on_event ev p.
Proof.
  unfold BuildKgoOptions, bind.
  set (base := [RequiredAcksAllISR; _; _; _; _; _; _; _]).
  set (opts0 := if config.Otel_Enabled cfg then base ++ [WithHooks tp] else base).
  assert (H0 : extends_passively base opts0).
  { subst opts0. destruct (config.Otel_Enabled cfg);
      [apply extends_passively_snoc; exact I | apply extends_passively_refl]. }
  destruct (rebalance_step P _ opts0 p0) as [q1 [c1|o1]] eqn:E1; [discriminate|].
  destruct (tls_step P _ o1 q1) as [q2 [c2|o2]] eqn:E2; [discriminate|].
  destruct (sasl_step P _ o2 q2) as [q3 [c3|o3]] eqn:E3; [discriminate|].
  intros [= _ <-] ev p.
  apply rebalance_step_passive in E1. apply tls_step_passive in E2.
  apply sasl_step_passive in E3.
  destruct (extends_passively_trans _ _ _ H0
              (extends_passively_trans _ _ _ E1
                 (extends_passively_trans _ _ _ E2 E3))) as (extra & -> & Hextra).
  unfold deliver. rewrite fold_left_app.
  change (fold_left (fun p o => fire ev o p) extra ?q) with (deliver extra q ev).
  rewrite deliver_passive by exact Hextra.
  subst base. destruct ev; reflexivity.
Qed.

Lemma ready_on_event ev p :
  health.IsReady (checker (on_event ev p)) =
  match ev with Assigned _ => true | Revoked _ | Lost _ => false end.
Proof. destruct ev; reflexivity. Qed.

Lemma deliver_all_snoc opts evs ev p :
  deliver_all opts (evs ++ [ev]) p = deliver opts (deliver_all opts evs p) ev.
Proof. unfold deliver_all. rewrite fold_left_app. reflexivity. Qed.

(** C2. With the options that [BuildKgoOptions] returns, the readiness flag
    after any sequence of rebalance events is decided by the last event
    alone: true after a non-empty assignment, false after a revocation,
    false after a loss, whatever came before and whatever the state was. *)
Theorem readiness_follows_last_event cfg tp p0 p1 opts
  (evs : list RebalanceEvent) (ev : RebalanceEvent) (p : Process) :
  BuildKgoOptions P cfg tp p0 = (p1, Return opts) ->
  let after := health.IsReady (checker (deliver_all opts (evs ++ [ev]) p)) in
  match ev with
  | Assigned m => m <> ∅ -> after = true
  | Revoked _ => after = false
  | Lost _ => after = false
  end.
Proof.
  intros Hbuild after. subst after.
  rewrite deliver_all_snoc, (deliver_built _ _ _ _ _ Hbuild), ready_on_event.
  destruct ev; auto.
Qed.

(** C10. The assignment callback sets the flag without looking at the
    assigned partitions: after any assignment event the checker is ready,
    the event with an empty partition map included. *)
Theorem assigned_sets_ready_unconditionally cfg tp p0 p1 opts
  (assigned : gmap string (list Z)) (p : Process) :
  BuildKgoOptions P cfg tp p0 = (p1, Return opts) ->
  health.IsReady (checker (deliver opts p (Assigned assigned))) = true /\
  health.IsReady (checker (deliver opts p (Assigned ∅))) = true /\
  health.IsReady (checker (onAssigned assigned p)) = true.
Proof.
  intros Hbuild.
  rewrite !(deliver_built _ _ _ _ _ Hbuild), !ready_on_event. auto.
Qed.

End KgoFacts.

(** Assign ["t" -> [0;1]], then revoke ["t" -> [0]]: not ready. *)
Lemma readiness_follows_last_event_witness :
  health.IsReady (checker (kgo.deliver_all kgo.sample_opts
     ([kgo.Assigned {["t" := [0; 1]%Z]}] ++ [kgo.Revoked {["t" := [0%Z]]}])
     kgo.fresh_process)) = false.
Proof.
  exact (readiness_follows_last_event kgo.bare_platform kgo.sample_config None
           kgo.fresh_process kgo.sample_built kgo.sample_opts
           [kgo.Assigned {["t" := [0; 1]%Z]}]
           (kgo.Revoked {["t" := [0%Z]]}) kgo.fresh_process eq_refl).
Defined.

(** An assignment of no partitions at all on a fresh process: ready. *)
Lemma assigned_sets_ready_unconditionally_witness :
  health.IsReady (checker (kgo.deliver kgo.sample_opts kgo.fresh_process (kgo.Assigned ∅)))
    = true.
Proof.
  exact (proj1 (assigned_sets_ready_unconditionally kgo.bare_platform kgo.sample_config
                  None kgo.fresh_process kgo.sample_built kgo.sample_opts ∅
                  kgo.fresh_process eq_refl)).
Defined.

(* ===================================================================== *)
(** ** The shutdown sequence of [Start] *)
(* ===================================================================== *)

Section StartFacts.

Import ktel.

Lemma emits_ret {A} (a : A) : emits (ret a) [] a.
Proof. intros [t c]. unfold ret. simpl. rewrite app_nil_r. reflexivity. Qed.

Lemma emits_perform e : emits (perform e) [e] tt.
Proof. intros p. reflexivity. Qed.

Lemma emits_emit e : emits (emit e) [Logged e] tt.
Proof. intros p. reflexivity. Qed.

Lemma emits_bind {A B} (m : M A) (k : A -> M B) e1 e2 a b :
  emits m e1 a -> emits (k a) e2 b -> emits (bind m k) (e1 ++ e2) b.
Proof.
  intros Hm Hk p. unfold bind. rewrite Hm, Hk. simpl.
  rewrite app_assoc. reflexivity.
Qed.

Lemma emits_events_of {A} (m : M A) evs a p : emits m evs a -> events_of m p = evs.
Proof.
  intros H. unfold events_of. rewrite H. simpl. apply drop_app_length.
Qed.

Lemma emits_shutdownHTTPServer W : emits (shutdownHTTPServer W) (shutdownHTTP_events W) tt.
Proof.
  unfold shutdownHTTPServer, shutdownHTTP_events.
  apply (emits_bind _ _ [_] [_] tt tt); [apply emits_perform|].
  destruct (server_Shutdown W); apply emits_emit.
Qed.

Lemma emits_shutdown_provider p ev result what :
  emits (shutdown_provider p ev result what) (provider_events p ev result what) tt.
Proof.
  unfold shutdown_provider, provider_events. destruct p as [x|]; [|apply emits_ret].
  apply (emits_bind _ _ [_] _ tt tt); [apply emits_perform|].
  destruct result; [apply emits_emit | apply emits_ret].
Qed.

Lemma emits_run_cleanups i n : emits (run_cleanups i n) (map CleanupFn (seq i n)) tt.
Proof.
  revert i. induction n as [|n IH]; intros i; simpl; [apply emits_ret|].
  apply (emits_bind _ _ [_] _ tt tt); [apply emits_perform | apply IH].
Qed.

Lemma emits_eq {A} (m : M A) e e' a : emits m e a -> e = e' -> emits m e' a.
Proof. intros H <-. exact H. Qed.

Ltac emits_step :=
  first
    [ apply emits_ret | apply emits_perform | apply emits_emit
    | apply emits_shutdownHTTPServer | apply emits_shutdown_provider
    | apply emits_run_cleanups
    | eapply emits_bind; [emits_step | cbv beta iota; emits_step] ].

Lemma emits_Start W a n :
  telemetry_NewInstrumentor W = None ->
  tracerProvider a <> None ->
  emits (Start W a n)
    (before_close W a ++ KafkaClientClose :: between_close_and_join n
       ++ WaitGroupWait :: after_join) None.
Proof.
  intros HI HT. unfold Start, startHealthCheckServer, startConsumer. rewrite HI.
  destruct (tracerProvider a) as [tp|] eqn:Htp; [clear HT | contradiction].
  unfold shutdownOtelProviders.
  eapply emits_eq; [emits_step|].
  unfold before_close, between_close_and_join, after_join.
  simpl. rewrite <- !app_assoc. reflexivity.
Qed.

Lemma position_app_hit f pre x rest :
  Forall (fun e => f e = false) pre -> f x = true ->
  position f (pre ++ x :: rest) = Some (length pre).
Proof.
  intros Hpre Hx. induction Hpre as [|e pre He _ IH]; simpl.
  - rewrite Hx. reflexivity.
  - rewrite He, IH. reflexivity.
Qed.

Lemma occurrences_app f l1 l2 :
  occurrences f (l1 ++ l2) = occurrences f l1 + occurrences f l2.
Proof. unfold occurrences. rewrite filter_app, length_app. reflexivity. Qed.

Lemma occurrences_none f l : Forall (fun e => f e = false) l -> occurrences f l = 0.
Proof.
  unfold occurrences. induction 1 as [|e l He _ IH]; [reflexivity|].
  rewrite filter_cons_False by congruence. exact IH.
Qed.

Lemma other_before_close W a : Forall other (before_close W a).
Proof.
  unfold before_close, shutdownHTTP_events, provider_events.
  destruct (tracerProvider a), (meterProvider a),
    (tracerProvider_Shutdown W), (meterProvider_Shutdown W);
    simpl; repeat constructor.
Qed.

Lemma other_between n : Forall other (between_close_and_join n).
Proof.
  unfold between_close_and_join. apply Forall_app. split.
  - apply Forall_forall. intros e He. apply list_elem_of_In, in_map_iff in He.
    destruct He as (i & <- & _). split; reflexivity.
  - repeat constructor.
Qed.

Lemma other_after_join : Forall other after_join.
Proof. repeat constructor. Qed.

Lemma other_l l : Forall other l -> Forall (fun e => is_close e = false) l.
Proof. intros H. eapply Forall_impl; [exact H|]. intros e [He _]. exact He. Qed.

Lemma other_r l : Forall other l -> Forall (fun e => is_join e = false) l.
Proof. intros H. eapply Forall_impl; [exact H|]. intros e [_ He]. exact He. Qed.

(** The shape of a trace in which the close comes first. *)
Lemma close_then_join_shape pre mid post :
  Forall other pre -> Forall other mid -> Forall other post ->
  let t := pre ++ KafkaClientClose :: mid ++ WaitGroupWait :: post in
  occurrences is_close t = 1 /\ occurrences is_join t = 1 /\
  precedes is_close is_join t = true /\ precedes is_join is_close t = false.
Proof.
  intros Hpre Hmid Hpost t.
  assert (Hc : position is_close t = Some (length pre)).
  { apply position_app_hit; [apply other_l; exact Hpre | reflexivity]. }
  assert (Hj : position is_join t = Some (length (pre ++ KafkaClientClose :: mid))).
  { subst t.
    replace (pre ++ KafkaClientClose :: mid ++ WaitGroupWait :: post)
      with ((pre ++ KafkaClientClose :: mid) ++ WaitGroupWait :: post)
      by (rewrite <- app_assoc; reflexivity).
    apply position_app_hit; [|reflexivity].
    apply Forall_app. split; [apply other_r; exact Hpre|].
    constructor; [reflexivity | apply other_r; exact Hmid]. }
  unfold precedes. rewrite Hc, Hj. rewrite length_app. simpl.
  subst t. rewrite !occurrences_app.
  change (KafkaClientClose :: mid ++ WaitGroupWait :: post)
    with ([KafkaClientClose] ++ mid ++ [WaitGroupWait] ++ post).
  rewrite !occurrences_app.
  rewrite (occurrences_none is_close pre), (occurrences_none is_close mid),
    (occurrences_none is_close post) by (apply other_l; assumption).
  rewrite (occurrences_none is_join pre), (occurrences_none is_join mid),
    (occurrences_none is_join post) by (apply other_r; assumption).
  repeat split; try reflexivity.
  - apply Nat.ltb_lt. lia.
  - apply Nat.ltb_ge. lia.
Qed.

(** C1. The specification asks for the client to be closed only after the
    wait-group has been joined; the code does the opposite. Whenever [Start]
    reaches its shutdown path (the instrumentor was created and the tracer
    provider is not nil), the main goroutine stops the probe server, shuts
    the telemetry providers down, closes the messaging client, runs the
    cleanup functions and only then joins the wait-group: the close and the
    join happen once each, and the close comes before the join, while the
    consumer goroutine started earlier has not been joined yet. *)
Theorem close_precedes_join (W : World) (a : app) (cleanupFns : nat) (p : Process) :
  telemetry_NewInstrumentor W = None ->
  tracerProvider a <> None ->
  let t := events_of (Start W a cleanupFns) p in
  t = before_close W a ++ KafkaClientClose :: between_close_and_join cleanupFns
        ++ WaitGroupWait :: after_join /\
  occurrences is_close t = 1 /\ occurrences is_join t = 1 /\
  precedes is_close is_join t = true /\ precedes is_join is_close t = false /\
  precedes is_consumer_start is_close t = true.
Proof.
  intros HI HT t. subst t.
  rewrite (emits_events_of _ _ _ p (emits_Start W a cleanupFns HI HT)).
  split; [reflexivity|].
  destruct (close_then_join_shape (before_close W a) (between_close_and_join cleanupFns)
              after_join (other_before_close W a) (other_between cleanupFns)
              other_after_join) as (H1 & H2 & H3 & H4).
  split; [exact H1|]. split; [exact H2|]. split; [exact H3|]. split; [exact H4|].
  unfold precedes.
  rewrite (position_app_hit is_close (before_close W a) KafkaClientClose _
             (other_l _ (other_before_close W a)) eq_refl).
  unfold before_close. cbn [List.app position is_consumer_start option_map].
  apply Nat.ltb_lt. cbn [length]. lia.
Qed.

Lemma close_precedes_join_witness :
  precedes is_close is_join (events_of (Start traced_world traced_app 2) traced_process)
  = true.
Proof.
  refine (proj1 (proj2 (proj2 (proj2
    (close_precedes_join traced_world traced_app 2 traced_process eq_refl _))))).
  discriminate.
Defined.

(** The failing run: [New] with telemetry enabled and every external call
    succeeding, then [Start] with one cleanup function. The consumer
    goroutine is started at position 3 of the trace of [Start], the client
    is closed at position 10 and the wait-group is joined only at position
    13. *)
Lemma close_before_join_example :
  let t := events_of (Start traced_world traced_app 1) traced_process in
  snd (New traced_world kgo.fresh_process) = Return (inr traced_app) /\
  position is_consumer_start t = Some 3 /\
  position is_close t = Some 10 /\ position is_join t = Some 13 /\
  precedes is_join is_close t = false.
Proof. vm_compute. repeat split; reflexivity. Qed.

End StartFacts.

(* ===================================================================== *)
(** ** Which configuration errors end the process *)
(* ===================================================================== *)

Section InitFacts.

Import kgo.

Variable P : Platform.

Lemma rebalance_step_returns strategy opts p :
  rebalance_step P strategy opts p =
  match strategy_balancer P strategy with
  | Some b => (p, Return (opts ++ [Balancers b]))
  | None =>
      (log (zap.Warnf ("Unknown or empty rebalance strategy '" +:+ strategy
                         +:+ "', using default.")) p,
       Return opts)
  end.
Proof.
  unfold rebalance_step, strategy_balancer.
  repeat match goal with
         | |- context [if ?b then _ else _] => destruct b
         end; reflexivity.
Qed.

Lemma tls_step_outcome t opts p :
  tls_step P t opts p =
  if config.TLS_Enabled t then
    match createTLSConfig P (config.CertFile t) (config.KeyFile t) (config.CAFile t) with
    | inl err => (log (zap.Fatalf ("Failed to create TLS config: " +:+ err)) p, Exit 1%Z)
    | inr c => (p, Return (opts ++ [DialTLSConfig c]))
    end
  else (p, Return opts).
Proof.
  unfold tls_step. destruct (config.TLS_Enabled t); [|reflexivity].
  destruct (createTLSConfig _ _ _ _); reflexivity.
Qed.

Lemma sasl_step_outcome s opts p :
  exists extra, Forall passive extra /\ balancers extra = [] /\
  sasl_step P s opts p =
  if sasl_fails P s then
    (log (zap.Fatalf ("Unsupported SASL mechanism: " +:+ config.Mechanism s)) p, Exit 1%Z)
  else (p, Return (opts ++ extra)).
Proof.
  unfold sasl_step, sasl_fails, supported_mechanism.
  destruct (config.SASL_Enabled s); cbn [andb].
  - repeat match goal with
           | |- context [if String.eqb ?a ?b then _ else _] => destruct (String.eqb a b)
           end; cbn [orb negb].
    1-3: eexists [_]; repeat split; [repeat constructor | reflexivity].
    exists []; repeat split; constructor.
  - exists []. rewrite app_nil_r. repeat split; constructor.
Qed.

Lemma createTLSConfig_bad_pair certFile keyFile caFile err :
  certFile <> "" -> keyFile <> "" ->
  LoadX509KeyPair P certFile keyFile = inl err ->
  createTLSConfig P certFile keyFile caFile =
    inl ("could not load client key pair: " +:+ err).
Proof.
  intros Hc Hk Hl. unfold createTLSConfig.
  apply String.eqb_neq in Hc, Hk. rewrite Hc, Hk, Hl. reflexivity.
Qed.

Lemma balancers_app a b : balancers (a ++ b) = balancers a ++ balancers b.
Proof. apply omap_app. Qed.

(** Everything [BuildKgoOptions] can do, by the three parts of the
    configuration it reads. *)
Lemma build_outcome cfg tp p :
  let k := config.Config_Kafka cfg in
  let r := BuildKgoOptions P cfg tp p in
  exited r = tls_fails P (config.Kafka_TLS k) || sasl_fails P (config.Kafka_SASL k)
  /\ (forall code, snd r = Exit code ->
        code = 1%Z /\ is_fatal_entry (last (trace (fst r))) = true)
  /\ (forall opts, snd r = Return opts ->
        balancers opts =
        match strategy_balancer P (config.RebalanceStrategy k) with
        | Some b => [b]
        | None => []
        end)
  /\ (strategy_balancer P (config.RebalanceStrategy k) = None ->
        unknown_strategy_warning (config.RebalanceStrategy k) ∈ trace (fst r))
  /\ (exists l, trace (fst r) = trace p ++ map Logged l)
  /\ checker (fst r) = checker p.
Proof.
  intros k r. subst r. unfold BuildKgoOptions, bind. fold k.
  set (base := [RequiredAcksAllISR; _; _; _; _; _; _; _]).
  set (opts0 := if config.Otel_Enabled cfg then base ++ [WithHooks tp] else base).
  assert (Hb0 : balancers opts0 = []).
  { subst opts0 base. destruct (config.Otel_Enabled cfg); reflexivity. }
  rewrite rebalance_step_returns.
  set (q := match strategy_balancer P (config.RebalanceStrategy k) with
            | Some _ => p
            | None => log (zap.Warnf
                 ("Unknown or empty rebalance strategy '" +:+ config.RebalanceStrategy k
                    +:+ "', using default.")) p
            end).
  set (o1 := match strategy_balancer P (config.RebalanceStrategy k) with
             | Some b => opts0 ++ [Balancers b]
             | None => opts0
             end).
  assert (Hrb : match strategy_balancer P (config.RebalanceStrategy k) with
                | Some b => (p, Return (opts0 ++ [Balancers b]))
                | None => (log (zap.Warnf
                     ("Unknown or empty rebalance strategy '" +:+ config.RebalanceStrategy k
                        +:+ "', using default.")) p, Return opts0)
                end = (q, Return o1)).
  { subst q o1. destruct (strategy_balancer P _); reflexivity. }
  rewrite Hrb. clear Hrb.
  assert (Hq : exists l, trace q = trace p ++ map Logged l).
  { subst q. destruct (strategy_balancer P _).
    - exists []. simpl. rewrite app_nil_r. reflexivity.
    - eexists [_]. reflexivity. }
  assert (Hqc : checker q = checker p).
  { subst q. destruct (strategy_balancer P _); reflexivity. }
  assert (Hw : strategy_balancer P (config.RebalanceStrategy k) = None ->
               unknown_strategy_warning (config.RebalanceStrategy k) ∈ trace q).
  { subst q. intros ->. simpl. apply elem_of_app. right. left. }
  assert (Hb1 : balancers o1 =
                match strategy_balancer P (config.RebalanceStrategy k) with
                | Some b => [b]
                | None => []
                end).
  { subst o1. destruct (strategy_balancer P _); [|exact Hb0].
    rewrite balancers_app, Hb0. reflexivity. }
  clearbody q o1. destruct Hq as (l & Hq).
  rewrite tls_step_outcome. unfold tls_fails.
  destruct (config.TLS_Enabled (config.Kafka_TLS k)); cbn [andb].
  - destruct (createTLSConfig P _ _ _) as [err|c].
    + cbn [fst snd exited orb]. simpl.
      split; [reflexivity|]. split.
      { intros code [= <-]. split; [reflexivity|]. rewrite last_snoc. reflexivity. }
      split; [discriminate|]. split.
      { intros Hn. apply elem_of_app. left. auto. }
      split; [|exact Hqc].
      exists (l ++ [zap.Fatalf ("Failed to create TLS config: " +:+ err)]).
      rewrite Hq, map_app, app_assoc. reflexivity.
    + destruct (sasl_step_outcome (config.Kafka_SASL k) (o1 ++ [DialTLSConfig c]) q)
        as (extra & _ & Hbe & ->).
      destruct (sasl_fails P _); cbn [fst snd exited orb]; simpl.
      * split; [reflexivity|]. split.
        { intros code [= <-]. split; [reflexivity|]. rewrite last_snoc. reflexivity. }
        split; [discriminate|]. split.
        { intros Hn. apply elem_of_app. left. auto. }
        split; [|exact Hqc].
        eexists (l ++ [_]). rewrite Hq, map_app, app_assoc. reflexivity.
      * split; [reflexivity|]. split; [discriminate|]. split.
        { intros opts [= <-]. rewrite !balancers_app, Hbe, Hb1, !app_nil_r. reflexivity. }
        split; [exact Hw|]. split; [eauto | exact Hqc].
  - destruct (sasl_step_outcome (config.Kafka_SASL k) o1 q) as (extra & _ & Hbe & ->).
    destruct (sasl_fails P _); cbn [fst snd exited orb]; simpl.
    * split; [reflexivity|]. split.
      { intros code [= <-]. split; [reflexivity|]. rewrite last_snoc. reflexivity. }
      split; [discriminate|]. split.
      { intros Hn. apply elem_of_app. left. auto. }
      split; [|exact Hqc].
      eexists (l ++ [_]). rewrite Hq, map_app, app_assoc. reflexivity.
    * split; [reflexivity|]. split; [discriminate|]. split.
      { intros opts [= <-]. rewrite !balancers_app, Hbe, Hb1, !app_nil_r. reflexivity. }
      split; [exact Hw|]. split; [eauto | exact Hqc].
Qed.

End InitFacts.

Section AbortFacts.

Import kgo ktel.

Lemma init_otel_only_logs sdk cfg p :
  exists l, trace (fst (otel.InitOtelProviders sdk cfg p)) = trace p ++ map Logged l.
Proof.
  unfold otel.InitOtelProviders.
  destruct (config.Otel_Enabled cfg); cbn [negb].
  - unfold bind, emit, ret. cbn.
    destruct (otel.resource_Merge sdk _); [eexists [_]; reflexivity|].
    destruct (otel.otlptracegrpc_New sdk _); [eexists [_]; reflexivity|]. cbn.
    destruct (otel.otlpmetricgrpc_New sdk _); cbn.
    + eexists [_; _]. rewrite <- app_assoc. reflexivity.
    + eexists [_; _; _]. rewrite <- !app_assoc. reflexivity.
  - eexists [_]. reflexivity.
Qed.

Lemma logs_start_nothing l : Forall (fun e => is_goroutine_start e = false) (map Logged l).
Proof. apply Forall_forall. intros e He. apply list_elem_of_fmap in He as (x & -> & _). reflexivity. Qed.

(** When option construction ends the process, so does [run], before any
    goroutine has been started. *)
Lemma run_aborts W cfg tp mp p0 code :
  config_New W = inr cfg ->
  logger_New W (config.AppName cfg) = None ->
  snd (otel.InitOtelProviders (sdk W) cfg p0) = Return (tp, mp, None) ->
  snd (BuildKgoOptions (platform W) cfg tp
         (with_checker (fun _ => health.NewChecker)
            (fst (otel.InitOtelProviders (sdk W) cfg p0)))) = Exit code ->
  snd (run W p0) = Exit 1%Z /\
  Forall (fun e => is_goroutine_start e = false) (events_of (run W) p0).
Proof.
  intros Hcfg Hlog Hotel Hbuild.
  destruct (init_otel_only_logs (sdk W) cfg p0) as (l1 & Hl1).
  pose proof (build_outcome (platform W) cfg tp
                (with_checker (fun _ => health.NewChecker)
                   (fst (otel.InitOtelProviders (sdk W) cfg p0)))) as Hout.
  cbv zeta in Hout. destruct Hout as (_ & Hcode & _ & _ & (l2 & Hl2) & _).
  destruct (Hcode _ Hbuild) as [-> _].
  unfold events_of, run, New, bind. rewrite Hcfg, Hlog.
  destruct (otel.InitOtelProviders (sdk W) cfg p0) as [p1 o1] eqn:E1.
  cbn [fst snd] in *. subst o1. unfold with_new_checker at 1 2.
  destruct (BuildKgoOptions (platform W) cfg tp _) as [p2 o2] eqn:E2.
  cbn [fst snd] in *. subst o2. cbn [fst snd].
  split; [reflexivity|].
  rewrite Hl2. cbn [with_checker trace]. rewrite Hl1, <- app_assoc, drop_app_length.
  rewrite <- map_app. apply logs_start_nothing.
Qed.

(** C8. In [New], at the point where [BuildKgoOptions] is called: a SASL
    mechanism that is enabled and is none of PLAIN, SCRAM-SHA-256,
    SCRAM-SHA-512 (compared after upper-casing, as the code does), and a
    client key pair that fails to load, each end the process with a fatal
    log entry; when option construction ends the process, [run] ends with
    exit code 1 before the probe server or the consumer loop has been
    started. An unknown rebalance strategy does not decide whether startup
    aborts: when TLS and SASL are in order the options are returned, with
    no balancer option among them and a warning in the log. *)
Theorem init_errors_fatal_unknown_strategy_not (W : World) (cfg : config.Config)
  (tp : option otel.TracerProvider) (mp : option otel.MeterProvider) (p0 : Process) :
  config_New W = inr cfg ->
  logger_New W (config.AppName cfg) = None ->
  snd (otel.InitOtelProviders (sdk W) cfg p0) = Return (tp, mp, None) ->
  let k := config.Config_Kafka cfg in
  let r := BuildKgoOptions (platform W) cfg tp
             (with_checker (fun _ => health.NewChecker)
                (fst (otel.InitOtelProviders (sdk W) cfg p0))) in
  (config.SASL_Enabled (config.Kafka_SASL k) = true ->
   supported_mechanism (platform W) (config.Mechanism (config.Kafka_SASL k)) = false ->
   snd r = Exit 1%Z /\ is_fatal_entry (last (trace (fst r))) = true)
  /\ (config.TLS_Enabled (config.Kafka_TLS k) = true ->
      config.CertFile (config.Kafka_TLS k) <> "" ->
      config.KeyFile (config.Kafka_TLS k) <> "" ->
      (exists err, LoadX509KeyPair (platform W) (config.CertFile (config.Kafka_TLS k))
                     (config.KeyFile (config.Kafka_TLS k)) = inl err) ->
      snd r = Exit 1%Z /\ is_fatal_entry (last (trace (fst r))) = true)
  /\ (exited r = true ->
      snd (run W p0) = Exit 1%Z /\
      occurrences is_goroutine_start (events_of (run W) p0) = 0)
  /\ (strategy_balancer (platform W) (config.RebalanceStrategy k) = None ->
      exited r =
        tls_fails (platform W) (config.Kafka_TLS k) ||
        sasl_fails (platform W) (config.Kafka_SASL k)
      /\ unknown_strategy_warning (config.RebalanceStrategy k) ∈ trace (fst r)
      /\ (tls_fails (platform W) (config.Kafka_TLS k) = false ->
          sasl_fails (platform W) (config.Kafka_SASL k) = false ->
          exists opts, snd r = Return opts /\ balancers opts = [])).
Proof.
  intros Hcfg Hlog Hotel k r.
  pose proof (build_outcome (platform W) cfg tp
                (with_checker (fun _ => health.NewChecker)
                   (fst (otel.InitOtelProviders (sdk W) cfg p0)))) as Hout.
  cbv zeta in Hout. fold k r in Hout.
  destruct Hout as (Hex & Hcode & Hbal & Hwarn & _ & _).
  assert (Hexit : exited r = true ->
                  snd r = Exit 1%Z /\ is_fatal_entry (last (trace (fst r))) = true).
  { unfold exited. destruct (snd r) as [code|opts] eqn:Er; [|discriminate].
    intros _. destruct (Hcode code eq_refl) as [-> Hf]. auto. }
  split; [|split; [|split]].
  - intros Hen Hsup. apply Hexit. rewrite Hex. unfold sasl_fails.
    rewrite Hen, Hsup. apply orb_true_r.
  - intros Hen Hc Hk (err & Hload). apply Hexit. rewrite Hex. unfold tls_fails.
    rewrite Hen, (createTLSConfig_bad_pair _ _ _ _ err Hc Hk Hload). reflexivity.
  - intros He. destruct (Hexit He) as [Hr _].
    destruct (run_aborts W cfg tp mp p0 1%Z Hcfg Hlog Hotel Hr) as [H1 H2].
    split; [exact H1|].
    apply (occurrences_none is_goroutine_start). exact H2.
  - intros Hs. split; [exact Hex|]. split; [apply Hwarn; exact Hs|].
    intros Ht Hsa. rewrite Ht, Hsa in Hex. unfold exited in Hex.
    destruct (snd r) as [code|opts] eqn:Er; [discriminate|].
    exists opts. split; [reflexivity|]. rewrite (Hbal opts eq_refl), Hs. reflexivity.
Qed.

(** The process that asks for GSSAPI ends with exit code 1. *)
Lemma init_errors_fatal_unknown_strategy_not_witness :
  snd (BuildKgoOptions kgo.bare_platform gssapi_config None
         (with_checker (fun _ => health.NewChecker)
            (fst (otel.InitOtelProviders
                    (sdk (calm_world (inr gssapi_config))) gssapi_config fresh_process))))
    = Exit 1%Z.
Proof.
  exact (proj1 (proj1 (init_errors_fatal_unknown_strategy_not
                         (calm_world (inr gssapi_config)) gssapi_config None None
                         fresh_process eq_refl eq_refl eq_refl)
                  eq_refl eq_refl)).
Defined.

End AbortFacts.

(* ===================================================================== *)
(** ** The instrumenting decorator *)
(* ===================================================================== *)

Section ProcessorFacts.

Import processor.

Variable E : Type.
Variable now : E -> Z.

(** C3. One call of [InstrumentingProcessor.ProcessRecord] invokes the inner
    processor exactly once, with the record and the context carrying the
    new span; returns exactly what the inner call returned and leaves the
    inner processor's world as that one call left it; and sends the sink
    exactly one span start, one counter increment, one duration
    observation, the span attributes and one span end, in this order,
    the counter and the observation tagged with the record's topic and
    with success = (the inner call returned nil) -- on the error path as
    on the success path. *)
Theorem instrumenting_processor_contract (p : Processor E) (ctx : context.Context)
  (record : franz.Record) (w : World E) :
  let name := franz.Topic record +:+ " process" in
  let ctx' := context.WithSpan ctx name in
  let inner := p ctx' record (env w) in
  let out := ProcessRecord now p ctx record w in
  let success := is_nil (fst inner) in
  invocations (snd out) = invocations w ++ [(ctx', record)]
  /\ fst out = fst inner
  /\ env (snd out) = snd inner
  /\ sink (snd out) = sink w ++ added w (snd out)
  /\ added w (snd out) =
       [ SpanStart name;
         CounterAdd 1 (franz.Topic record) success;
         HistogramRecord (Z.quot (now (snd inner) - now (env w)) 1000)
           (franz.Topic record) success;
         SpanSetAttributes name (franz.Topic record) (franz.Partition record);
         SpanEnd name ]
  /\ count is_SpanStart (added w (snd out)) = 1
  /\ count is_SpanEnd (added w (snd out)) = 1
  /\ count is_CounterAdd (added w (snd out)) = 1
  /\ count is_HistogramRecord (added w (snd out)) = 1.
Proof.
  intros name ctx' inner out success.
  assert (Hout : out =
    (fst inner,
     mkWorld (sink w ++
         [ SpanStart name;
           CounterAdd 1 (franz.Topic record) success;
           HistogramRecord (Z.quot (now (snd inner) - now (env w)) 1000)
             (franz.Topic record) success;
           SpanSetAttributes name (franz.Topic record) (franz.Partition record);
           SpanEnd name ])
       (invocations w ++ [(ctx', record)]) (snd inner))).
  { subst out success. unfold ProcessRecord, defer, tbind, tracer_Start, time_Now,
      InstrumentMessage, invoke, span_End, signal, tret, tbind.
    cbn [fst snd sink invocations env context.WithSpan context.span].
    fold name. fold ctx'. fold inner.
    destruct inner as [err e']. unfold time_Now.
    cbn [fst snd sink invocations env].
    rewrite <- !app_assoc. reflexivity. }
  assert (Hadd : added w (snd out) =
       [ SpanStart name;
         CounterAdd 1 (franz.Topic record) success;
         HistogramRecord (Z.quot (now (snd inner) - now (env w)) 1000)
           (franz.Topic record) success;
         SpanSetAttributes name (franz.Topic record) (franz.Partition record);
         SpanEnd name ]).
  { rewrite Hout. unfold added. cbn [snd sink]. apply drop_app_length. }
  rewrite Hadd. rewrite Hout. cbn [fst snd sink invocations env].
  repeat split; reflexivity.
Qed.

End ProcessorFacts.

(** One record on topic "orders", the clock as the only state, a processor
    that takes 2.5 ms and returns nil: one counter increment and one
    observation of 2500 microseconds, both tagged success. *)
Example instrumented_orders_record :
  let p : processor.Processor Z := fun _ _ t => (None, (t + 2500000)%Z) in
  let w := processor.mkWorld [] [] 1000%Z in
  processor.ProcessRecord (fun t => t) p (context.mkContext 7 None) consumer.order1 w =
  (None,
   processor.mkWorld
     [ processor.SpanStart "orders process";
       processor.CounterAdd 1 "orders" true;
       processor.HistogramRecord 2500 "orders" true;
       processor.SpanSetAttributes "orders process" "orders" 0;
       processor.SpanEnd "orders process" ]
     [(context.mkContext 7 (Some "orders process"), consumer.order1)]
     2501000%Z).
Proof. reflexivity. Qed.

(** The same record with a processor that fails: the error comes back
    unchanged and the signals are tagged with success = false. *)
Example instrumented_failing_record :
  let p : processor.Processor Z := fun _ _ t => (Some "unmarshal: bad json", (t + 1000)%Z) in
  let w := processor.mkWorld [] [] 0%Z in
  processor.ProcessRecord (fun t => t) p (context.mkContext 7 None) consumer.order1 w =
  (Some "unmarshal: bad json",
   processor.mkWorld
     [ processor.SpanStart "orders process";
       processor.CounterAdd 1 "orders" false;
       processor.HistogramRecord 1 "orders" false;
       processor.SpanSetAttributes "orders process" "orders" 0;
       processor.SpanEnd "orders process" ]
     [(context.mkContext 7 (Some "orders process"), consumer.order1)]
     1000%Z).
Proof. reflexivity. Qed.

(* ===================================================================== *)
(** ** The poll loop *)
(* ===================================================================== *)

Section ConsumerFacts.

Import consumer.

(** *** Goroutine bookkeeping *)

Lemma select_app q ts1 ts2 : select q (ts1 ++ ts2) = select q ts1 ++ select q ts2.
Proof. apply omap_app. Qed.

Lemma map_rec_insert (ts : list Task) i t t' :
  ts !! i = Some t -> rec t' = rec t -> map rec (<[i := t']> ts) = map rec ts.
Proof.
  revert i. induction ts as [|x ts IH]; intros [|i] Hi Hr; simpl in *; try discriminate.
  - injection Hi as ->. rewrite Hr. reflexivity.
  - rewrite (IH i Hi Hr). reflexivity.
Qed.

Lemma select_insert_same q (ts : list Task) i t t' :
  ts !! i = Some t -> rec t' = rec t -> q (stage t') = q (stage t) ->
  select q (<[i := t']> ts) = select q ts.
Proof.
  revert i. induction ts as [|x ts IH]; intros [|i] Hi Hr Hq; simpl in *; try discriminate.
  - injection Hi as ->. unfold select. simpl. rewrite Hq, Hr. reflexivity.
  - unfold select in *. simpl. rewrite (IH i Hi Hr Hq). reflexivity.
Qed.

Lemma select_insert_gain q (ts : list Task) i t t' :
  ts !! i = Some t -> rec t' = rec t -> q (stage t) = false -> q (stage t') = true ->
  select q (<[i := t']> ts) ≡ₚ rec t :: select q ts.
Proof.
  revert i. induction ts as [|x ts IH]; intros [|i] Hi Hr Hf Ht; simpl in *; try discriminate.
  - injection Hi as ->. unfold select. simpl. rewrite Hf, Ht, Hr. reflexivity.
  - unfold select in *. simpl. destruct (q (stage x)).
    + rewrite (IH i Hi Hr Hf Ht). apply perm_swap.
    + apply (IH i Hi Hr Hf Ht).
Qed.

Lemma select_insert_lose q (ts : list Task) i t t' :
  ts !! i = Some t -> q (stage t) = true -> q (stage t') = false ->
  length (select q ts) = S (length (select q (<[i := t']> ts))).
Proof.
  revert i. induction ts as [|x ts IH]; intros [|i] Hi Ht Hf; simpl in *; try discriminate.
  - injection Hi as ->. unfold select. simpl. rewrite Hf, Ht. reflexivity.
  - unfold select in *. simpl. destruct (q (stage x)); simpl; rewrite (IH i Hi Ht Hf); reflexivity.
Qed.

(** When nothing is running any more, every goroutine has made its call
    and seen it return. *)
Lemma select_all_exited ts :
  length (select running ts) = 0 ->
  select started ts = map rec ts /\ select finished ts = map rec ts.
Proof.
  induction ts as [|[r st] ts IH]; [split; reflexivity|].
  intros H. unfold select in *. destruct st; simpl in H; try discriminate H.
  simpl. destruct (IH H) as [H1 H2]. split; f_equal; [exact H1 | exact H2].
Qed.

(** *** Reading a history past events that do not matter *)

Lemma since_poll_neutral l h :
  Forall (fun e => neutral e = true) l -> since_poll (l ++ h) = l ++ since_poll h.
Proof.
  induction 1 as [|e l He _ IH]; [reflexivity|].
  simpl. rewrite IH. destruct e; try discriminate; reflexivity.
Qed.

Lemma readers_neutral l h :
  Forall (fun e => neutral e = true) l ->
  fetched (l ++ h) = fetched h /\ calls (l ++ h) = calls h /\
  returned (l ++ h) = returned h /\ spawned (l ++ h) = spawned h.
Proof.
  induction 1 as [|e l He _ IH]; [repeat split; reflexivity|].
  destruct IH as (H1 & H2 & H3 & H4).
  unfold fetched, calls, returned, spawned in *.
  destruct e; try discriminate; simpl; auto.
Qed.

Lemma neutral_fetch_logs errs :
  Forall (fun e => neutral e = true)
    (rev (map (fun e => Log (fetch_error_entry e)) errs)).
Proof.
  apply Forall_rev, Forall_forall. intros e He.
  apply list_elem_of_fmap in He as (x & -> & _). reflexivity.
Qed.

Lemma quiet_neutral l it :
  Forall (fun e => neutral e = true) l -> quiet it -> quiet (l ++ it).
Proof.
  intros Hl. destruct (readers_neutral l it Hl) as (_ & E2 & E3 & E4).
  unfold quiet. rewrite E2, E3, E4. auto.
Qed.

Lemma complete_neutral f l it :
  Forall (fun e => neutral e = true) l -> complete f it -> complete f (l ++ it).
Proof.
  intros Hl. destruct (readers_neutral l it Hl) as (_ & E2 & E3 & _).
  unfold complete. rewrite E2, E3. auto.
Qed.

Lemma settled_neutral l it :
  Forall (fun e => neutral e = true) l -> settled it -> settled (l ++ it).
Proof.
  intros Hl. destruct (readers_neutral l it Hl) as (E1 & _ & _ & E4).
  unfold settled. rewrite E1.
  destruct (fetched it) as [f|]; [destruct (Errors f)|].
  - intros [Hc Hs]. rewrite E4. split; [apply complete_neutral; assumption | exact Hs].
  - apply quiet_neutral; exact Hl.
  - apply quiet_neutral; exact Hl.
Qed.

(** *** The invariant *)

Lemma init_Inv b : Inv (init b).
Proof. unfold Inv, settled, quiet. simpl. auto. Qed.

Ltac open_Inv :=
  unfold Inv, live in *; cbn [pc cancelled wg tasks history since_poll] in *.

Lemma run_step_Inv s s' : Inv s -> run_step s = Some s' -> Inv s'.
Proof.
  intros HI Hs. destruct s as [p b w ts h]. unfold run_step in Hs.
  cbn [pc cancelled wg tasks history] in Hs.
  destruct p as [| | |pending| |].
  - (* the check of line 54 *)
    destruct b; injection Hs as <-; open_Inv.
    + destruct HI as [Ht Hset]. split; [exact Ht|].
      apply (settled_neutral [Log stop_entry]); [repeat constructor | exact Hset].
    + exact HI.
  - (* the call of line 59 *)
    injection Hs as <-. open_Inv.
    destruct HI as [Ht _]. unfold quiet. auto.
  - discriminate.
  - destruct pending as [|r pending]; injection Hs as <-; open_Inv.
    + destruct HI as (f & Hf & He & Hr & Hl). exists f.
      rewrite app_nil_r in Hr. auto.
    + destruct HI as (f & Hf & He & Hr & Hw & Hc & Hret & Hsp). exists f.
      split; [exact Hf|]. split; [exact He|]. split.
      { rewrite map_app, <- app_assoc. exact Hr. }
      rewrite !select_app, !map_app, length_app.
      change (select running [mkTask r Spawned]) with [r].
      change (select started [mkTask r Spawned]) with (@nil franz.Record).
      change (select finished [mkTask r Spawned]) with (@nil franz.Record).
      rewrite !app_nil_r. cbn [length map].
      split; [lia|]. split; [exact Hc|]. split; [exact Hret|].
      change (spawned (Go (length ts) r :: since_poll h)) with (r :: spawned (since_poll h)).
      rewrite Hsp. apply Permutation_cons_append.
  - (* wg.Wait() *)
    destruct w; [|discriminate]. injection Hs as <-. open_Inv.
    destruct HI as (f & Hf & He & Hr & Hw & Hc & Hret & Hsp).
    split; [reflexivity|].
    apply (settled_neutral [WaitReturned]); [repeat constructor|].
    unfold settled. rewrite Hf, He.
    destruct (select_all_exited ts (eq_sym Hw)) as [Es Ef].
    rewrite Es in Hc. rewrite Ef in Hret. rewrite <- Hr in Hc, Hret, Hsp.
    split; [|exact Hsp].
    split; [exact Hc|]. split; [exact Hret|].
    rewrite Hc, length_map. reflexivity.
  - discriminate.
Qed.

Lemma poll_return_Inv f s s' : Inv s -> poll_return f s = Some s' -> Inv s'.
Proof.
  intros HI Hs. destruct s as [p b w ts h]. unfold poll_return in Hs.
  cbn [pc cancelled wg tasks history] in Hs.
  destruct p; try discriminate.
  open_Inv. destruct HI as (Ht & Hf & Hq).
  destruct (Errors f) as [|e errs] eqn:He;
    [|rewrite <- He in Hs]; injection Hs as <-; open_Inv.
  - exists f. destruct Hq as (Hc & Hr & Hsp).
    change (calls (Fetched f :: since_poll h)) with (calls (since_poll h)).
    change (returned (Fetched f :: since_poll h)) with (returned (since_poll h)).
    change (spawned (Fetched f :: since_poll h)) with (spawned (since_poll h)).
    rewrite Hc, Hr, Hsp. repeat split; try reflexivity. exact He.
  - split; [exact Ht|].
    rewrite since_poll_neutral by apply neutral_fetch_logs.
    apply settled_neutral; [apply neutral_fetch_logs|].
    cbn [since_poll]. unfold settled.
    change (fetched (Fetched f :: since_poll h)) with (Some f).
    cbv beta iota. rewrite He. exact Hq.
Qed.

(** A goroutine that takes a step exists: a batch is in flight. *)
Lemma Inv_task s i t :
  Inv s -> tasks s !! i = Some t ->
  exists f, fetched (since_poll (history s)) = Some f /\ Errors f = [] /\
            live s (since_poll (history s)) /\
            ((exists pending, pc s = InEachRecord pending /\
                              Records f = map rec (tasks s) ++ pending) \/
             (pc s = InWait /\ Records f = map rec (tasks s))).
Proof.
  intros HI Hi. destruct s as [p b w ts h]. cbn [tasks history pc] in *.
  destruct p; unfold Inv in HI; cbn [pc cancelled wg tasks history] in HI;
    try (destruct HI as [-> _]; discriminate).
  - destruct HI as (f & Hf & He & Hr & Hl). exists f. eauto 10.
  - destruct HI as (f & Hf & He & Hr & Hl). exists f. eauto 10.
Qed.

(** Rebuilding the invariant after a goroutine's step. *)
Lemma Inv_after_task s w' ts' h' f :
  fetched (since_poll h') = Some f -> Errors f = [] ->
  map rec ts' = map rec (tasks s) ->
  live (mkState (pc s) (cancelled s) w' ts' h') (since_poll h') ->
  ((exists pending, pc s = InEachRecord pending /\
                    Records f = map rec (tasks s) ++ pending) \/
   (pc s = InWait /\ Records f = map rec (tasks s))) ->
  Inv (mkState (pc s) (cancelled s) w' ts' h').
Proof.
  intros Hf He Hm Hl [(pending & Hp & Hr) | (Hp & Hr)];
    unfold Inv; cbn [pc cancelled wg tasks history]; rewrite Hp;
    exists f; rewrite Hm; auto.
Qed.

Lemma task_step_Inv i s s' : Inv s -> task_step i s = Some s' -> Inv s'.
Proof.
  intros HI Hs. unfold task_step in Hs.
  destruct (tasks s !! i) as [[r st]|] eqn:Hi; [|discriminate].
  destruct (Inv_task s i _ HI Hi) as (f & Hf & He & (Hw & Hc & Hret & Hsp) & Hpc).
  destruct st as [| |err|]; try discriminate; injection Hs as <-.
  - (* line 72: the call *)
    apply (Inv_after_task s _ _ _ f); cbn [since_poll]; auto.
    + eapply map_rec_insert; [exact Hi | reflexivity].
    + unfold live. cbn [wg tasks].
      rewrite (select_insert_same running _ i _ _ Hi) by reflexivity.
      rewrite (select_insert_same finished _ i _ _ Hi) by reflexivity.
      rewrite (select_insert_gain started _ i _ _ Hi) by reflexivity.
      rewrite (map_rec_insert _ i _ _ Hi) by reflexivity.
      split; [exact Hw|]. split; [|split; [exact Hret | exact Hsp]].
      change (calls (ProcessRecord i (franz.Context r) r :: since_poll (history s)))
        with (call_of r :: calls (since_poll (history s))).
      cbn [map rec]. rewrite Hc. reflexivity.
  - (* lines 73 and 71: the log entry and wg.Done() *)
    set (l := Done i :: match err with
                        | Some e => [Log (process_error_entry r e)]
                        | None => []
                        end).
    assert (Hn : Forall (fun e => neutral e = true) l).
    { subst l. destruct err; repeat constructor. }
    change (Done i :: match err with
                      | Some e => [Log (process_error_entry r e)]
                      | None => []
                      end ++ history s) with (l ++ history s).
    destruct (readers_neutral l (since_poll (history s)) Hn) as (E1 & E2 & E3 & E4).
    apply (Inv_after_task s _ _ _ f); rewrite ?since_poll_neutral by exact Hn.
    + rewrite E1. exact Hf.
    + exact He.
    + eapply map_rec_insert; [exact Hi | reflexivity].
    + unfold live. cbn [wg tasks]. rewrite E2, E3, E4.
      rewrite (select_insert_same started _ i _ _ Hi) by reflexivity.
      rewrite (select_insert_same finished _ i _ _ Hi) by reflexivity.
      rewrite (map_rec_insert _ i _ _ Hi) by reflexivity.
      pose proof (select_insert_lose running _ i _ (mkTask r Exited) Hi eq_refl eq_refl) as Hlen.
      split; [rewrite Hw, Hlen; reflexivity|]. auto.
    + exact Hpc.
Qed.

Lemma processor_return_Inv i err s s' : Inv s -> processor_return i err s = Some s' -> Inv s'.
Proof.
  intros HI Hs. unfold processor_return in Hs.
  destruct (tasks s !! i) as [[r st]|] eqn:Hi; [|discriminate].
  destruct (Inv_task s i _ HI Hi) as (f & Hf & He & (Hw & Hc & Hret & Hsp) & Hpc).
  destruct st; try discriminate; injection Hs as <-.
  apply (Inv_after_task s _ _ _ f); cbn [since_poll]; auto.
  - eapply map_rec_insert; [exact Hi | reflexivity].
  - unfold live. cbn [wg tasks].
    rewrite (select_insert_same running _ i _ _ Hi) by reflexivity.
    rewrite (select_insert_same started _ i _ _ Hi) by reflexivity.
    rewrite (select_insert_gain finished _ i _ _ Hi) by reflexivity.
    rewrite (map_rec_insert _ i _ _ Hi) by reflexivity.
    split; [exact Hw|]. split; [exact Hc|]. split; [|exact Hsp].
    change (map fst (returned (ProcessRecordReturned i r err :: since_poll (history s))))
      with (r :: map fst (returned (since_poll (history s)))).
    cbn [rec]. rewrite Hret. reflexivity.
Qed.

Lemma cancel_Inv s : Inv s -> Inv (mkState (pc s) true (wg s) (tasks s) (Cancel :: history s)).
Proof.
  intros HI. destruct s as [p b w ts h].
  assert (Hn : Forall (fun e => neutral e = true) [Cancel]) by repeat constructor.
  destruct (readers_neutral [Cancel] (since_poll h) Hn) as (E1 & E2 & E3 & E4).
  cbn [app] in *.
  destruct p; open_Inv; unfold quiet in *; rewrite ?E1, ?E2, ?E3, ?E4; auto.
  all: destruct HI as [Ht Hs]; split; [exact Ht|];
    apply (settled_neutral [Cancel]); assumption.
Qed.

Lemma step_Inv c s s' : Inv s -> step c s = Some s' -> Inv s'.
Proof.
  intros HI Hs. destruct c as [| |f|i|i err]; cbn [step] in Hs.
  - destruct (cancelled s); [discriminate|]. injection Hs as <-. apply cancel_Inv, HI.
  - eapply run_step_Inv; eassumption.
  - eapply poll_return_Inv; eassumption.
  - eapply task_step_Inv; eassumption.
  - eapply processor_return_Inv; eassumption.
Qed.

Lemma exec_Inv cs s s' : Inv s -> exec cs s = Some s' -> Inv s'.
Proof.
  revert s. induction cs as [|c cs IH]; intros s HI Hs; simpl in Hs.
  - injection Hs as <-. exact HI.
  - destruct (step c s) as [s1|] eqn:E; [|discriminate].
    eapply IH; [eapply step_Inv; eassumption | exact Hs].
Qed.

Lemma reachable_Inv b cs s : exec cs (init b) = Some s -> Inv s.
Proof. apply exec_Inv, init_Inv. Qed.

(** *** Batches with fetch errors *)

(** The step of line 60-65: a batch with errors is logged and dropped. *)
Lemma poll_return_errors s f :
  Inv s -> pc s = InPoll -> Errors f <> [] ->
  exists s1, step (PollReturn f) s = Some s1 /\
    history s1 = rev (map (fun e => Log (fetch_error_entry e)) (Errors f))
                   ++ Fetched f :: history s /\
    pc s1 = LoopHead /\ tasks s1 = [] /\ cancelled s1 = cancelled s.
Proof.
  intros HI Hp Herr. destruct s as [p c w ts h]. cbn [pc cancelled wg tasks history] in *.
  subst p. open_Inv. destruct HI as (-> & _).
  cbn [step]. unfold poll_return. cbn [pc cancelled wg tasks history].
  destruct (Errors f) as [|e errs] eqn:He; [contradiction|]. rewrite <- He.
  eexists. split; [reflexivity|]. cbn [pc cancelled wg tasks history]. auto.
Qed.

(** C4. In every reachable state of the loop: when the poll of the current
    iteration returns a batch that carries at least one fetch error, [Run]
    logs every error, in order, and goes straight back to the loop head
    without starting a goroutine; and throughout an iteration whose batch
    carried an error no record has been handed to a goroutine and the
    processor has not been called, whatever records came with the errors.
    From the loop head the next poll follows unless the context is
    cancelled. *)
Theorem fetch_errors_skip_dispatch (b : bool) (cs : list Choice) (s : State)
  (f : Fetches) :
  exec cs (init b) = Some s ->
  Errors f <> [] ->
  (pc s = InPoll ->
     exists s1, step (PollReturn f) s = Some s1 /\
       history s1 = rev (map (fun e => Log (fetch_error_entry e)) (Errors f))
                      ++ Fetched f :: history s /\
       pc s1 = LoopHead /\ tasks s1 = [])
  /\ (fetched (since_poll (history s)) = Some f ->
      calls (since_poll (history s)) = [] /\
      spawned (since_poll (history s)) = [] /\
      tasks s = [] /\
      (pc s = LoopHead \/ pc s = Checked \/ pc s = Returned) /\
      (pc s = LoopHead -> cancelled s = false ->
         exists s2, exec [RunStep; RunStep] s = Some s2 /\
                    pc s2 = InPoll /\ history s2 = PollFetches :: history s)).
Proof.
  intros Hreach Herr. pose proof (reachable_Inv _ _ _ Hreach) as HI.
  destruct s as [p c w ts h]. cbn [pc cancelled wg tasks history] in *. split.
  - intros Hp.
    destruct (poll_return_errors _ f HI Hp Herr) as (s1 & E1 & Hh1 & Hp1 & Ht1 & _).
    exists s1. auto.
  - intros Hf. destruct p; open_Inv.
    + destruct HI as (Ht & Hset). unfold settled in Hset. rewrite Hf in Hset.
      destruct (Errors f) as [|e errs] eqn:He; [contradiction|].
      destruct Hset as (Hc & _ & Hsp). repeat split; auto.
      intros _ ->. eexists. split; [reflexivity|]. auto.
    + destruct HI as (Ht & Hset). unfold settled in Hset. rewrite Hf in Hset.
      destruct (Errors f) as [|e errs] eqn:He; [contradiction|].
      destruct Hset as (Hc & _ & Hsp). repeat split; auto. discriminate.
    + destruct HI as (_ & Hn & _). congruence.
    + destruct HI as (f' & Hf' & He' & _). congruence.
    + destruct HI as (f' & Hf' & He' & _). congruence.
    + destruct HI as (Ht & Hset). unfold settled in Hset. rewrite Hf in Hset.
      destruct (Errors f) as [|e errs] eqn:He; [contradiction|].
      destruct Hset as (Hc & _ & Hsp). repeat split; auto. discriminate.
Qed.

(** The first poll answers with [bad_batch]: one error logged, back at the
    loop head, no goroutine. *)
Lemma fetch_errors_skip_dispatch_witness :
  exists s1,
    step (PollReturn bad_batch) (mkState InPoll false 0 [] [PollFetches]) = Some s1 /\
    history s1 =
      rev (map (fun e => Log (fetch_error_entry e)) (Errors bad_batch))
        ++ Fetched bad_batch :: [PollFetches] /\
    pc s1 = LoopHead /\ tasks s1 = [].
Proof.
  refine (proj1 (fetch_errors_skip_dispatch false [RunStep; RunStep]
                   (mkState InPoll false 0 [] [PollFetches]) bad_batch eq_refl _) eq_refl).
  discriminate.
Defined.

(** *** Progress: a batch in flight can always be brought to its join *)

Lemma exec_app cs1 cs2 s :
  exec (cs1 ++ cs2) s = match exec cs1 s with Some s' => exec cs2 s' | None => None end.
Proof.
  revert s. induction cs1 as [|c cs1 IH]; intros s; simpl; [reflexivity|].
  destruct (step c s); [apply IH | reflexivity].
Qed.



Lemma since_poll_inert l h :
  Forall (fun e => inert e = true) l -> since_poll (l ++ h) = l ++ since_poll h.
Proof.
  induction 1 as [|e l He _ IH]; [reflexivity|].
  simpl. rewrite IH. destruct e; try discriminate; reflexivity.
Qed.











(** *** Batches without fetch errors *)










(** *** Cancellation *)

(** What each kind of step does to the position of [Run] and to the
    context. *)
Lemma step_shape c s s' :
  step c s = Some s' ->
  match c with
  | SignalCancel =>
      cancelled s = false /\ pc s' = pc s /\ cancelled s' = true /\ tasks s' = tasks s
  | RunStep =>
      cancelled s' = cancelled s /\
      match pc s with
      | LoopHead =>
          if cancelled s
          then pc s' = Returned /\ history s' = Log stop_entry :: history s
          else pc s' = Checked /\ history s' = history s
      | Checked => pc s' = InPoll
      | InEachRecord [] => pc s' = InWait
      | InEachRecord (_ :: pending) => pc s' = InEachRecord pending
      | InWait => pc s' = LoopHead
      | InPoll | Returned => False
      end
  | PollReturn f =>
      pc s = InPoll /\ cancelled s' = cancelled s /\
      (pc s' = LoopHead \/ pc s' = InEachRecord (Records f))
  | TaskStep i | ProcessorReturn i _ =>
      pc s' = pc s /\ cancelled s' = cancelled s /\ is_Some (tasks s !! i)
  end.
Proof.
  destruct s as [p b w ts h]. destruct c as [| |f|i|i err];
    cbn [step pc cancelled wg tasks history].
  - destruct b; [discriminate|]. intros [= <-]. auto.
  - unfold run_step. cbn [pc cancelled wg tasks history].
    destruct p as [| | |[|r pending]| |]; try discriminate.
    + destruct b; intros [= <-]; auto.
    + intros [= <-]. auto.
    + intros [= <-]. auto.
    + intros [= <-]. auto.
    + destruct w; [|discriminate]. intros [= <-]. auto.
  - unfold poll_return. cbn [pc cancelled wg tasks history].
    destruct p; try discriminate.
    destruct (Errors f); intros [= <-]; auto.
  - unfold task_step. cbn [pc cancelled wg tasks history].
    destruct (ts !! i) as [[r [| |e|]]|]; try discriminate; intros [= <-]; eauto.
  - unfold processor_return. cbn [pc cancelled wg tasks history].
    destruct (ts !! i) as [[r [| |e|]]|]; try discriminate; intros [= <-]; eauto.
Qed.

Lemma step_stopped_by_cancel c s s' :
  Inv s -> stopped_by_cancel s -> step c s = Some s' -> stopped_by_cancel s'.
Proof.
  intros HI HK Hs. pose proof (step_shape _ _ _ Hs) as Hsh. unfold stopped_by_cancel in *.
  intros Hp'. destruct c as [| |f|i|i err].
  - destruct Hsh as (_ & _ & Hc & _). exact Hc.
  - destruct Hsh as (Hc & Hsh). rewrite Hc.
    destruct (pc s) as [| | |[|r pending]| |]; try congruence; try contradiction.
    destruct (cancelled s); [reflexivity|]. destruct Hsh. congruence.
  - destruct Hsh as (_ & _ & [H | H]); congruence.
  - destruct Hsh as (Hp & Hc & _). rewrite Hc. apply HK. congruence.
  - destruct Hsh as (Hp & Hc & _). rewrite Hc. apply HK. congruence.
Qed.

Lemma reachable_stopped_by_cancel b cs s :
  exec cs (init b) = Some s -> stopped_by_cancel s.
Proof.
  assert (H : forall cs s0 s1, Inv s0 -> stopped_by_cancel s0 ->
                exec cs s0 = Some s1 -> stopped_by_cancel s1).
  { clear. induction cs as [|c cs IH]; intros s0 s1 HI HK Hs; simpl in Hs.
    - injection Hs as <-. exact HK.
    - destruct (step c s0) as [s'|] eqn:E; [|discriminate].
      eapply IH; [eapply step_Inv; eassumption| |exact Hs].
      eapply step_stopped_by_cancel; eassumption. }
  apply H; [apply init_Inv | discriminate].
Qed.

(** Once [Run] has returned nothing moves any more. *)
Lemma no_step_after_return c s :
  Inv s -> stopped_by_cancel s -> pc s = Returned -> step c s = None.
Proof.
  intros HI HK Hp. destruct (step c s) as [s'|] eqn:Hs; [|reflexivity]. exfalso.
  pose proof (step_shape _ _ _ Hs) as Hsh. specialize (HK Hp).
  destruct s as [p b w ts h]. cbn [pc cancelled tasks] in *. subst p b.
  open_Inv. destruct HI as (-> & _).
  destruct c as [| |f|i|i err]; cbn [pc cancelled tasks] in Hsh.
  - destruct Hsh as (H & _). discriminate.
  - destruct Hsh as (_ & []).
  - destruct Hsh as (H & _). discriminate.
  - destruct Hsh as (_ & _ & [x Hx]). discriminate.
  - destruct Hsh as (_ & _ & [x Hx]). discriminate.
Qed.





End ConsumerFacts.

(* ##################################################################### *)
(** * Further properties *)
(* ##################################################################### *)

(* ===================================================================== *)
(** ** More on the readiness tracker *)
(* ===================================================================== *)

Section HealthMore.

Import health.

Lemma probe_ready_status c visit r :
  range_order c visit -> ready c = true ->
  (http.status (probe visit c r) = Some 503%Z <->
   exists name check, readinessChecks c !! name = Some check /\ check tt <> None) /\
  (http.status (probe visit c r) = Some 503%Z \/
   http.status (probe visit c r) = Some 200%Z).
Proof.
  intros Hord Hr. unfold range_order in Hord. unfold probe, ReadinessProbe.
  rewrite Hr. cbn [negb].
  destruct (first_failing visit) as [[name err]|] eqn:Hff.
  - destruct (first_failing_Some _ _ _ Hff) as (check & Hin & Herr).
    rewrite status_Error. split; [|left; reflexivity].
    split; [|reflexivity]. intros _. exists name, check. split; [|congruence].
    apply elem_of_map_to_list. rewrite <- Hord. exact Hin.
  - pose proof (first_failing_None _ Hff) as Hnone.
    split; [|right; reflexivity]. split; [discriminate|].
    intros (name & check & Hlk & Hne). exfalso. apply Hne, (Hnone name).
    rewrite Hord. apply elem_of_map_to_list. exact Hlk.
Qed.

(** X1. Registering a check under a name replaces whatever was registered
    under it: on a ready checker the probe after [AddReadinessCheck name
    check] answers 503 exactly when [check] fails or a check registered
    under another name fails; the check that [name] held before has no
    say any more. *)
Theorem add_check_replaces (c : Checker) (name : string) (check : Check)
  (visit : list (string * Check)) (r : http.Request) :
  ready c = true ->
  range_order (AddReadinessCheck name check c) visit ->
  (http.status (probe visit (AddReadinessCheck name check c) r) = Some 503%Z <->
   check tt <> None \/
   exists name' check', name' <> name /\
     readinessChecks c !! name' = Some check' /\ check' tt <> None).
Proof.
  intros Hr Hord.
  destruct (probe_ready_status _ visit r Hord Hr) as [Hiff _].
  rewrite Hiff. unfold AddReadinessCheck. cbn [readinessChecks]. split.
  - intros (n & ch & Hlk & Hne). destruct (decide (n = name)) as [->|Hn].
    + rewrite lookup_insert_eq in Hlk. injection Hlk as <-. left. exact Hne.
    + rewrite lookup_insert_ne in Hlk by congruence. right. eauto.
  - intros [Hne | (n & ch & Hn & Hlk & Hne)].
    + exists name, check. rewrite lookup_insert_eq. auto.
    + exists n, ch. rewrite lookup_insert_ne by congruence. auto.
Qed.

(** A failing "db" check is replaced by a passing one: the probe recovers. *)
Lemma add_check_replaces_witness :
  let c := AddReadinessCheck "db" (fun _ => Some "down") (SetReady true NewChecker) in
  let c' := AddReadinessCheck "db" (fun _ => None) c in
  http.status (probe (map_to_list (readinessChecks c')) c' (http.mkRequest "GET" "/ready"))
    = Some 503%Z <->
  (fun _ : unit => @None error) tt <> None \/
  exists name' check', name' <> "db" /\
    readinessChecks c !! name' = Some check' /\ check' tt <> None.
Proof.
  intros c c'.
  apply (add_check_replaces c "db" (fun _ => None) (map_to_list (readinessChecks c'))
           (http.mkRequest "GET" "/ready")).
  - reflexivity.
  - unfold range_order. reflexivity.
Defined.

(** X2. Which failing check the 503 body names is up to the order in which
    [range] walks the map: for every failing check of a ready checker
    there is a visiting order under which the body names exactly that
    check and its error. *)
Theorem any_failing_check_may_be_named (c : Checker) (name : string) (check : Check)
  (err : error) (r : http.Request) :
  ready c = true ->
  readinessChecks c !! name = Some check ->
  check tt = Some err ->
  exists visit, range_order c visit /\
    http.status (probe visit c r) = Some 503%Z /\
    http.body (probe visit c r) = (name +:+ " is not ready: " +:+ err) +:+ LF.
Proof.
  intros Hr Hlk Herr.
  apply elem_of_map_to_list in Hlk. apply elem_of_Permutation in Hlk as (k & Hk).
  exists ((name, check) :: k). split; [unfold range_order; symmetry; exact Hk|].
  unfold probe, ReadinessProbe. rewrite Hr. cbn [negb first_failing].
  rewrite Herr. rewrite status_Error, body_Error. auto.
Qed.

Lemma any_failing_check_may_be_named_witness :
  let c := AddReadinessCheck "cache" (fun _ => Some "cold")
             (AddReadinessCheck "db" (fun _ => Some "down") (SetReady true NewChecker)) in
  exists visit, range_order c visit /\
    http.status (probe visit c (http.mkRequest "GET" "/ready")) = Some 503%Z /\
    http.body (probe visit c (http.mkRequest "GET" "/ready")) =
      ("db" +:+ " is not ready: " +:+ "down") +:+ LF.
Proof.
  intros c.
  apply (any_failing_check_may_be_named c "db" (fun _ => Some "down") "down"
           (http.mkRequest "GET" "/ready")); reflexivity.
Defined.

Lemma calls_keeps_check ops : forall c name check,
  readinessChecks c !! name = Some check ->
  forallb (fun op => negb (registers name op)) ops = true ->
  readinessChecks (calls ops c) !! name = Some check.
Proof.
  induction ops as [|op ops IH]; intros c name check Hlk Hops; [exact Hlk|].
  simpl in Hops. apply andb_true_iff in Hops as [Hop Hops].
  apply IH; [|exact Hops].
  destruct op as [n ch|b]; simpl in *; [|exact Hlk].
  apply negb_true_iff, String.eqb_neq in Hop.
  rewrite lookup_insert_ne by exact Hop. exact Hlk.
Qed.

(** X3. There is no way to take a check out: a failing check keeps the
    probe at 503 through every later history of calls, [SetReady(true)]
    included, as long as no call registers a check under the same name
    again. *)
Theorem failing_check_sticks (c : Checker) (name : string) (check : Check)
  (ops : list Call) (visit : list (string * Check)) (r : http.Request) :
  readinessChecks c !! name = Some check ->
  check tt <> None ->
  forallb (fun op => negb (registers name op)) ops = true ->
  range_order (calls ops c) visit ->
  readinessChecks (calls ops c) !! name = Some check /\
  http.status (probe visit (calls ops c) r) = Some 503%Z.
Proof.
  intros Hlk Hne Hops Hord.
  pose proof (calls_keeps_check ops c name check Hlk Hops) as Hlk'.
  split; [exact Hlk'|].
  destruct (ready (calls ops c)) eqn:Hr.
  - apply (probe_ready_status _ visit r Hord Hr). eauto.
  - unfold probe, ReadinessProbe. rewrite Hr. reflexivity.
Qed.

Lemma failing_check_sticks_witness :
  let c := AddReadinessCheck "db" (fun _ => Some "down") NewChecker in
  let ops := [CallSetReady true; CallAddReadinessCheck "cache" (fun _ => None)] in
  http.status (probe (map_to_list (readinessChecks (calls ops c))) (calls ops c)
                 (http.mkRequest "GET" "/ready")) = Some 503%Z.
Proof.
  intros c ops.
  refine (proj2 (failing_check_sticks c "db" (fun _ => Some "down") ops
                   (map_to_list (readinessChecks (calls ops c)))
                   (http.mkRequest "GET" "/ready") _ _ _ _)).
  - reflexivity.
  - discriminate.
  - reflexivity.
  - unfold range_order. reflexivity.
Defined.

End HealthMore.

(* ===================================================================== *)
(** ** More on option construction *)
(* ===================================================================== *)

Section KgoMore.

Import kgo.

Variable P : Platform.

Lemma split_comma_nonempty cur s : split_comma cur s <> [].
Proof.
  revert cur. induction s as [|c s IH]; intros cur; simpl; [discriminate|].
  destruct (Ascii.eqb c ","); [discriminate | apply IH].
Qed.

Lemma string_app_assoc (a b c : string) : (a +:+ b) +:+ c = a +:+ (b +:+ c).
Proof.
  induction a as [|x a IH]; [reflexivity|].
  change (String x ((a +:+ b) +:+ c) = String x (a +:+ (b +:+ c))).
  f_equal. exact IH.
Qed.

Lemma string_app_nil_r (a : string) : a +:+ "" = a.
Proof.
  induction a as [|x a IH]; [reflexivity|].
  change (String x (a +:+ "") = String x a). f_equal. exact IH.
Qed.

Lemma has_comma_app a b : has_comma (a +:+ b) = has_comma a || has_comma b.
Proof.
  induction a as [|x a IH]; [reflexivity|].
  change (Ascii.eqb x ","%char || has_comma (a +:+ b) =
          Ascii.eqb x ","%char || has_comma a || has_comma b).
  rewrite IH. apply orb_assoc.
Qed.

Lemma split_comma_spec s : forall cur,
  has_comma cur = false ->
  String.concat "," (split_comma cur s) = cur +:+ s /\
  Forall (fun a => has_comma a = false) (split_comma cur s) /\
  length (split_comma cur s) = S (commas s).
Proof.
  induction s as [|c s IH]; intros cur Hcur.
  - cbn [split_comma String.concat commas length]. rewrite string_app_nil_r.
    split; [reflexivity|]. split; [repeat constructor; exact Hcur | reflexivity].
  - cbn [split_comma commas]. destruct (Ascii.eqb c ",") eqn:Hc.
    + apply Ascii.eqb_eq in Hc. subst c.
      destruct (IH EmptyString eq_refl) as (H1 & H2 & H3).
      split; [|split; [constructor; assumption | simpl; rewrite H3; reflexivity]].
      cbn [String.concat].
      destruct (split_comma EmptyString s) eqn:Hs; [exfalso; eapply split_comma_nonempty; eauto|].
      rewrite H1. reflexivity.
    + assert (Hcur' : has_comma (cur +:+ String c EmptyString) = false).
      { rewrite has_comma_app, Hcur. simpl. rewrite Hc. reflexivity. }
      destruct (IH _ Hcur') as (H1 & H2 & H3).
      split; [|split; [exact H2 | exact H3]].
      rewrite H1, string_app_assoc. reflexivity.
Qed.

Lemma sasl_step_exact s opts p :
  sasl_step P s opts p =
  if sasl_fails P s then
    (log (zap.Fatalf ("Unsupported SASL mechanism: " +:+ config.Mechanism s)) p, Exit 1%Z)
  else
    (p, Return (opts ++ (if config.SASL_Enabled s then
                           match mechanism_of P s with
                           | Some m => [SASL m]
                           | None => []
                           end
                         else []))).
Proof.
  unfold sasl_step, sasl_fails, supported_mechanism, mechanism_of.
  destruct (config.SASL_Enabled s); cbn [andb]; [|rewrite app_nil_r; reflexivity].
  repeat match goal with
         | |- context [if String.eqb ?a ?b then _ else _] => destruct (String.eqb a b)
         end; reflexivity.
Qed.

Lemma build_closed_form cfg tp p :
  BuildKgoOptions P cfg tp p = closed_form P cfg tp p.
Proof.
  unfold BuildKgoOptions, closed_form, bind, strategy_log, optional_opts.
  fold (base_opts cfg).
  rewrite rebalance_step_returns.
  destruct (config.Otel_Enabled cfg);
  destruct (strategy_balancer P _) as [b|];
    rewrite tls_step_outcome;
    (destruct (config.TLS_Enabled _); [destruct (createTLSConfig P _ _ _) as [err|c]|]);
    rewrite ?sasl_step_exact;
    try destruct (sasl_fails P _);
    unfold log, act, ret, tls_fatal, sasl_fatal; cbn [trace checker app];
    rewrite <- ?app_assoc; cbn [app]; rewrite ?app_nil_r;
    try reflexivity;
    destruct p as [t c0]; cbn [trace checker]; rewrite ?app_nil_r; reflexivity.
Qed.

Lemma build_returns cfg tp p p' opts :
  BuildKgoOptions P cfg tp p = (p', Return opts) ->
  opts = base_opts cfg ++ optional_opts P cfg tp /\
  tls_fails P (config.Kafka_TLS (config.Config_Kafka cfg)) = false /\
  sasl_fails P (config.Kafka_SASL (config.Config_Kafka cfg)) = false.
Proof.
  rewrite build_closed_form. unfold closed_form, tls_fails.
  destruct (config.TLS_Enabled _); cbn [andb];
    [destruct (createTLSConfig P _ _ _); [discriminate|]|];
    destruct (sasl_fails P _); try discriminate; intros [= _ <-]; auto.
Qed.

Ltac split_cases :=
  repeat match goal with
         | |- context [if ?b then _ else _] => destruct b
         | |- context [match ?x with _ => _ end] => destruct x
         end.

Lemma seed_brokers_optional cfg tp : seed_brokers (optional_opts P cfg tp) = [].
Proof.
  unfold optional_opts, seed_brokers. rewrite !omap_app.
  split_cases; reflexivity.
Qed.

(** X4. The seed brokers are the configured string cut at its commas and
    nothing else: joined with commas they give the string back, none of
    them contains a comma, there is one more of them than commas (so an
    empty string gives one empty address), and white space is kept. *)
Theorem seed_brokers_rejoin cfg tp p p' opts :
  BuildKgoOptions P cfg tp p = (p', Return opts) ->
  exists addrs,
    seed_brokers opts = [addrs] /\
    String.concat "," addrs = config.Brokers (config.Config_Kafka cfg) /\
    Forall (fun a => has_comma a = false) addrs /\
    length addrs = S (commas (config.Brokers (config.Config_Kafka cfg))).
Proof.
  intros Hb. destruct (build_returns _ _ _ _ _ Hb) as (-> & _ & _).
  exists (split_comma EmptyString (config.Brokers (config.Config_Kafka cfg))).
  split; [|apply (split_comma_spec _ EmptyString eq_refl)].
  unfold seed_brokers. rewrite omap_app.
  change (omap _ (optional_opts P cfg tp)) with (seed_brokers (optional_opts P cfg tp)).
  rewrite seed_brokers_optional. reflexivity.
Qed.

End KgoMore.

Lemma seed_brokers_rejoin_witness :
  exists addrs,
    kgo.seed_brokers (kgo.base_opts kgo.secure_config
                        ++ kgo.optional_opts kgo.disk_platform kgo.secure_config (Some "otlp"))
      = [addrs] /\
    String.concat "," addrs = "broker-1:9093, broker-2:9093" /\
    Forall (fun a => kgo.has_comma a = false) addrs /\
    length addrs = 2.
Proof.
  exact (seed_brokers_rejoin kgo.disk_platform kgo.secure_config (Some "otlp")
           kgo.fresh_process kgo.fresh_process
           (kgo.base_opts kgo.secure_config
              ++ kgo.optional_opts kgo.disk_platform kgo.secure_config (Some "otlp"))
           eq_refl).
Defined.

Section KgoOptions.

Import kgo.

Variable P : Platform.

Lemma supported_mechanism_of s :
  supported_mechanism P (config.Mechanism s) = true -> exists m, mechanism_of P s = Some m.
Proof.
  unfold supported_mechanism, mechanism_of.
  destruct (String.eqb _ "PLAIN"); [eauto|].
  destruct (String.eqb _ "SCRAM-SHA-256"); [eauto|].
  destruct (String.eqb _ "SCRAM-SHA-512"); [eauto|]. discriminate.
Qed.

(** X5. When [BuildKgoOptions] returns, the list starts with the same eight
    options in the same order, and holds the hooks exactly when telemetry
    is enabled, one TLS option exactly when TLS is enabled (with the
    configuration [createTLSConfig] built), one SASL option exactly when
    SASL is enabled (with the configured user and password under the
    mechanism named), and never more than twelve options. *)
Theorem returned_options cfg tp p p' opts :
  BuildKgoOptions P cfg tp p = (p', Return opts) ->
  let k := config.Config_Kafka cfg in
  take 8 opts = base_opts cfg
  /\ count_opts is_hooks opts = (if config.Otel_Enabled cfg then 1 else 0)
  /\ count_opts is_tls opts = (if config.TLS_Enabled (config.Kafka_TLS k) then 1 else 0)
  /\ count_opts is_sasl opts = (if config.SASL_Enabled (config.Kafka_SASL k) then 1 else 0)
  /\ (forall c, DialTLSConfig c ∈ opts ->
        createTLSConfig P (config.CertFile (config.Kafka_TLS k))
          (config.KeyFile (config.Kafka_TLS k)) (config.CAFile (config.Kafka_TLS k)) = inr c)
  /\ (forall m, SASL m ∈ opts -> mechanism_of P (config.Kafka_SASL k) = Some m)
  /\ length opts <= 12.
Proof.
  intros Hb k. destruct (build_returns P _ _ _ _ _ Hb) as (-> & Ht & Hs).
  unfold tls_fails in Ht. unfold sasl_fails in Hs. fold k in Ht, Hs.
  assert (Hm : config.SASL_Enabled (config.Kafka_SASL k) = true ->
               exists m, mechanism_of P (config.Kafka_SASL k) = Some m).
  { intros He. rewrite He in Hs. cbn [andb] in Hs. apply negb_false_iff in Hs.
    apply supported_mechanism_of, Hs. }
  unfold optional_opts, count_opts. fold k.
  destruct (config.Otel_Enabled cfg);
    destruct (strategy_balancer P _) as [b|];
    destruct (config.TLS_Enabled _);
    try (destruct (createTLSConfig P _ _ _) as [err|c]; [discriminate Ht|]);
    (destruct (config.SASL_Enabled _);
     [destruct (Hm eq_refl) as [m ->]|]);
    cbn [app take List.filter is_hooks is_tls is_sasl length base_opts];
    (split; [reflexivity|]); (split; [reflexivity|]); (split; [reflexivity|]);
    (split; [reflexivity|]);
    (split; [intros c' Hin|split; [intros m' Hin | cbn; lia]]);
    repeat (apply elem_of_cons in Hin as [Hin|Hin]; [try discriminate Hin|]);
    try (inversion Hin; fail);
    try (injection Hin as ->; reflexivity).
Qed.

End KgoOptions.

Lemma returned_options_witness :
  let opts := kgo.base_opts kgo.secure_config
                ++ kgo.optional_opts kgo.disk_platform kgo.secure_config (Some "otlp") in
  kgo.count_opts kgo.is_tls opts = 1 /\ kgo.count_opts kgo.is_sasl opts = 1.
Proof.
  intros opts.
  pose proof (returned_options kgo.disk_platform kgo.secure_config (Some "otlp")
                kgo.fresh_process kgo.fresh_process opts eq_refl) as H.
  cbv zeta in H. destruct H as (_ & _ & H3 & H4 & _). split; [exact H3 | exact H4].
Defined.

Section KgoLogs.

Import kgo.

Variable P : Platform.

Lemma added_mk {A} (m : M A) p evs c o :
  m p = (mkProcess (trace p ++ evs) c, o) -> added m p = evs.
Proof. intros H. unfold added. rewrite H. apply drop_app_length. Qed.

(** X6. What option construction writes to the log, and nothing more: the
    warning about an unknown strategy comes first, also when the process
    then dies; a TLS configuration that cannot be built ends the process
    with its own fatal entry whatever the SASL settings are; otherwise an
    unsupported SASL mechanism ends it with a fatal entry that quotes the
    mechanism as configured; otherwise nothing else is logged and the
    options are returned. The checker is never touched. *)
Theorem build_log_output cfg tp p :
  let k := config.Config_Kafka cfg in
  let t := config.Kafka_TLS k in
  let r := BuildKgoOptions P cfg tp p in
  let tls := createTLSConfig P (config.CertFile t) (config.KeyFile t) (config.CAFile t) in
  (forall err, config.TLS_Enabled t = true -> tls = inl err ->
     snd r = Exit 1%Z /\
     added (BuildKgoOptions P cfg tp) p = strategy_log P cfg ++ [tls_fatal err])
  /\ (tls_fails P t = false -> sasl_fails P (config.Kafka_SASL k) = true ->
      snd r = Exit 1%Z /\
      added (BuildKgoOptions P cfg tp) p =
        strategy_log P cfg ++ [sasl_fatal (config.Mechanism (config.Kafka_SASL k))])
  /\ (tls_fails P t = false -> sasl_fails P (config.Kafka_SASL k) = false ->
      snd r = Return (base_opts cfg ++ optional_opts P cfg tp) /\
      added (BuildKgoOptions P cfg tp) p = strategy_log P cfg)
  /\ checker (fst r) = checker p
  /\ length (strategy_log P cfg) <= 1.
Proof.
  intros k t r tls. subst r tls. rewrite build_closed_form.
  assert (Hadd : forall evs c o,
            closed_form P cfg tp p = (mkProcess (trace p ++ evs) c, o) ->
            added (BuildKgoOptions P cfg tp) p = evs).
  { intros evs c o H. apply (added_mk _ p evs c o). rewrite build_closed_form. exact H. }
  unfold closed_form, tls_fails in *. fold k t in Hadd |- *.
  split; [|split; [|split; [|split]]].
  - intros err He Ht. rewrite He, Ht in *. split; [reflexivity|].
    eapply Hadd. reflexivity.
  - intros Ht Hs. rewrite Hs in *.
    destruct (config.TLS_Enabled t); cbn [andb] in Ht;
      [destruct (createTLSConfig P _ _ _); [discriminate|]|];
      (split; [reflexivity | eapply Hadd; reflexivity]).
  - intros Ht Hs. rewrite Hs in *.
    destruct (config.TLS_Enabled t); cbn [andb] in Ht;
      [destruct (createTLSConfig P _ _ _); [discriminate|]|];
      (split; [reflexivity |]);
      apply (Hadd _ (checker p) (Return (base_opts cfg ++ optional_opts P cfg tp)));
      rewrite app_nil_r || idtac; reflexivity.
  - destruct (config.TLS_Enabled t); [destruct (createTLSConfig P _ _ _)|];
      try destruct (sasl_fails P _); reflexivity.
  - unfold strategy_log. destruct (strategy_balancer P _); simpl; lia.
Qed.

(** X7. [createTLSConfig] loads a client certificate only when both the
    certificate path and the key path are given: with either one empty no
    key pair is read and the outcome depends on the CA path alone (with
    all three empty the configuration is empty and there is no error). A
    key pair that fails to load is reported before the CA file is looked
    at; and a configuration that is returned has at most one certificate,
    and root CAs exactly when a CA path was given. *)
Theorem createTLSConfig_cases (certFile keyFile caFile : string) :
  ((certFile = "" \/ keyFile = "") ->
     createTLSConfig P certFile keyFile caFile =
     if String.eqb caFile "" then inr (mkTlsConfig [] None)
     else match ReadFile P caFile with
          | inl err => inl ("could not read CA certificate: " +:+ err)
          | inr caCert => inr (mkTlsConfig [] (Some caCert))
          end)
  /\ (forall err, certFile <> "" -> keyFile <> "" ->
        LoadX509KeyPair P certFile keyFile = inl err ->
        createTLSConfig P certFile keyFile caFile =
          inl ("could not load client key pair: " +:+ err))
  /\ (forall c, createTLSConfig P certFile keyFile caFile = inr c ->
        length (Certificates c) <= 1 /\
        (RootCAs c = None <-> caFile = "") /\
        (Certificates c = [] <-> certFile = "" \/ keyFile = "")).
Proof.
  split; [|split].
  - intros Hempty. unfold createTLSConfig.
    assert (He : negb (String.eqb certFile "") && negb (String.eqb keyFile "") = false).
    { destruct Hempty as [-> | ->]; [reflexivity|]. apply andb_false_r. }
    rewrite He. destruct (String.eqb caFile ""); [reflexivity|]. cbn [negb].
    destruct (ReadFile P caFile); reflexivity.
  - intros err Hc Hk Hl. apply createTLSConfig_bad_pair; assumption.
  - intros c. unfold createTLSConfig.
    destruct (String.eqb_spec certFile "") as [Hc|Hc];
      destruct (String.eqb_spec keyFile "") as [Hk|Hk]; cbn [negb andb];
      try destruct (LoadX509KeyPair P certFile keyFile) as [e|cert]; try discriminate;
      destruct (String.eqb_spec caFile "") as [Ha|Ha]; cbn [negb];
      try destruct (ReadFile P caFile) as [e'|pem]; try discriminate;
      intros [= <-]; cbn [Certificates RootCAs length];
      (split; [lia|]); split; split; intros H; try reflexivity; try congruence;
      try discriminate H; auto; try (destruct H; congruence).
Qed.

(** X8. With the options that [BuildKgoOptions] returns, every rebalance
    event writes exactly one log entry, carrying the event's partitions:
    at info level for an assignment or a revocation, at warning level for
    a loss; and no event touches the registered readiness checks. *)
Theorem rebalance_event_logs cfg tp p0 p1 opts (ev : RebalanceEvent) (p : Process) :
  BuildKgoOptions P cfg tp p0 = (p1, Return opts) ->
  exists e,
    trace (deliver opts p ev) = trace p ++ [Logged e] /\
    zap.level e = match ev with Lost _ => zap.WarnLevel | _ => zap.InfoLevel end /\
    zap.fields e = [("partitions", zap.FPartitions (partitions_of ev))] /\
    health.readinessChecks (checker (deliver opts p ev)) = health.readinessChecks (checker p).
Proof.
  intros Hb. rewrite (deliver_built P _ _ _ _ _ Hb).
  destruct ev; eexists; repeat split; reflexivity.
Qed.

End KgoLogs.

Lemma createTLSConfig_cases_witness :
  kgo.createTLSConfig kgo.bare_platform "/missing/client.pem" "/missing/client.key" "/missing/ca.pem"
    = inl ("could not load client key pair: " +:+ "open: no such file or directory").
Proof.
  refine (proj1 (proj2 (createTLSConfig_cases kgo.bare_platform "/missing/client.pem"
                          "/missing/client.key" "/missing/ca.pem")) _ _ _ eq_refl);
    discriminate.
Defined.

(** Both TLS and SASL broken, the strategy empty: the warning, then the TLS
    entry; the SASL mechanism is never looked at. *)
Example broken_config_log :
  kgo.added (kgo.BuildKgoOptions kgo.bare_platform kgo.broken_config None)
    kgo.fresh_process =
  [ kgo.unknown_strategy_warning "";
    kgo.tls_fatal ("could not load client key pair: " +:+ "open: no such file or directory") ].
Proof. reflexivity. Qed.

Lemma rebalance_event_logs_witness :
  exists e,
    trace (kgo.deliver kgo.sample_opts kgo.fresh_process (kgo.Lost {["t" := [0%Z]]}))
      = trace kgo.fresh_process ++ [Logged e] /\
    zap.level e = zap.WarnLevel /\
    zap.fields e = [("partitions", zap.FPartitions {["t" := [0%Z]]})] /\
    health.readinessChecks
      (checker (kgo.deliver kgo.sample_opts kgo.fresh_process (kgo.Lost {["t" := [0%Z]]})))
      = health.readinessChecks (checker kgo.fresh_process).
Proof.
  exact (rebalance_event_logs kgo.bare_platform kgo.sample_config None kgo.fresh_process
           kgo.sample_built kgo.sample_opts (kgo.Lost {["t" := [0%Z]]}) kgo.fresh_process
           eq_refl).
Defined.

(* ===================================================================== *)
(** ** Telemetry providers, [New] and [Start] *)
(* ===================================================================== *)

Section AppMore.

Import ktel.

Lemma init_otel_facts (k : otel.Sdk) (cfg : config.Config) (p : Process)
  tp mp err :
  snd (otel.InitOtelProviders k cfg p) = Return (tp, mp, err) ->
  (tp = None <-> mp = None)
  /\ (err <> None -> tp = None)
  /\ (config.Otel_Enabled cfg = false -> tp = None /\ err = None)
  /\ (config.Otel_Enabled cfg = true -> err = None -> tp = Some (config.Otel_Endpoint cfg))
  /\ checker (fst (otel.InitOtelProviders k cfg p)) = checker p
  /\ Forall (fun e => is_logged e = true) (events_of (otel.InitOtelProviders k cfg) p).
Proof.
  intros Hr.
  assert (Hlog : Forall (fun e => is_logged e = true)
                   (events_of (otel.InitOtelProviders k cfg) p)).
  { destruct (init_otel_only_logs k cfg p) as (l & Hl). unfold events_of.
    rewrite Hl, drop_app_length. apply Forall_forall. intros e He.
    apply list_elem_of_fmap in He as (x & -> & _). reflexivity. }
  revert Hr Hlog. generalize (events_of (otel.InitOtelProviders k cfg) p).
  unfold otel.InitOtelProviders.
  destruct (config.Otel_Enabled cfg); cbn [negb]; unfold bind, emit, ret; cbn [fst snd].
  - destruct (otel.resource_Merge k _); [|destruct (otel.otlptracegrpc_New k _);
      [|cbn [fst snd]; destruct (otel.otlpmetricgrpc_New k _)]];
      cbn [fst snd]; intros l [= <- <- <-] Hl;
      (split; [naive_solver|]); (split; [naive_solver|]);
      (split; [naive_solver|]); (split; [naive_solver|]);
      (split; [reflexivity | exact Hl]).
  - intros l [= <- <- <-] Hl.
    (split; [naive_solver|]); (split; [naive_solver|]);
      (split; [naive_solver|]); (split; [naive_solver|]);
      (split; [reflexivity | exact Hl]).
Qed.

Lemma init_otel_returns (k : otel.Sdk) (cfg : config.Config) (p : Process) :
  exists tp mp err, snd (otel.InitOtelProviders k cfg p) = Return (tp, mp, err).
Proof.
  unfold otel.InitOtelProviders.
  destruct (config.Otel_Enabled cfg); cbn [negb]; unfold bind, emit, ret; cbn [fst snd].
  - destruct (otel.resource_Merge k _); [eauto|].
    destruct (otel.otlptracegrpc_New k _); [eauto|]. cbn [fst snd].
    destruct (otel.otlpmetricgrpc_New k _); cbn [fst snd]; eauto.
  - eauto.
Qed.

(** X9. [InitOtelProviders] always returns: no failure of a constructor
    ends the process. It returns both providers or neither; an error comes
    with neither; with telemetry disabled it returns neither and no error;
    with telemetry enabled it returns no error exactly when the resource
    and both exporters could be created, and then both providers. The
    health checker is not touched. *)
Theorem init_otel_result (k : otel.Sdk) (cfg : config.Config) (p : Process) :
  exists tp mp err,
    snd (otel.InitOtelProviders k cfg p) = Return (tp, mp, err)
    /\ (tp = None <-> mp = None)
    /\ (err <> None -> tp = None)
    /\ (config.Otel_Enabled cfg = false -> tp = None /\ err = None)
    /\ (config.Otel_Enabled cfg = true ->
         (err = None <->
          otel.resource_Merge k (config.AppName cfg) = None /\
          otel.otlptracegrpc_New k (config.Otel_Endpoint cfg) = None /\
          otel.otlpmetricgrpc_New k (config.Otel_Endpoint cfg) = None))
    /\ (config.Otel_Enabled cfg = true -> err = None ->
         tp = Some (config.Otel_Endpoint cfg) /\ mp = Some (config.Otel_Endpoint cfg))
    /\ checker (fst (otel.InitOtelProviders k cfg p)) = checker p.
Proof.
  unfold otel.InitOtelProviders.
  destruct (config.Otel_Enabled cfg); cbn [negb]; unfold bind, emit, ret; cbn [fst snd].
  - destruct (otel.resource_Merge k _) as [e1|];
      [|destruct (otel.otlptracegrpc_New k _) as [e2|];
        [|cbn [fst snd]; destruct (otel.otlpmetricgrpc_New k _) as [e3|]]];
      cbn [fst snd]; do 3 eexists; (split; [reflexivity|]);
      (split; [intuition congruence|]); (split; [intuition congruence|]);
      (split; [intuition congruence|]); (split; [intuition congruence|]);
      (split; [intuition congruence | reflexivity]).
  - do 3 eexists. split; [reflexivity|].
    (split; [intuition congruence|]); (split; [intuition congruence|]);
      (split; [intuition congruence|]); (split; [intuition congruence|]);
      (split; [intuition congruence | reflexivity]).
Qed.

Lemma logged_only l : Forall (fun e => is_logged e = true) (map Logged l).
Proof.
  apply Forall_forall. intros e He.
  apply list_elem_of_fmap in He as (x & -> & _). reflexivity.
Qed.

(** Everything that is the case when [New] returns an application. *)
Lemma New_returns_app W p a :
  snd (New W p) = Return (inr a) ->
  config_New W = inr (cfg a)
  /\ logger_New W (config.AppName (cfg a)) = None
  /\ kgo_NewClient W (KafkaClient a) = None
  /\ (exists p0, kgo.BuildKgoOptions (platform W) (cfg a) (tracerProvider a) p0
                  = (fst (New W p), Return (KafkaClient a)))
  /\ (exists p0, snd (otel.InitOtelProviders (sdk W) (cfg a) p0)
                  = Return (tracerProvider a, meterProvider a, None))
  /\ checker (fst (New W p)) = health.NewChecker
  /\ Forall (fun e => is_logged e = true) (events_of (New W) p).
Proof.
  unfold events_of, New, bind.
  destruct (config_New W) as [e|cfg0]; [discriminate|].
  destruct (logger_New W _) as [e|] eqn:Hlog; [discriminate|].
  destruct (init_otel_only_logs (sdk W) cfg0 p) as (l1 & Hl1).
  destruct (otel.InitOtelProviders (sdk W) cfg0 p) as [p1 [c|[[tp mp] [e|]]]] eqn:E1;
    try discriminate.
  unfold with_new_checker.
  pose proof (build_outcome (platform W) cfg0 tp
                (with_checker (fun _ => health.NewChecker) p1)) as Hout.
  cbv zeta in Hout. destruct Hout as (_ & _ & _ & _ & (l2 & Hl2) & Hck).
  destruct (kgo.BuildKgoOptions (platform W) cfg0 tp _) as [p2 [c|opts]] eqn:E2;
    [discriminate|].
  destruct (kgo_NewClient W opts) as [e|] eqn:Hcl; [discriminate|].
  cbn [fst snd] in *. intros [= <-]. cbn [cfg KafkaClient tracerProvider meterProvider].
  split; [reflexivity|]. split; [exact Hlog|]. split; [exact Hcl|].
  split; [eexists; exact E2|].
  split; [exists p; rewrite E1; reflexivity|].
  unfold ret. cbn [fst snd].
  split; [rewrite Hck; reflexivity|].
  rewrite Hl2. cbn [with_checker trace]. rewrite Hl1, <- app_assoc, drop_app_length.
  rewrite <- map_app. apply logged_only.
Qed.

(** X10. An application that [New] returns was built from the loaded
    configuration: the logger could be initialised under the configured
    name, its client options are the eight fixed ones followed by the
    optional ones of that configuration, the client constructor accepted
    exactly these options, its providers are both present or both absent
    (absent with telemetry disabled, present with it enabled), and its
    checker is a fresh one (not ready, no checks). *)
Theorem New_success (W : World) (p : Process) (a : app) :
  snd (New W p) = Return (inr a) ->
  config_New W = inr (cfg a)
  /\ logger_New W (config.AppName (cfg a)) = None
  /\ KafkaClient a =
       kgo.base_opts (cfg a) ++ kgo.optional_opts (platform W) (cfg a) (tracerProvider a)
  /\ kgo_NewClient W (KafkaClient a) = None
  /\ (tracerProvider a = None <-> meterProvider a = None)
  /\ (config.Otel_Enabled (cfg a) = false -> tracerProvider a = None)
  /\ (config.Otel_Enabled (cfg a) = true ->
        tracerProvider a = Some (config.Otel_Endpoint (cfg a)))
  /\ checker (fst (New W p)) = health.NewChecker.
Proof.
  intros Hn.
  destruct (New_returns_app W p a Hn) as (Hc & Hlg & Hcl & (p0 & Hb) & (p0' & Ho) & Hck & _).
  destruct (build_returns _ _ _ _ _ _ Hb) as (Hopts & _ & _).
  destruct (init_otel_facts _ _ _ _ _ _ Ho) as (H1 & _ & H3 & H4 & _).
  split; [exact Hc|]. split; [exact Hlg|]. split; [exact Hopts|]. split; [exact Hcl|].
  split; [exact H1|]. split; [intros He; apply (H3 He)|].
  split; [intros He; apply (H4 He eq_refl) | exact Hck].
Qed.

Lemma New_success_witness :
  checker (fst (New (calm_world (inr kgo.sample_config)) kgo.fresh_process))
    = health.NewChecker.
Proof.
  exact (proj2 (proj2 (proj2 (proj2 (proj2 (proj2 (proj2
    (New_success (calm_world (inr kgo.sample_config)) kgo.fresh_process
       (mkApp kgo.sample_config kgo.sample_opts None None) eq_refl)))))))).
Defined.

(** X11. How [New] can end. It ends the process exactly when the
    configuration was loaded, the logger initialised, the telemetry
    providers set up without error, and option construction then failed on
    the TLS configuration or the SASL mechanism; the exit code is 1. A
    failing configuration loader, a failing logger, a failing telemetry
    constructor (whatever the TLS and SASL settings are) and a failing
    client constructor each make [New] return an error that wraps the
    cause, without ending the process. *)
Theorem New_exit (W : World) (p : Process) :
  (forall code, snd (New W p) = Exit code <->
     code = 1%Z /\
     exists c tp mp, config_New W = inr c /\
       logger_New W (config.AppName c) = None /\
       snd (otel.InitOtelProviders (sdk W) c p) = Return (tp, mp, None) /\
       (kgo.tls_fails (platform W) (config.Kafka_TLS (config.Config_Kafka c)) = true \/
        kgo.sasl_fails (platform W) (config.Kafka_SASL (config.Config_Kafka c)) = true))
  /\ (forall e, config_New W = inl e ->
        snd (New W p) = Return (inl ("failed to load configuration: " +:+ e)))
  /\ (forall c e, config_New W = inr c -> logger_New W (config.AppName c) = Some e ->
        snd (New W p) = Return (inl ("failed to initialize logger: " +:+ e)))
  /\ (forall c tp mp e, config_New W = inr c -> logger_New W (config.AppName c) = None ->
        snd (otel.InitOtelProviders (sdk W) c p) = Return (tp, mp, Some e) ->
        snd (New W p) =
          Return (inl ("failed to initialize OpenTelemetry providers: " +:+ e)))
  /\ (forall c tp mp opts e, config_New W = inr c ->
        logger_New W (config.AppName c) = None ->
        snd (otel.InitOtelProviders (sdk W) c p) = Return (tp, mp, None) ->
        snd (kgo.BuildKgoOptions (platform W) c tp
               (with_checker (fun _ => health.NewChecker)
                  (fst (otel.InitOtelProviders (sdk W) c p)))) = Return opts ->
        kgo_NewClient W opts = Some e ->
        snd (New W p) = Return (inl ("failed to create Kafka client: " +:+ e))).
Proof.
  unfold New, bind.
  destruct (config_New W) as [e0|cfg0] eqn:Hcfg.
  { split; [|split; [|split; [|split]]].
    - intros code. split; [discriminate|]. intros (_ & c & tp & mp & H & _). discriminate H.
    - intros e [= <-]. reflexivity.
    - intros c e H. discriminate H.
    - intros c tp mp e H. discriminate H.
    - intros c tp mp opts e H. discriminate H. }
  destruct (logger_New W (config.AppName cfg0)) as [e1|] eqn:Hlog.
  { split; [|split; [|split; [|split]]].
    - intros code. split; [discriminate|].
      intros (_ & c & tp & mp & [= <-] & H & _). congruence.
    - intros e H. discriminate H.
    - intros c e [= <-] H. rewrite Hlog in H. injection H as <-. reflexivity.
    - intros c tp mp e [= <-] H. congruence.
    - intros c tp mp opts e [= <-] H. congruence. }
  destruct (init_otel_returns (sdk W) cfg0 p) as (tp0 & mp0 & err0 & Ho).
  destruct (otel.InitOtelProviders (sdk W) cfg0 p) as [p1 o1] eqn:E1.
  cbn [fst snd] in Ho. subst o1.
  destruct err0 as [e2|].
  { cbn [fst snd]. split; [|split; [|split; [|split]]].
    - intros code. split; [discriminate|].
      intros (_ & c & tp & mp & [= <-] & _ & H & _). rewrite E1 in H. discriminate H.
    - intros e H. discriminate H.
    - intros c e [= <-] H. congruence.
    - intros c tp mp e [= <-] _ H. rewrite E1 in H. cbn [snd] in H.
      injection H as _ _ <-. reflexivity.
    - intros c tp mp opts e [= <-] _ H. rewrite E1 in H. discriminate H. }
  unfold with_new_checker.
  pose proof (build_outcome (platform W) cfg0 tp0
                (with_checker (fun _ => health.NewChecker) p1)) as Hout.
  cbv zeta in Hout. destruct Hout as (Hex & Hcode & _).
  destruct (kgo.BuildKgoOptions (platform W) cfg0 tp0
              (with_checker (fun _ => health.NewChecker) p1)) as [p2 o2] eqn:E2.
  unfold exited in Hex. cbn [fst snd] in *.
  split; [|split; [|split; [|split]]].
  - intros code. destruct o2 as [c2|opts2].
    + destruct (Hcode c2 eq_refl) as [-> _]. split.
      * intros [= <-]. split; [reflexivity|]. exists cfg0, tp0, mp0.
        split; [reflexivity|]. split; [exact Hlog|]. rewrite E1.
        split; [reflexivity|]. symmetry in Hex. apply orb_true_iff in Hex. exact Hex.
      * intros (-> & _). reflexivity.
    + split.
      * destruct (kgo_NewClient W opts2); discriminate.
      * intros (_ & c & tp & mp & [= <-] & _ & _ & Hf).
        apply orb_true_iff in Hf. rewrite Hf in Hex. discriminate Hex.
  - intros e H. discriminate H.
  - intros c e [= <-] H. congruence.
  - intros c tp mp e [= <-] _ H. rewrite E1 in H. discriminate H.
  - intros c tp mp opts e [= <-] _ H Hb He. rewrite E1 in H, Hb. cbn [fst snd] in H, Hb.
    injection H as <- <-. rewrite E2 in Hb. cbn [snd] in Hb. subst o2.
    cbv beta iota. rewrite He. reflexivity.
Qed.

Lemma New_exit_witness :
  snd (New (calm_world (inr kgo.gssapi_config)) kgo.fresh_process) = Exit 1%Z.
Proof.
  refine (proj2 (proj1 (New_exit (calm_world (inr kgo.gssapi_config)) kgo.fresh_process)
                   1%Z) _).
  split; [reflexivity|]. exists kgo.gssapi_config, None, None.
  split; [reflexivity|]. split; [reflexivity|]. split; [reflexivity|].
  right. reflexivity.
Defined.

(** X12. From [New] to the probe: with the application that [New] returns
    the readiness probe answers 503 until the client reports an
    assignment; as long as no readiness check has been registered it
    answers 200 "ok" right after any assignment, and 503 again after a
    revocation or a loss. *)
Theorem ready_after_first_assignment (W : World) (p : Process) (a : app)
  (m : gmap string (list Z)) (r : http.Request) :
  snd (New W p) = Return (inr a) ->
  let p1 := fst (New W p) in
  let p2 := kgo.deliver (KafkaClient a) p1 (kgo.Assigned m) in
  (forall visit, http.status (health.probe visit (checker p1) r) = Some 503%Z)
  /\ http.status (health.probe [] (checker p2) r) = Some 200%Z
  /\ http.body (health.probe [] (checker p2) r) = "ok"
  /\ health.range_order (checker p2) []
  /\ (forall visit,
        http.status (health.probe visit
          (checker (kgo.deliver (KafkaClient a) p2 (kgo.Revoked m))) r) = Some 503%Z)
  /\ (forall visit,
        http.status (health.probe visit
          (checker (kgo.deliver (KafkaClient a) p2 (kgo.Lost m))) r) = Some 503%Z).
Proof.
  intros Hn p1 p2.
  destruct (New_returns_app W p a Hn) as (_ & _ & _ & (p0 & Hb) & _ & Hck & _).
  fold p1 in Hck. subst p2.
  rewrite !(deliver_built _ _ _ _ _ _ Hb). cbn [kgo.on_event].
  unfold kgo.onAssigned, kgo.onRevoked, kgo.onLost, with_checker, log, act.
  cbn [checker trace]. rewrite Hck.
  repeat split; try reflexivity.
  unfold health.range_order. cbn. rewrite map_to_list_empty. reflexivity.
Qed.

Lemma ready_after_first_assignment_witness :
  let W := calm_world (inr kgo.sample_config) in
  let a := mkApp kgo.sample_config kgo.sample_opts None None in
  http.status (health.probe []
    (checker (kgo.deliver (KafkaClient a) (fst (New W kgo.fresh_process))
                (kgo.Assigned {["t" := [0; 1]%Z]})))
    (http.mkRequest "GET" "/ready")) = Some 200%Z.
Proof.
  intros W a.
  exact (proj1 (proj2 (ready_after_first_assignment W kgo.fresh_process a
                         {["t" := [0; 1]%Z]} (http.mkRequest "GET" "/ready") eq_refl))).
Defined.

Ltac emits_go :=
  first
    [ apply emits_ret | apply emits_perform | apply emits_emit
    | eapply emits_bind; [emits_go | cbv beta iota; emits_go] ].

(** X13. When the instrumentor cannot be created [Start] returns that error
    at once: the probe server's goroutine has been started and is left
    running, the consumer loop is never started, and none of the shutdown
    steps runs -- no server shutdown, no provider shutdown, no client
    close, no cleanup function, no join. Only the deferred [stop()]
    runs. *)
Theorem Start_without_instrumentor (W : World) (a : app) (cleanupFns : nat)
  (p : Process) (err : error) :
  telemetry_NewInstrumentor W = Some err ->
  snd (Start W a cleanupFns p) = Return (Some ("failed to create telemetry instrumentor: " +:+ err))
  /\ events_of (Start W a cleanupFns) p =
       [NotifyContext; GoHealthServer (":" +:+ config.Server_Port (cfg a)); StopNotify]
  /\ occurrences is_shutdown (events_of (Start W a cleanupFns) p) = 0
  /\ occurrences is_goroutine_start (events_of (Start W a cleanupFns) p) = 1
  /\ checker (fst (Start W a cleanupFns p)) = checker p.
Proof.
  intros HI.
  assert (H : emits (Start W a cleanupFns)
                [NotifyContext; GoHealthServer (":" +:+ config.Server_Port (cfg a)); StopNotify]
                (Some ("failed to create telemetry instrumentor: " +:+ err))).
  { unfold Start, startHealthCheckServer, startConsumer. rewrite HI.
    eapply emits_eq; [emits_go | reflexivity]. }
  rewrite (emits_events_of _ _ _ p H). rewrite (H p). cbn [fst snd checker].
  repeat split; reflexivity.
Qed.

Lemma Start_without_instrumentor_witness :
  occurrences is_shutdown
    (events_of (Start no_instrumentor_world sample_app 3) kgo.fresh_process) = 0.
Proof.
  exact (proj1 (proj2 (proj2
    (Start_without_instrumentor no_instrumentor_world sample_app 3 kgo.fresh_process
       "duplicate instrument" eq_refl)))).
Defined.











(** X25. With a nil tracer provider [Start] does not get as far as its
    shutdown path. Once the instrumentor has been created, line 189 calls
    [Tracer] on the nil provider and panics: the probe server's goroutine
    has been started, the consumer loop has not, the deferred [stop()] runs
    and the process ends with status 2, none of the shutdown steps having
    run. An application that [New] builds with telemetry disabled has a nil
    tracer provider, so [run] ends this way for every configuration that
    disables telemetry. *)
Theorem Start_panics_without_tracer_provider (W : World) (a : app) (cleanupFns : nat)
  (p : Process) :
  telemetry_NewInstrumentor W = None ->
  tracerProvider a = None ->
  snd (Start W a cleanupFns p) = Exit 2%Z
  /\ events_of (Start W a cleanupFns) p =
       [NotifyContext; GoHealthServer (":" +:+ config.Server_Port (cfg a)); StopNotify]
  /\ occurrences is_shutdown (events_of (Start W a cleanupFns) p) = 0
  /\ occurrences is_consumer_start (events_of (Start W a cleanupFns) p) = 0
  /\ (forall p0 a0, snd (New W p0) = Return (inr a0) ->
        config.Otel_Enabled (cfg a0) = false ->
        snd (run W p0) = Exit 2%Z).
Proof.
  intros HI HT.
  assert (Hrun : forall a' n q, tracerProvider a' = None ->
            Start W a' n q =
            (mkProcess (trace q ++ [NotifyContext;
                                    GoHealthServer (":" +:+ config.Server_Port (cfg a'));
                                    StopNotify]) (checker q), Exit 2%Z)).
  { intros a' n q HT'.
    unfold Start, startHealthCheckServer, startConsumer, bind, perform, ret, crash, act.
    rewrite HI, HT'. cbn [trace checker]. rewrite <- !app_assoc. reflexivity. }
  unfold events_of. rewrite (Hrun a cleanupFns p HT). cbn [fst snd trace].
  rewrite drop_app_length.
  split; [reflexivity|]. split; [reflexivity|]. split; [reflexivity|].
  split; [reflexivity|].
  intros p0 a0 Hn Hoff.
  destruct (New_returns_app W p0 a0 Hn) as (_ & _ & _ & _ & (q & Ho) & _).
  destruct (init_otel_facts _ _ _ _ _ _ Ho) as (_ & _ & H3 & _).
  destruct (H3 Hoff) as [Htp _].
  unfold run, bind. destruct (New W p0) as [p1 o1]. cbn [snd] in Hn. subst o1.
  rewrite (Hrun a0 0 p1 Htp). reflexivity.
Qed.

(** The sample configuration has telemetry disabled. *)
Lemma Start_panics_without_tracer_provider_witness :
  snd (run (calm_world (inr kgo.sample_config)) kgo.fresh_process) = Exit 2%Z.
Proof.
  exact (proj2 (proj2 (proj2 (proj2
    (Start_panics_without_tracer_provider (calm_world (inr kgo.sample_config))
       (mkApp kgo.sample_config kgo.sample_opts None None) 0 kgo.fresh_process
       eq_refl eq_refl))))
    kgo.fresh_process (mkApp kgo.sample_config kgo.sample_opts None None)
    eq_refl eq_refl).
Defined.

End AppMore.

(* ===================================================================== *)
(** ** The poll loop: the wait-group, progress, and the order of calls *)
(* ===================================================================== *)

Section ConsumerMore.

Import consumer.

Lemma running_counted (ts : list Task) i t :
  ts !! i = Some t -> running (stage t) = true -> 1 <= length (select running ts).
Proof.
  revert i. induction ts as [|x ts IH]; intros [|i] Hi Hr; simpl in *; try discriminate.
  - injection Hi as ->. unfold select. simpl. rewrite Hr. simpl. lia.
  - unfold select in *. simpl. specialize (IH i Hi Hr).
    destruct (running (stage x)); simpl; lia.
Qed.

Lemma none_running (ts : list Task) :
  length (select running ts) = 0 <-> Forall (fun t => stage t = Exited) ts.
Proof.
  induction ts as [|[r st] ts IH]; [split; [constructor | reflexivity]|].
  unfold select in *. split.
  - intros H. destruct st; simpl in H; try discriminate H.
    constructor; [reflexivity | apply IH, H].
  - intros H. apply Forall_cons in H as [Hst H]. simpl in Hst. subst st.
    simpl. apply IH, H.
Qed.

Lemma some_running (ts : list Task) :
  length (select running ts) <> 0 ->
  exists i t, ts !! i = Some t /\ running (stage t) = true.
Proof.
  induction ts as [|x ts IH]; [intros H; contradiction H; reflexivity|].
  intros H. destruct (running (stage x)) eqn:Hr.
  - exists 0, x. auto.
  - unfold select in H. simpl in H. rewrite Hr in H.
    destruct (IH H) as (i & t & Hi & Ht). exists (S i), t. auto.
Qed.

(** Outside a batch the wait-group's counter is zero. *)
Lemma step_idle_wg c s s' :
  Inv s -> (idle s = true -> wg s = 0) -> step c s = Some s' ->
  idle s' = true -> wg s' = 0.
Proof.
  intros HI Hw Hs. destruct s as [p b w ts h]. unfold idle in *.
  cbn [pc wg] in *. destruct c as [| |f|i|i err]; cbn [step] in Hs.
  - cbn [cancelled] in Hs. destruct b; [discriminate|]. injection Hs as <-. exact Hw.
  - unfold run_step in Hs. cbn [pc cancelled wg tasks history] in Hs.
    destruct p as [| | |[|r pending]| |]; try discriminate.
    + destruct b; injection Hs as <-; cbn [pc wg]; intros _; apply Hw; reflexivity.
    + injection Hs as <-. cbn [pc wg]. intros _. apply Hw. reflexivity.
    + injection Hs as <-. discriminate.
    + injection Hs as <-. discriminate.
    + destruct w; [|discriminate]. injection Hs as <-. reflexivity.
  - unfold poll_return in Hs. cbn [pc cancelled wg tasks history] in Hs.
    destruct p; try discriminate.
    destruct (Errors f); injection Hs as <-; cbn [pc wg]; [reflexivity|].
    intros _. apply Hw. reflexivity.
  - unfold task_step in Hs. cbn [pc cancelled wg tasks history] in Hs.
    destruct (ts !! i) as [[r st]|] eqn:Hi; [|discriminate].
    destruct p; unfold Inv in HI; cbn [pc cancelled wg tasks history] in HI;
      try (destruct HI as [-> _]; discriminate Hi);
      destruct st; try discriminate; injection Hs as <-; discriminate.
  - unfold processor_return in Hs. cbn [pc cancelled wg tasks history] in Hs.
    destruct (ts !! i) as [[r st]|] eqn:Hi; [|discriminate].
    destruct p; unfold Inv in HI; cbn [pc cancelled wg tasks history] in HI;
      try (destruct HI as [-> _]; discriminate Hi);
      destruct st; try discriminate; injection Hs as <-; discriminate.
Qed.

Lemma reachable_idle_wg b cs s :
  exec cs (init b) = Some s -> idle s = true -> wg s = 0.
Proof.
  assert (H : forall cs s0 s1, Inv s0 -> (idle s0 = true -> wg s0 = 0) ->
                exec cs s0 = Some s1 -> idle s1 = true -> wg s1 = 0).
  { clear. induction cs as [|c cs IH]; intros s0 s1 HI Hw Hs; simpl in Hs.
    - injection Hs as <-. exact Hw.
    - destruct (step c s0) as [s'|] eqn:E; [|discriminate].
      eapply IH; [eapply step_Inv; eassumption| |exact Hs].
      eapply step_idle_wg; eassumption. }
  apply H; [apply init_Inv | reflexivity].
Qed.

Lemma Inv_idle_tasks s : Inv s -> idle s = true -> tasks s = [].
Proof.
  intros HI Hid. destruct s as [p b w ts h]. unfold idle in Hid. cbn [pc tasks] in *.
  destruct p; try discriminate; unfold Inv in HI;
    cbn [pc cancelled wg tasks history] in HI; apply HI.
Qed.

Lemma Inv_busy_wg s : Inv s -> idle s = false -> wg s = length (select running (tasks s)).
Proof.
  intros HI Hid. destruct s as [p b w ts h]. unfold idle in Hid. cbn [pc tasks wg] in *.
  destruct p; try discriminate; unfold Inv, live in HI;
    cbn [pc cancelled wg tasks history] in HI;
    destruct HI as (f & _ & _ & _ & Hw & _); exact Hw.
Qed.

Lemma reachable_wg b cs s :
  exec cs (init b) = Some s -> wg s = length (select running (tasks s)).
Proof.
  intros Hreach. pose proof (reachable_Inv _ _ _ Hreach) as HI.
  destruct (idle s) eqn:Hid.
  - rewrite (reachable_idle_wg _ _ _ Hreach Hid), (Inv_idle_tasks _ HI Hid). reflexivity.
  - apply Inv_busy_wg; assumption.
Qed.

(** X16. The wait-group counts the goroutines: in every reachable state its
    counter is the number of per-record goroutines that have not yet run
    their deferred [wg.Done()]. So the counter is zero whenever no batch is
    in flight, [wg.Done()] always finds it positive (it never goes
    negative), and [wg.Wait()] returns exactly when every goroutine of the
    batch has exited. *)
Theorem waitgroup_counts_goroutines (b : bool) (cs : list Choice) (s : State) :
  exec cs (init b) = Some s ->
  wg s = length (select running (tasks s))
  /\ (idle s = true -> wg s = 0 /\ tasks s = [])
  /\ (forall i r e s', tasks s !! i = Some (mkTask r (Finished e)) ->
        step (TaskStep i) s = Some s' -> wg s = S (wg s'))
  /\ (pc s = InWait ->
        (is_Some (step RunStep s) <-> Forall (fun t => stage t = Exited) (tasks s))).
Proof.
  intros Hreach. pose proof (reachable_Inv _ _ _ Hreach) as HI.
  pose proof (reachable_wg _ _ _ Hreach) as Hw.
  split; [exact Hw|]. split; [|split].
  - intros Hid. split; [eapply reachable_idle_wg; eassumption|].
    apply Inv_idle_tasks; assumption.
  - intros i r e s' Hi Hs. cbn [step] in Hs. unfold task_step in Hs. rewrite Hi in Hs.
    injection Hs as <-. cbn [wg].
    pose proof (running_counted (tasks s) i _ Hi eq_refl) as Hpos.
    rewrite <- Hw in Hpos. destruct (wg s); [lia | reflexivity].
  - intros Hp. rewrite <- none_running, <- Hw.
    cbn [step]. unfold run_step. rewrite Hp.
    destruct (wg s); split; intros H; try discriminate H; eauto.
    destruct H as [x Hx]. discriminate Hx.
Qed.

Lemma waitgroup_counts_goroutines_witness :
  wg both_in_call = 2 /\ wg after_good_iteration = 0.
Proof.
  split.
  - exact (proj1 (waitgroup_counts_goroutines false
                    ([RunStep; RunStep] ++ dispatch_in_order good_batch [1; 0])
                    both_in_call eq_refl)).
  - exact (proj1 (waitgroup_counts_goroutines false good_iteration
                    after_good_iteration eq_refl)).
Defined.

(** X17. The loop cannot get stuck. In every reachable state in which [Run]
    has not returned, [Run], one of its goroutines or the party it waits
    for (the client inside the poll, the processor inside a call) has a
    step to take; when [Run] is blocked in [wg.Wait()], it is a goroutine
    of the batch that can move. Once [Run] has returned nothing moves any
    more. *)
Theorem loop_never_stuck (b : bool) (cs : list Choice) (s : State) :
  exec cs (init b) = Some s ->
  (pc s <> Returned -> exists c, is_move c = true /\ is_Some (step c s))
  /\ (pc s = InWait -> step RunStep s = None ->
        exists i, i < length (tasks s) /\
          (is_Some (step (TaskStep i) s) \/
           forall err, is_Some (step (ProcessorReturn i err) s)))
  /\ (pc s = Returned -> forall c, step c s = None).
Proof.
  intros Hreach. pose proof (reachable_Inv _ _ _ Hreach) as HI.
  pose proof (reachable_wg _ _ _ Hreach) as Hw.
  assert (Hblocked : pc s = InWait -> step RunStep s = None ->
            exists i, i < length (tasks s) /\
              (is_Some (step (TaskStep i) s) \/
               forall err, is_Some (step (ProcessorReturn i err) s))).
  { intros Hp Hn. cbn [step] in Hn. unfold run_step in Hn. rewrite Hp in Hn.
    destruct (wg s) eqn:Hwg; [discriminate|].
    destruct (some_running (tasks s)) as (i & [r st] & Hi & Hr); [lia|].
    exists i. split; [eapply lookup_lt_Some; exact Hi|].
    cbn [step]. unfold task_step, processor_return. rewrite Hi.
    destruct st; try discriminate Hr; eauto. }
  split; [|split; [exact Hblocked|]].
  - intros Hp. destruct (pc s) as [| | |pending| |] eqn:Hpc.
    + exists RunStep. split; [reflexivity|]. cbn [step]. unfold run_step. rewrite Hpc.
      destruct (cancelled s); eauto.
    + exists RunStep. split; [reflexivity|]. cbn [step]. unfold run_step. rewrite Hpc. eauto.
    + exists (PollReturn cancelled_fetch). split; [reflexivity|].
      cbn [step]. unfold poll_return. rewrite Hpc. cbn. eauto.
    + exists RunStep. split; [reflexivity|]. cbn [step]. unfold run_step. rewrite Hpc.
      destruct pending; eauto.
    + destruct (step RunStep s) as [s'|] eqn:Hs.
      * exists RunStep. split; [reflexivity|]. rewrite Hs. eauto.
      * destruct (Hblocked eq_refl eq_refl) as (i & _ & [H | H]).
        -- exists (TaskStep i). split; [reflexivity | exact H].
        -- exists (ProcessorReturn i None). split; [reflexivity | apply H].
    + contradiction Hp. reflexivity.
  - intros Hp c. apply no_step_after_return; [exact HI | | exact Hp].
    eapply reachable_stopped_by_cancel; eassumption.
Qed.

Lemma loop_never_stuck_witness :
  exists c, is_move c = true /\ is_Some (step c both_in_call).
Proof.
  refine (proj1 (loop_never_stuck false
                   ([RunStep; RunStep] ++ dispatch_in_order good_batch [1; 0])
                   both_in_call eq_refl) _).
  discriminate.
Defined.

(** *** The order of the calls within a batch *)

Lemma spawn_all_tasks pending : forall s,
  pc s = InEachRecord pending ->
  exists s', exec (repeat RunStep (S (length pending))) s = Some s' /\
             pc s' = InWait /\
             tasks s' = tasks s ++ map (fun r => mkTask r Spawned) pending.
Proof.
  induction pending as [|r pending IH]; intros [p b w ts h] Hp;
    cbn [pc] in Hp; subst p.
  - eexists. split; [reflexivity|]. split; [reflexivity|].
    cbn [tasks map]. rewrite app_nil_r. reflexivity.
  - change (repeat RunStep (S (length (r :: pending))))
      with (RunStep :: repeat RunStep (S (length pending))).
    cbn [exec step]. unfold run_step at 1. cbn [pc cancelled wg tasks history].
    set (s1 := mkState (InEachRecord pending) b (S w) (ts ++ [mkTask r Spawned])
                 (Go (length ts) r :: h)).
    destruct (IH s1 eq_refl) as (s' & E & Hp' & Ht').
    exists s'. split; [exact E|]. split; [exact Hp'|].
    rewrite Ht'. subst s1. cbn [tasks map]. rewrite <- app_assoc. reflexivity.
Qed.

Lemma call_phase rs order : forall s,
  map rec (tasks s) = rs -> NoDup order ->
  (forall i, i ∈ order -> stage <$> tasks s !! i = Some Spawned) ->
  exists s', exec (map TaskStep order) s = Some s' /\
    pc s' = pc s /\ map rec (tasks s') = rs /\
    history s' = rev (omap (call_event rs) order) ++ history s /\
    (forall i, i ∈ order -> stage <$> tasks s' !! i = Some InCall) /\
    (forall i, i ∉ order -> tasks s' !! i = tasks s !! i).
Proof.
  induction order as [|i order IH]; intros s Hrs Hnd Hsp.
  - exists s. split; [reflexivity|]. split; [reflexivity|]. split; [exact Hrs|].
    split; [reflexivity|]. split; [|reflexivity].
    intros i Hi. inversion Hi.
  - apply NoDup_cons in Hnd as [Hni Hnd].
    pose proof (Hsp i ltac:(left)) as Hi.
    destruct (tasks s !! i) as [[r st]|] eqn:Hlk; [|discriminate Hi].
    cbn in Hi. injection Hi as ->.
    set (s1 := mkState (pc s) (cancelled s) (wg s) (<[i := mkTask r InCall]> (tasks s))
                 (ProcessRecord i (franz.Context r) r :: history s)).
    assert (E1 : step (TaskStep i) s = Some s1).
    { cbn [step]. unfold task_step. rewrite Hlk. reflexivity. }
    assert (Hrs1 : map rec (tasks s1) = rs).
    { subst s1. cbn [tasks]. rewrite (map_rec_insert _ _ _ (mkTask r InCall) Hlk eq_refl). exact Hrs. }
    destruct (IH s1 Hrs1 Hnd) as (s' & E & Hp & Hr & Hh & Hin & Hout).
    { intros j Hj. subst s1. cbn [tasks].
      rewrite list_lookup_insert_ne; [apply Hsp; right; exact Hj|].
      intros ->. contradiction. }
    exists s'. cbn [map exec]. rewrite E1.
    split; [exact E|]. split; [exact Hp|]. split; [exact Hr|]. split; [|split].
    + rewrite Hh. subst s1. cbn [history omap list_omap].
      assert (Hce : call_event rs i = Some (ProcessRecord i (franz.Context r) r)).
      { unfold call_event. rewrite <- Hrs.
        change (map rec (tasks s)) with (rec <$> tasks s).
        rewrite list_lookup_fmap, Hlk. reflexivity. }
      change (omap (call_event rs) (i :: order))
        with (match call_event rs i with
              | Some e => e :: omap (call_event rs) order
              | None => omap (call_event rs) order
              end).
      rewrite Hce. cbn [rev]. rewrite <- app_assoc. reflexivity.
    + intros j Hj. apply elem_of_cons in Hj as [-> | Hj]; [|apply Hin; exact Hj].
      rewrite (Hout i Hni). subst s1. cbn [tasks].
      rewrite list_lookup_insert_eq by (eapply lookup_lt_Some; exact Hlk). reflexivity.
    + intros j Hj. apply not_elem_of_cons in Hj as [Hne Hj].
      rewrite (Hout j Hj). subst s1. cbn [tasks].
      apply list_lookup_insert_ne. congruence.
Qed.

Lemma calls_call_events rs order :
  calls (rev (omap (call_event rs) order)) =
  rev (omap (fun i => call_of <$> rs !! i) order).
Proof.
  induction order as [|i order IH]; [reflexivity|].
  change (omap (call_event rs) (i :: order))
    with (match call_event rs i with
          | Some e => e :: omap (call_event rs) order
          | None => omap (call_event rs) order
          end).
  change (omap (fun i => call_of <$> rs !! i) (i :: order))
    with (match call_of <$> rs !! i with
          | Some e => e :: omap (fun i => call_of <$> rs !! i) order
          | None => omap (fun i => call_of <$> rs !! i) order
          end).
  unfold call_event at 1. destruct (rs !! i) as [r|]; cbn [fmap option_fmap option_map]; [|exact IH].
  cbn [rev]. unfold calls in *. rewrite omap_app, IH. reflexivity.
Qed.

Lemma inert_call_events rs order :
  Forall (fun e => inert e = true) (rev (omap (call_event rs) order)).
Proof.
  apply Forall_rev, Forall_forall. intros e He.
  apply list_elem_of_omap in He as (i & _ & Hi). unfold call_event in Hi.
  destruct (rs !! i); [|discriminate]. injection Hi as <-. reflexivity.
Qed.

Lemma returned_call_events rs order : returned (rev (omap (call_event rs) order)) = [].
Proof.
  induction order as [|i order IH]; [reflexivity|].
  change (omap (call_event rs) (i :: order))
    with (match call_event rs i with
          | Some e => e :: omap (call_event rs) order
          | None => omap (call_event rs) order
          end).
  unfold call_event at 1. destruct (rs !! i) as [r|]; cbn [fmap option_fmap option_map]; [|exact IH].
  cbn [rev]. unfold returned in *. rewrite omap_app, IH. reflexivity.
Qed.

Lemma all_spawned_select (rs : list franz.Record) :
  select started (map (fun r => mkTask r Spawned) rs) = [] /\
  select finished (map (fun r => mkTask r Spawned) rs) = [].
Proof. induction rs as [|r rs IH]; [split; reflexivity | exact IH]. Qed.

Lemma all_in_call_running (ts : list Task) :
  Forall (fun t => stage t = InCall) ts -> length (select running ts) = length ts.
Proof.
  induction 1 as [|[r st] ts Hst _ IH]; [reflexivity|].
  simpl in Hst. subst st. unfold select in *. simpl. f_equal. exact IH.
Qed.

(** X18. The loop keeps no order among the records of a batch and puts no
    bound on how many are processed at once. From a poll that is answered
    with a batch without fetch errors, and for every order of its records,
    there is a schedule in which the processor is called for the records
    in exactly that order, and in which every record of the batch is inside
    the processor at the same time, no call having returned yet. *)
Theorem calls_in_any_order (b : bool) (cs : list Choice) (s : State) (f : Fetches)
  (order : list nat) :
  exec cs (init b) = Some s ->
  pc s = InPoll ->
  Errors f = [] ->
  order ≡ₚ seq 0 (length (Records f)) ->
  exists s', exec (dispatch_in_order f order) s = Some s'
    /\ rev (calls (since_poll (history s'))) =
         omap (fun i => call_of <$> Records f !! i) order
    /\ returned (since_poll (history s')) = []
    /\ map rec (tasks s') = Records f
    /\ Forall (fun t => stage t = InCall) (tasks s')
    /\ wg s' = length (Records f)
    /\ pc s' = InWait.
Proof.
  intros Hreach Hp He Hperm. pose proof (reachable_Inv _ _ _ Hreach) as HI.
  set (s0 := mkState (InEachRecord (Records f)) (cancelled s) 0 [] (Fetched f :: history s)).
  assert (E0 : step (PollReturn f) s = Some s0).
  { cbn [step]. unfold poll_return. rewrite Hp, He. reflexivity. }
  destruct (spawn_all_tasks (Records f) s0 eq_refl) as (s1 & E1 & Hp1 & Ht1).
  change (tasks s0 ++ map (fun r => mkTask r Spawned) (Records f))
    with (map (fun r => mkTask r Spawned) (Records f)) in Ht1.
  assert (Hreach1 : exec (cs ++ PollReturn f :: repeat RunStep (S (length (Records f))))
                      (init b) = Some s1).
  { rewrite exec_app, Hreach. cbn [exec]. rewrite E0. exact E1. }
  pose proof (reachable_Inv _ _ _ Hreach1) as HI1.
  assert (Hrec1 : map rec (tasks s1) = Records f).
  { rewrite Ht1, map_map. cbn [rec]. apply map_id. }
  assert (Hquiet1 : calls (since_poll (history s1)) = [] /\
                    returned (since_poll (history s1)) = []).
  { destruct s1 as [p1 b1 w1 ts1 h1]. cbn [pc tasks history] in *. subst p1.
    unfold Inv, live in HI1. cbn [pc cancelled wg tasks history] in HI1.
    destruct HI1 as (f' & _ & _ & _ & _ & Hc & Hr & _).
    rewrite Ht1 in Hc, Hr.
    destruct (all_spawned_select (Records f)) as [Hs1 Hs2].
    rewrite Hs1 in Hc. rewrite Hs2 in Hr. cbn [map] in Hc.
    apply Permutation_nil_r in Hc. apply Permutation_nil_r in Hr.
    split; [exact Hc|]. destruct (returned (since_poll h1)); [reflexivity | discriminate]. }
  destruct Hquiet1 as [Hc1 Hr1].
  destruct (call_phase (Records f) order s1 Hrec1) as (s' & E & Hp' & Hrec' & Hh & Hin & _).
  { rewrite Hperm. apply NoDup_seq. }
  { intros i Hi. rewrite Hperm in Hi. apply elem_of_seq in Hi.
    rewrite Ht1, list_lookup_fmap.
    destruct (Records f !! i) as [r|] eqn:Hr; [reflexivity|].
    apply lookup_ge_None in Hr. lia. }
  assert (Hall : Forall (fun t => stage t = InCall) (tasks s')).
  { apply Forall_lookup. intros i t Hi.
    assert (Hlt : i < length (Records f)).
    { rewrite <- Hrec', length_map. eapply lookup_lt_Some; exact Hi. }
    assert (Hio : i ∈ order) by (rewrite Hperm; apply elem_of_seq; lia).
    specialize (Hin i Hio). rewrite Hi in Hin. cbn in Hin. congruence. }
  exists s'. split; [|split; [|split; [|split; [|split; [|split]]]]].
  - unfold dispatch_in_order. cbn [exec]. rewrite E0.
    rewrite exec_app, E1. exact E.
  - rewrite Hh, since_poll_inert by apply inert_call_events.
    unfold calls. rewrite omap_app. fold (calls (since_poll (history s1))).
    rewrite Hc1, app_nil_r.
    fold (calls (rev (omap (call_event (Records f)) order))).
    rewrite calls_call_events, rev_involutive. reflexivity.
  - rewrite Hh, since_poll_inert by apply inert_call_events.
    unfold returned. rewrite omap_app. fold (returned (since_poll (history s1))).
    rewrite Hr1, app_nil_r. apply returned_call_events.
  - exact Hrec'.
  - exact Hall.
  - assert (Hreach' : exec (cs ++ dispatch_in_order f order) (init b) = Some s').
    { rewrite exec_app, Hreach. unfold dispatch_in_order. cbn [exec]. rewrite E0.
      rewrite exec_app, E1. exact E. }
    rewrite (reachable_wg _ _ _ Hreach'), (all_in_call_running _ Hall).
    rewrite <- Hrec', length_map. reflexivity.
  - congruence.
Qed.

(** The second record of [good_batch] reaches the processor before the
    first. *)
Lemma calls_in_any_order_witness :
  exists s', exec (dispatch_in_order good_batch [1; 0]) first_poll = Some s'
    /\ rev (calls (since_poll (history s'))) = [call_of order2; call_of order1].
Proof.
  destruct (calls_in_any_order false [RunStep; RunStep] first_poll good_batch [1; 0]
              eq_refl eq_refl eq_refl (perm_swap 0 1 []))
    as (s' & E & Hc & _).
  exists s'. split; [exact E | exact Hc].
Defined.

End ConsumerMore.

(* ===================================================================== *)
(** ** The poll loop: how it ends *)
(* ===================================================================== *)

Section Cancellation.

Import consumer.








End Cancellation.

(* ===================================================================== *)
(** ** Telemetry: measurements and the header carrier *)
(* ===================================================================== *)

Section TelemetryMore.

Import processor.

Variable E : Type.
Variable now : E -> Z.

(** X19. [InstrumentMessage] adds one to the counter and records one
    duration, both tagged with the record's topic and the success flag it
    was given, never calls the processor and leaves its world alone; it
    sets the span attributes exactly when the context carries a span. When
    the clock has not gone back since [startTime] and the time elapsed
    since then fits a [time.Duration] (at most [max_Duration] nanoseconds,
    about 292 years; beyond that [time.Since] saturates), the duration
    recorded is the elapsed time in whole microseconds, rounded down, and
    is not negative. *)
Theorem instrument_message_measures (ctx : context.Context) (record : franz.Record)
  (success : bool) (startTime : Z) (w : World E) :
  (startTime <= now (env w))%Z ->
  (now (env w) - startTime <= max_Duration)%Z ->
  let out := snd (InstrumentMessage E now ctx record success startTime w) in
  exists micros : Z,
    added w out =
      [ CounterAdd 1 (franz.Topic record) success;
        HistogramRecord micros (franz.Topic record) success ]
      ++ match context.span ctx with
         | Some span =>
             [SpanSetAttributes span (franz.Topic record) (franz.Partition record)]
         | None => []
         end
    /\ sink out = sink w ++ added w out
    /\ invocations out = invocations w
    /\ env out = env w
    /\ (0 <= micros)%Z
    /\ (1000 * micros <= now (env w) - startTime < 1000 * micros + 1000)%Z.
Proof.
  intros Hclock _ out. exists (Z.quot (now (env w) - startTime) 1000).
  assert (Hout : out = mkWorld
            (sink w ++
               [ CounterAdd 1 (franz.Topic record) success;
                 HistogramRecord (Z.quot (now (env w) - startTime) 1000)
                   (franz.Topic record) success ]
               ++ match context.span ctx with
                  | Some span =>
                      [SpanSetAttributes span (franz.Topic record) (franz.Partition record)]
                  | None => []
                  end)
            (invocations w) (env w)).
  { subst out. unfold InstrumentMessage, tbind, time_Now, signal, tret.
    cbn [fst snd sink invocations env].
    destruct (context.span ctx); cbn [fst snd sink invocations env];
      rewrite <- ?app_assoc; reflexivity. }
  assert (Hadd : added w out = _) by (rewrite Hout; unfold added; cbn [sink]; apply drop_app_length).
  rewrite Hadd, Hout. cbn [sink invocations env].
  split; [reflexivity|]. split; [reflexivity|]. split; [reflexivity|].
  split; [reflexivity|].
  rewrite Z.quot_div_nonneg by lia.
  pose proof (Z.div_mod (now (env w) - startTime) 1000 ltac:(lia)) as Hdm.
  pose proof (Z.mod_pos_bound (now (env w) - startTime) 1000 ltac:(lia)) as Hm.
  split; [apply Z.div_pos; lia | lia].
Qed.

End TelemetryMore.

Lemma instrument_message_measures_witness :
  exists micros : Z,
    processor.added (processor.mkWorld [] [] 2500999%Z)
      (snd (processor.InstrumentMessage Z (fun t => t) (context.mkContext 7 None)
              consumer.order1 true 0 (processor.mkWorld [] [] 2500999%Z)))
    = [ processor.CounterAdd 1 "orders" true;
        processor.HistogramRecord micros "orders" true ]
    /\ micros = 2500%Z.
Proof.
  destruct (instrument_message_measures Z (fun t => t) (context.mkContext 7 None)
              consumer.order1 true 0 (processor.mkWorld [] [] 2500999%Z))
    as (micros & Hadd & _ & _ & _ & _ & Hb).
  - cbn. lia.
  - cbn. unfold processor.max_Duration. lia.
  - exists micros. split.
    + rewrite Hadd. cbn. reflexivity.
    + cbn in Hb. lia.
Defined.

Section CarrierFacts.

Import telemetry.

Lemma Keys_from acc hc :
  fold_left (fun keys (h : string * string) => keys ++ [fst h]) hc acc = acc ++ map fst hc.
Proof.
  revert acc. induction hc as [|h hc IH]; intros acc; simpl.
  - rewrite app_nil_r. reflexivity.
  - rewrite IH, <- app_assoc. reflexivity.
Qed.

Lemma inject_nothing fields hc : inject fields hc = hc.
Proof. induction fields as [|kv fields IH]; [reflexivity | exact IH]. Qed.

Lemma Get_first pre key v post :
  key ∉ map fst pre -> Get (pre ++ (key, v) :: post) key = v.
Proof.
  induction pre as [|[k x] pre IH]; intros Hn; simpl.
  - rewrite String.eqb_refl. reflexivity.
  - destruct (String.eqb k key) eqn:Hk.
    + apply String.eqb_eq in Hk. subst k. exfalso. apply Hn. simpl. left.
    + apply IH. intros Hin. apply Hn. simpl. right. exact Hin.
Qed.

Lemma Get_missing hc key : key ∉ map fst hc -> Get hc key = "".
Proof.
  induction hc as [|[k x] hc IH]; intros Hn; simpl; [reflexivity|].
  destruct (String.eqb k key) eqn:Hk.
  - apply String.eqb_eq in Hk. subst k. exfalso. apply Hn. simpl. left.
  - apply IH. intros Hin. apply Hn. simpl. right. exact Hin.
Qed.

(** X20. The header carrier is read-only. [Keys] lists the key of every
    header, in order and with repetitions; [Get] answers with the value of
    the first header that has exactly that key, and with the empty string
    for a key that [Keys] does not list; and since [Set] stores nothing,
    whatever is injected into a carrier cannot be read back: after any
    number of [Set] calls [Get] and [Keys] answer as before. *)
Theorem header_carrier_read_only (hc : HeaderCarrier) (key : string)
  (fields : list (string * string)) :
  Keys hc = map fst hc
  /\ (forall pre v post, hc = pre ++ (key, v) :: post -> key ∉ Keys pre ->
        Get hc key = v)
  /\ (key ∉ Keys hc -> Get hc key = "")
  /\ (Get hc key <> "" -> key ∈ Keys hc)
  /\ Get (inject fields hc) key = Get hc key
  /\ Keys (inject fields hc) = Keys hc
  /\ (key ∉ Keys hc -> forall value, Get (Set_ hc key value) key = "").
Proof.
  assert (HK : forall c, Keys c = map fst c).
  { intros c. unfold Keys. rewrite Keys_from. reflexivity. }
  split; [apply HK|]. split; [|split; [|split; [|split; [|split]]]].
  - intros pre v post -> Hn. rewrite HK in Hn. apply Get_first. exact Hn.
  - rewrite HK. apply Get_missing.
  - intros Hg. rewrite HK.
    destruct (decide (key ∈ map fst hc)) as [Hin|Hn]; [exact Hin|].
    exfalso. apply Hg. apply Get_missing. exact Hn.
  - rewrite inject_nothing. reflexivity.
  - rewrite inject_nothing. reflexivity.
  - intros Hn value. unfold Set_. rewrite HK in Hn. apply Get_missing. exact Hn.
Qed.

(** With the key repeated, the first value wins. *)
Example first_header_wins :
  Get sample_headers "traceparent" = "00-aa-bb-01"
  /\ Get sample_headers "Traceparent" = ""
  /\ Keys sample_headers = ["traceparent"; "tenant"; "traceparent"].
Proof. repeat split; reflexivity. Qed.

End CarrierFacts.

(* ===================================================================== *)
(** ** The example processor *)
(* ===================================================================== *)

Section ExampleFacts.

Import example.

Variable W : World.

Lemma pool_Get_clean pick (pool : list ResultMessage) :
  Forall (fun m => m = zero) pool ->
  fst (pool_Get pick pool) = zero
  /\ Forall (fun m => m = zero) (snd (pool_Get pick pool))
  /\ length (snd (pool_Get pick pool)) <= length pool.
Proof.
  intros Hc. unfold pool_Get. destruct pick as [i|]; [|auto].
  destruct (pool !! i) as [m|] eqn:Hi; [|auto]. cbn [fst snd].
  split; [exact (proj1 (Forall_lookup _ _) Hc i m Hi)|].
  split; [apply Forall_delete; exact Hc|].
  rewrite length_delete by eauto. lia.
Qed.

(** One call on a clean pool, path by path. *)
Lemma ProcessRecord_clean pick ctx record st :
  clean st ->
  ProcessRecord W pick ctx record st =
  let pool := pool_Put zero (snd (pool_Get pick (trxPool st))) in
  match json_Unmarshal W (franz.Value record) zero with
  | (Some err, _) =>
      (Some err,
       mkState pool
         (spans st ++ on_span ctx [RecordError err;
                                   SetStatus Error "failed to unmarshal message"])
         (logs st ++ [zap.Errorw "Failed to unmarshal message"
                        [("error", zap.FError err);
                         ("message", zap.FString (franz.Value record))]])
         (produced st))
  | (None, msg) =>
      match ProduceSync W ctx "result.topic" "value" with
      | Some err =>
          (Some err,
           mkState pool
             (spans st ++ on_span ctx [SetAttributes [("transaction.ref", TransactionRef msg);
                                                      ("ddp.result.code", Code msg)]])
             (logs st ++ [zap.Debugw "Consumed message successfully"
                            [("transactionRef", zap.FString (TransactionRef msg));
                             ("status", zap.FString (Code msg))]])
             (produced st ++ [(ctx, "result.topic", "value")]))
      | None =>
          (None,
           mkState pool
             (spans st ++ on_span ctx [SetAttributes [("transaction.ref", TransactionRef msg);
                                                      ("ddp.result.code", Code msg)];
                                       SetStatus Ok "message processed successfully"])
             (logs st ++ [zap.Debugw "Consumed message successfully"
                            [("transactionRef", zap.FString (TransactionRef msg));
                             ("status", zap.FString (Code msg))]])
             (produced st ++ [(ctx, "result.topic", "value")]))
      end
  end.
Proof.
  intros Hc. destruct (pool_Get_clean pick (trxPool st) Hc) as (Hz & _ & _).
  unfold ProcessRecord, unmarshalMessage, logMessage, span_call, on_span.
  destruct (pool_Get pick (trxPool st)) as [msg pool]. cbn [fst snd] in *. subst msg.
  destruct (json_Unmarshal W (franz.Value record) zero) as [[err|] msg'].
  - destruct (context.span ctx); cbn [map]; rewrite ?app_nil_r, <- ?app_assoc; reflexivity.
  - destruct (ProduceSync W ctx "result.topic" "value");
      destruct (context.span ctx); cbn [map]; rewrite ?app_nil_r, <- ?app_assoc; reflexivity.
Qed.

Lemma pooling_clean_after pick ctx record st :
  clean st -> clean (snd (ProcessRecord W pick ctx record st)).
Proof.
  intros Hc. destruct (pool_Get_clean pick (trxPool st) Hc) as (_ & Hp & _).
  rewrite (ProcessRecord_clean pick ctx record st Hc). cbv zeta.
  assert (Hclean : Forall (fun m => m = zero)
                     (pool_Put zero (snd (pool_Get pick (trxPool st))))).
  { unfold pool_Put. apply Forall_app. split; [exact Hp | repeat constructor]. }
  destruct (json_Unmarshal W (franz.Value record) zero) as [[err|] msg'];
    [|destruct (ProduceSync W ctx "result.topic" "value")]; exact Hclean.
Qed.

(** X21. Pooling the message structs is invisible. If every struct in the
    pool is zeroed, then whichever struct the pool hands out, one call of
    the example processor returns what it would return with a fresh
    struct, makes the same span calls, log entries and produce call, and
    leaves every struct in the pool zeroed again -- on the error paths as
    on the success path. So no field of one message can reach the decoding
    of the next. *)
Theorem pooling_is_invisible (pick : option nat) (ctx : context.Context)
  (record : franz.Record) (st : State) :
  clean st ->
  let out := ProcessRecord W pick ctx record st in
  let fresh := ProcessRecord W None ctx record
                 (mkState [] (spans st) (logs st) (produced st)) in
  clean (snd out)
  /\ fst out = fst fresh
  /\ spans (snd out) = spans (snd fresh)
  /\ logs (snd out) = logs (snd fresh)
  /\ produced (snd out) = produced (snd fresh)
  /\ 1 <= length (trxPool (snd out)) <= S (length (trxPool st)).
Proof.
  intros Hc out fresh. subst out fresh.
  destruct (pool_Get_clean pick (trxPool st) Hc) as (_ & Hp & Hl).
  rewrite (ProcessRecord_clean pick ctx record st Hc).
  rewrite (ProcessRecord_clean None ctx record
             (mkState [] (spans st) (logs st) (produced st))) by constructor.
  cbn [trxPool spans logs produced]. cbv zeta.
  assert (Hclean : Forall (fun m => m = zero)
                     (pool_Put zero (snd (pool_Get pick (trxPool st))))).
  { unfold pool_Put. apply Forall_app. split; [exact Hp | repeat constructor]. }
  assert (Hlen : 1 <= length (pool_Put zero (snd (pool_Get pick (trxPool st))))
                 <= S (length (trxPool st))).
  { unfold pool_Put. rewrite length_app. cbn [length]. lia. }
  destruct (json_Unmarshal W (franz.Value record) zero) as [[err|] msg'];
    [|destruct (ProduceSync W ctx "result.topic" "value")];
    cbn [fst snd trxPool spans logs produced]; unfold clean; cbn [trxPool];
    (split; [exact Hclean|]); repeat (split; [reflexivity|]); exact Hlen.
Qed.

(** X22. What the example processor does with a record, on a clean pool.
    It returns nil exactly when the decoding and the produce call both
    succeed. A decoding error is returned, logged with the raw message and
    recorded on the span with status Error, and nothing is produced. After
    a successful decoding exactly one record is produced, to
    "result.topic" with value "value" whatever the message says; a produce
    error is returned but neither recorded on the span nor logged, and the
    span's status is left unset. Status Ok is set exactly when the call
    returns nil. *)
Theorem example_outcomes (pick : option nat) (ctx : context.Context)
  (record : franz.Record) (st : State) :
  clean st ->
  let out := ProcessRecord W pick ctx record st in
  let u := json_Unmarshal W (franz.Value record) zero in
  let sent := ProduceSync W ctx "result.topic" "value" in
  (fst out = None <-> fst u = None /\ sent = None)
  /\ (forall e, fst u = Some e ->
        fst out = Some e
        /\ new_produced st (snd out) = []
        /\ new_spans st (snd out) =
             on_span ctx [RecordError e; SetStatus Error "failed to unmarshal message"]
        /\ new_logs st (snd out) =
             [zap.Errorw "Failed to unmarshal message"
                [("error", zap.FError e); ("message", zap.FString (franz.Value record))]])
  /\ (fst u = None ->
        fst out = sent
        /\ new_produced st (snd out) = [(ctx, "result.topic", "value")]
        /\ new_spans st (snd out) =
             on_span ctx
               (SetAttributes [("transaction.ref", TransactionRef (snd u));
                               ("ddp.result.code", Code (snd u))]
                :: match sent with
                   | Some _ => []
                   | None => [SetStatus Ok "message processed successfully"]
                   end)
        /\ new_logs st (snd out) =
             [zap.Debugw "Consumed message successfully"
                [("transactionRef", zap.FString (TransactionRef (snd u)));
                 ("status", zap.FString (Code (snd u)))]])
  /\ (forall name, context.span ctx = Some name ->
        ((name, SetStatus Ok "message processed successfully") ∈ new_spans st (snd out)
         <-> fst out = None)).
Proof.
  intros Hc out u sent. subst out u sent.
  rewrite (ProcessRecord_clean pick ctx record st Hc). cbv zeta.
  unfold new_produced, new_spans, new_logs.
  destruct (json_Unmarshal W (franz.Value record) zero) as [[err|] msg'];
    [|destruct (ProduceSync W ctx "result.topic" "value") as [perr|]];
    cbn [fst snd trxPool spans logs produced];
    rewrite ?drop_app_length, ?drop_all.
  - split; [split; [discriminate | intros [H _]; discriminate H]|].
    split; [intros e [= <-]; auto|]. split; [discriminate|].
    intros name Hn. unfold on_span. rewrite Hn. cbn [map].
    split; [|discriminate]. intros H.
    repeat (apply elem_of_cons in H as [H|H]; [discriminate H|]). inversion H.
  - split; [split; [discriminate | intros [_ H]; discriminate H]|].
    split; [discriminate|]. split; [auto|].
    intros name Hn. unfold on_span. rewrite Hn. cbn [map].
    split; [|discriminate]. intros H.
    repeat (apply elem_of_cons in H as [H|H]; [discriminate H|]). inversion H.
  - split; [split; auto|].
    split; [discriminate|]. split; [auto|].
    intros name Hn. unfold on_span. rewrite Hn. cbn [map].
    split; [reflexivity|]. intros _. right. left.
Qed.

End ExampleFacts.

Lemma pooling_is_invisible_witness :
  example.clean
    (snd (example.ProcessRecord example.sample_world (Some 1) (context.mkContext 1 None)
            example.sample_record example.sample_state)).
Proof.
  refine (proj1 (pooling_is_invisible example.sample_world (Some 1)
                   (context.mkContext 1 None) example.sample_record
                   example.sample_state _)).
  repeat constructor.
Defined.

Lemma example_outcomes_witness :
  fst (example.ProcessRecord example.sample_world None
         (context.mkContext 1 (Some "orders process"))
         example.sample_record example.sample_state) = None.
Proof.
  refine (proj2 (proj1 (example_outcomes example.sample_world None
                   (context.mkContext 1 (Some "orders process")) example.sample_record
                   example.sample_state _)) _).
  - repeat constructor.
  - split; reflexivity.
Defined.

(* ===================================================================== *)
(** ** The example processor behind the instrumenting decorator *)
(* ===================================================================== *)

Section InstrumentedExample.

Import example.

Lemma instrumented_run {E} (now : E -> Z) (p : processor.Processor E)
  (ctx : context.Context) (record : franz.Record) (w : processor.World E) :
  let name := franz.Topic record +:+ " process" in
  let ctx' := context.WithSpan ctx name in
  let inner := p ctx' record (processor.env w) in
  processor.ProcessRecord now p ctx record w =
  (fst inner,
   processor.mkWorld
     (processor.sink w ++
        [ processor.SpanStart name;
          processor.CounterAdd 1 (franz.Topic record) (processor.is_nil (fst inner));
          processor.HistogramRecord
            (Z.quot (now (snd inner) - now (processor.env w)) 1000)
            (franz.Topic record) (processor.is_nil (fst inner));
          processor.SpanSetAttributes name (franz.Topic record) (franz.Partition record);
          processor.SpanEnd name ])
     (processor.invocations w ++ [(ctx', record)]) (snd inner)).
Proof.
  intros name ctx' inner.
  unfold processor.ProcessRecord, processor.defer, processor.tbind,
    processor.tracer_Start, processor.time_Now, processor.InstrumentMessage,
    processor.invoke, processor.span_End, processor.signal, processor.tret.
  subst inner. destruct (p ctx' record (processor.env w)) as [err e'] eqn:Hp.
  subst name ctx'.
  repeat (unfold processor.tbind;
          cbn [fst snd processor.sink processor.invocations processor.env
               context.WithSpan context.span]).
  rewrite Hp. unfold processor.time_Now.
  cbn [fst snd processor.sink processor.invocations processor.env].
  rewrite <- !app_assoc. reflexivity.
Qed.

(** X23. The example processor as the consumer runs it, wrapped in the
    instrumenting processor. The counter and the duration are tagged
    success exactly when the decoding and the produce call both succeed;
    the duration is the time the call took, in whole microseconds; the
    span calls of the example processor all land on the span the decorator
    has just started, named after the topic, whether or not the incoming
    context carried a span; and the produce call is made with the context
    that carries this span. *)
Theorem instrumented_example (W : World) (pick : option nat) (elapsed : Z)
  (ctx : context.Context) (record : franz.Record) (st : State) (t : Z)
  (w : processor.World (State * Z)) :
  clean st ->
  processor.env w = (st, t) ->
  let name := franz.Topic record +:+ " process" in
  let ctx' := context.WithSpan ctx name in
  let out := processor.ProcessRecord snd (timed elapsed (ProcessRecord W pick)) ctx record w in
  let u := json_Unmarshal W (franz.Value record) zero in
  let sent := ProduceSync W ctx' "result.topic" "value" in
  let ok := processor.is_nil (fst u) && processor.is_nil sent in
  let st' := fst (processor.env (snd out)) in
  processor.added w (snd out) =
    [ processor.SpanStart name;
      processor.CounterAdd 1 (franz.Topic record) ok;
      processor.HistogramRecord (Z.quot elapsed 1000) (franz.Topic record) ok;
      processor.SpanSetAttributes name (franz.Topic record) (franz.Partition record);
      processor.SpanEnd name ]
  /\ (fst out = None <-> ok = true)
  /\ (exists calls, calls <> [] /\ new_spans st st' = map (pair name) calls)
  /\ (fst u = None -> new_produced st st' = [(ctx', "result.topic", "value")])
  /\ (fst u <> None -> new_produced st st' = [])
  /\ clean st'
  /\ snd (processor.env (snd out)) = (t + elapsed)%Z.
Proof.
  intros Hc Hw name ctx' out u sent ok st'. subst out st'.
  rewrite instrumented_run. fold name. fold ctx'.
  unfold processor.added. cbn [fst snd processor.sink processor.env].
  rewrite drop_app_length, Hw. unfold timed. cbn [fst snd].
  pose proof (pooling_clean_after W pick ctx' record st Hc) as Hclean.
  rewrite (ProcessRecord_clean W pick ctx' record st Hc) in *. cbv zeta in *.
  unfold new_spans, new_produced, on_span. cbn [context.WithSpan context.span].
  subst ok u sent.
  destruct (json_Unmarshal W (franz.Value record) zero) as [[err|] msg'];
    [|destruct (ProduceSync W ctx' "result.topic" "value") as [perr|]];
    cbn [fst snd trxPool spans logs produced processor.is_nil andb] in *;
    rewrite ?drop_app_length, ?drop_all, ?Z.add_simpl_l.
  - split; [reflexivity|]. split; [split; discriminate|].
    split; [eexists; split; [|reflexivity]; discriminate|].
    split; [discriminate|]. split; [reflexivity|]. split; [exact Hclean | reflexivity].
  - split; [reflexivity|]. split; [split; discriminate|].
    split; [eexists; split; [|reflexivity]; discriminate|].
    split; [reflexivity|]. split; [intros H; contradiction H; reflexivity|].
    split; [exact Hclean | reflexivity].
  - split; [reflexivity|]. split; [split; reflexivity|].
    split; [eexists; split; [|reflexivity]; discriminate|].
    split; [reflexivity|]. split; [intros H; contradiction H; reflexivity|].
    split; [exact Hclean | reflexivity].
Qed.

Lemma instrumented_example_witness :
  fst (processor.ProcessRecord snd (timed 2500000 (ProcessRecord sample_world (Some 0)))
         (context.mkContext 7 None) sample_record
         (processor.mkWorld [] [] (sample_state, 1000%Z))) = None.
Proof.
  refine (proj2 (proj1 (proj2 (instrumented_example sample_world (Some 0) 2500000
                   (context.mkContext 7 None) sample_record sample_state 1000
                   (processor.mkWorld [] [] (sample_state, 1000%Z)) _ eq_refl))) eq_refl).
  repeat constructor.
Defined.

End InstrumentedExample.

(* ===================================================================== *)
(** ** Loading the configuration *)
(* ===================================================================== *)

Section ConfigFacts.

Import configload.

Lemma required_spec s : required s = true <-> s <> "".
Proof.
  unfold required. rewrite negb_true_iff. split.
  - intros H. apply String.eqb_neq. exact H.
  - intros H. apply String.eqb_neq. exact H.
Qed.

Lemma valid_spec v cfg :
  validate_Struct v cfg = None <->
  config.AppName cfg <> ""
  /\ config.Brokers (config.Config_Kafka cfg) <> ""
  /\ config.Topic (config.Config_Kafka cfg) <> ""
  /\ config.GroupID (config.Config_Kafka cfg) <> ""
  /\ config.Server_Port cfg <> "".
Proof.
  unfold validate_Struct. rewrite <- !required_spec.
  destruct (required (config.AppName cfg)), (required (config.Brokers _)),
    (required (config.Topic _)), (required (config.GroupID _)),
    (required (config.Server_Port cfg)); cbn [andb];
    split; try discriminate; intuition congruence.
Qed.

Lemma New_returns v cfg :
  New v = inr cfg <->
  (forall err, ReadInConfig v <> ReadFailed err)
  /\ Unmarshal v (file_loaded (ReadInConfig v)) = inr cfg
  /\ validate_Struct v cfg = None.
Proof.
  unfold New. destruct (ReadInConfig v) as [|msg|msg]; cbn [file_loaded].
  - destruct (Unmarshal v true) as [e|c].
    + split; [discriminate | intros (_ & H & _); discriminate H].
    + destruct (validate_Struct v c) eqn:Hv.
      * split; [discriminate | intros (_ & [= <-] & H); congruence].
      * split; [intros [= <-]; repeat split; auto; discriminate | intros (_ & [= <-] & _); reflexivity].
  - destruct (Unmarshal v false) as [e|c].
    + split; [discriminate | intros (_ & H & _); discriminate H].
    + destruct (validate_Struct v c) eqn:Hv.
      * split; [discriminate | intros (_ & [= <-] & H); congruence].
      * split; [intros [= <-]; repeat split; auto; discriminate | intros (_ & [= <-] & _); reflexivity].
  - split; [discriminate | intros (H & _); contradiction (H msg); reflexivity].
Qed.

(** X24. [config.New] returns a configuration exactly when reading the file
    did not fail (a file that is not found counts as no failure),
    unmarshalling succeeded, and none of the five required fields of the
    result -- application name, brokers, topic, group id, server port -- is
    empty; it then returns what the unmarshalling produced. A read failure
    other than a missing file is returned before anything is unmarshalled
    or validated. So an application that [ktel.New] builds from this
    configuration serves its probes on ":" followed by a non-empty
    port. *)
Theorem config_New_validates (v : Sources) :
  (forall cfg, New v = inr cfg <->
     (forall err, ReadInConfig v <> ReadFailed err)
     /\ Unmarshal v (file_loaded (ReadInConfig v)) = inr cfg
     /\ config.AppName cfg <> ""
     /\ config.Brokers (config.Config_Kafka cfg) <> ""
     /\ config.Topic (config.Config_Kafka cfg) <> ""
     /\ config.GroupID (config.Config_Kafka cfg) <> ""
     /\ config.Server_Port cfg <> "")
  /\ (forall err, ReadInConfig v = ReadFailed err ->
        New v = inl ("failed to read config file: " +:+ err))
  /\ (forall (W : ktel.World) (p p' : Process) (a : ktel.app),
        ktel.config_New W = New v ->
        snd (ktel.New W p) = Return (inr a) ->
        New v = inr (ktel.cfg a)
        /\ exists port, port <> "" /\
             ktel.events_of (ktel.startHealthCheckServer a) p'
             = [GoHealthServer (":" +:+ port)]).
Proof.
  assert (Hret : forall cfg, New v = inr cfg <->
     (forall err, ReadInConfig v <> ReadFailed err)
     /\ Unmarshal v (file_loaded (ReadInConfig v)) = inr cfg
     /\ config.AppName cfg <> ""
     /\ config.Brokers (config.Config_Kafka cfg) <> ""
     /\ config.Topic (config.Config_Kafka cfg) <> ""
     /\ config.GroupID (config.Config_Kafka cfg) <> ""
     /\ config.Server_Port cfg <> "").
  { intros cfg. rewrite New_returns, valid_spec. reflexivity. }
  split; [exact Hret|]. split.
  - intros err Hr. unfold New. rewrite Hr. reflexivity.
  - intros W p p' a HW Hn.
    destruct (New_returns_app W p a Hn) as (Hc & _).
    rewrite HW in Hc. split; [exact Hc|].
    destruct (proj1 (Hret _) Hc) as (_ & _ & _ & _ & _ & _ & Hport).
    exists (config.Server_Port (ktel.cfg a)). split; [exact Hport|].
    apply (emits_events_of _ _ tt). apply emits_perform.
Qed.

Lemma config_New_validates_witness :
  exists cfg, New from_file = inr cfg /\
    config.Brokers (config.Config_Kafka cfg) = "localhost:9092".
Proof.
  exists (match Unmarshal from_file true with
          | inr cfg => cfg
          | inl _ => kgo.sample_config
          end).
  split; [|reflexivity].
  apply (proj2 (proj1 (config_New_validates from_file) _)).
  repeat split; discriminate.
Defined.

End ConfigFacts.
